(** * Notification prioritization engine: a shallow embedding and its properties

    The development follows the Python package [notification_engine/engine]:
    [models.py], [store.py], [rules.py], [scorer.py], [audit.py] and
    [prioritizer.py].  Each class is a module, each method a definition of
    the same name.

    - Stateful code is written in a state-and-exception monad over a [World]
      that holds the module-level singletons ([store], [audit_log]), the
      engine's components and the system clock.  The state survives an
      exception, as it does in Python.
    - The clock is an oracle: the [n]-th call of [time.time()] or
      [datetime.now()] returns the [n]-th reading.  Instants are integers,
      in microseconds since the Unix epoch.
    - Scores are IEEE 754 binary64 numbers (Rocq's primitive floats);
      [round(x, 3)] and the format [.2f] are computed on the exact value of
      the float, as CPython does.
    - Strings are sequences of bytes (UTF-8); character classes and case
      are those of ASCII.
    - [hashlib.sha256] is implemented after FIPS 180-4.
    - What the Python runtime and the host provide (the ISO-8601 parser, the
      local time zone, the attributes every instance has) is a parameter, the
      class [Platform].
    - Output to the terminal ([print]) is left out, and so are the HTTP
      server and the demonstration script, which only call the package. *)

From Stdlib Require Import ZArith List String Ascii Bool Lia Floats DecimalString.
From Stdlib Require Import Sorted Permutation.
From stdpp Require Import gmap strings.

Set Warnings "-inexact-float,-register-all".

Open Scope Z_scope.
Open Scope string_scope.

(** ** Python values and strings *)

(** The values that rule operands and [metadata] entries range over (what
    [json.load] produces, dictionaries and floats apart).  [PObj] stands for
    any other object (a bound method, the metadata dictionary itself): it is
    truthy and equal to no JSON scalar or array. *)
Inductive pyval : Type :=
| PNone
| PBool (b : bool)
| PInt (z : Z)
| PStr (s : string)
| PList (l : list pyval)
| PObj.

(** Python's [==] on these values ([True == 1] and [False == 0] hold). *)
Fixpoint py_eq (a b : pyval) {struct a} : bool :=
  match a, b with
  | PNone, PNone => true
  | PBool x, PBool y => Bool.eqb x y
  | PBool x, PInt y | PInt y, PBool x => Z.eqb y (if x then 1 else 0)
  | PInt x, PInt y => Z.eqb x y
  | PStr x, PStr y => String.eqb x y
  | PList xs, PList ys =>
      (fix go (xs ys : list pyval) {struct xs} : bool :=
         match xs, ys with
         | [], [] => true
         | x :: xs', y :: ys' => py_eq x y && go xs' ys'
         | _, _ => false
         end) xs ys
  | _, _ => false
  end.

(** Truth value of an object in a condition ([if x:]). *)
Definition py_truthy (v : pyval) : bool :=
  match v with
  | PNone => false
  | PBool b => b
  | PInt z => negb (Z.eqb z 0)
  | PStr s => negb (String.eqb s "")
  | PList l => match l with [] => false | _ => true end
  | PObj => true
  end.

(** Truth value of an [Optional[str]]: [None] and the empty string are falsy. *)
Definition truthy_str (o : option string) : bool :=
  match o with
  | Some s => negb (String.eqb s "")
  | None => false
  end.

(** [x or ''] for an optional string. *)
Definition or_empty (o : option string) : string :=
  match o with
  | Some s => if String.eqb s "" then "" else s
  | None => ""
  end.

(** [str(n)] for an integer. *)
Definition str_of_int (n : Z) : string := NilZero.string_of_int (Z.to_int n).

(** [needle in hay] for two strings. *)
Fixpoint str_contains (needle hay : string) : bool :=
  String.prefix needle hay ||
  match hay with
  | EmptyString => false
  | String _ rest => str_contains needle rest
  end.

(** [sep.join(parts)]. *)
Fixpoint str_join (sep : string) (parts : list string) : string :=
  match parts with
  | [] => ""
  | [p] => p
  | p :: rest => p ++ sep ++ str_join sep rest
  end.

(** ** Time

    Instants are integers: microseconds since the Unix epoch.  [time.time()]
    and [datetime.now()] both read the system clock; a duration given in
    seconds is converted with [seconds]. *)
Definition seconds (n : Z) : Z := n * 1000000.

(** A [datetime]: the wall-clock reading in microseconds and, for an aware
    value, its UTC offset in microseconds ([tzinfo]). *)
Record datetime : Type := mk_datetime {
  wall : Z;
  tzinfo : option Z
}.

(** What the engine takes from the Python runtime and the host: the ISO-8601
    parser ([None] where [datetime.fromisoformat] raises), the host's local
    time (wall-clock microseconds for an instant), the ISO form of the
    local date of an instant, and the attributes that every instance of a
    dataclass has besides its fields and methods ([__class__], [__doc__],
    [__dict__], [__eq__], [__hash__], ...: which names, and with which
    values, is the runtime's matter; [None] for a name that is not one). *)
Class Platform : Type := {
  fromisoformat : string -> option datetime;
  localtime : Z -> Z;
  date_isoformat : Z -> string;
  instance_attribute : string -> option pyval
}.

(** ** models.py *)

Record NotificationEvent : Type := mk_event {
  user_id : string;
  event_type : string;
  channel : string;
  title : option string;
  message : option string;
  source : option string;
  priority_hint : option string;
  timestamp : option string;
  expires_at : option string;
  dedupe_key : option string;
  metadata : gmap string pyval;
  id : string
}.

Record Decision : Type := mk_decision {
  d_event_id : string;
  d_user_id : string;
  action : string;
  score : float;
  reason : string;
  rule_matched : option string;
  ai_used : bool;
  fallback_mode : bool;
  decided_at : Z;
  deferred_until : option string
}.

(** ** scorer.py, rules.py: the records the engine's state is made of *)

Record ScoreResult : Type := mk_score {
  sr_score : float;
  sr_action : string;
  sr_reason : string;
  sr_ai_used : bool;
  sr_fallback_mode : bool
}.

(** [CircuitBreaker.state] takes the three strings "CLOSED", "OPEN" and
    "HALF-OPEN". *)
Inductive BreakerState : Type := CLOSED | OPEN | HALF_OPEN.

Record CircuitBreaker : Type := mk_breaker {
  failures : Z;
  state : BreakerState;
  last_failure_time : option Z;
  failure_threshold : Z;
  reset_timeout : Z   (* seconds *)
}.

Record Condition : Type := mk_cond {
  c_field : string;
  c_op : string;
  c_value : pyval
}.

Record Rule : Type := mk_rule {
  r_name : string;
  r_priority : Z;
  r_conditions : list Condition;
  r_action : string;
  r_reason : string
}.

(** ** The world: every piece of mutable state the engine touches *)

Record World : Type := mk_world {
  w_store : gmap string (string * Z);      (* store._store: key -> (value, expire_at) *)
  w_counters : gmap string (Z * Z);        (* store._counters: key -> (count, expire_at) *)
  w_rules : list Rule;                     (* engine.rules.rules *)
  w_breaker : CircuitBreaker;              (* engine.scorer.circuit_breaker *)
  w_AI_AVAILABLE : bool;                   (* AIScorer.AI_AVAILABLE *)
  w_log : list Decision;                   (* audit_log._log *)
  w_clock : nat -> Z;                      (* the n-th reading of the system clock *)
  w_ticks : nat                            (* number of readings taken so far *)
}.

Definition set_store (f : gmap string (string * Z) -> gmap string (string * Z)) (w : World) : World :=
  mk_world (f (w_store w)) (w_counters w) (w_rules w) (w_breaker w)
           (w_AI_AVAILABLE w) (w_log w) (w_clock w) (w_ticks w).

Definition set_counters (f : gmap string (Z * Z) -> gmap string (Z * Z)) (w : World) : World :=
  mk_world (w_store w) (f (w_counters w)) (w_rules w) (w_breaker w)
           (w_AI_AVAILABLE w) (w_log w) (w_clock w) (w_ticks w).

Definition set_breaker (f : CircuitBreaker -> CircuitBreaker) (w : World) : World :=
  mk_world (w_store w) (w_counters w) (w_rules w) (f (w_breaker w))
           (w_AI_AVAILABLE w) (w_log w) (w_clock w) (w_ticks w).

Definition set_log (f : list Decision -> list Decision) (w : World) : World :=
  mk_world (w_store w) (w_counters w) (w_rules w) (w_breaker w)
           (w_AI_AVAILABLE w) (f (w_log w)) (w_clock w) (w_ticks w).

Definition set_ticks (f : nat -> nat) (w : World) : World :=
  mk_world (w_store w) (w_counters w) (w_rules w) (w_breaker w)
           (w_AI_AVAILABLE w) (w_log w) (w_clock w) (f (w_ticks w)).

Definition set_rules (f : list Rule -> list Rule) (w : World) : World :=
  mk_world (w_store w) (w_counters w) (f (w_rules w)) (w_breaker w)
           (w_AI_AVAILABLE w) (w_log w) (w_clock w) (w_ticks w).

(** ** The monad: state that survives an exception *)

Inductive PyExn : Type :=
| TypeError (msg : string).

Definition exn_str (e : PyExn) : string :=
  match e with TypeError msg => msg end.

Inductive Result (A : Type) : Type :=
| Ok (a : A)
| Raise (e : PyExn).
Arguments Ok {A} a.
Arguments Raise {A} e.

Definition M (A : Type) : Type := World -> Result A * World.

Definition ret {A} (a : A) : M A := fun w => (Ok a, w).

Definition bind {A B} (c : M A) (k : A -> M B) : M B :=
  fun w =>
    match c w with
    | (Ok a, w') => k a w'
    | (Raise e, w') => (Raise e, w')
    end.

Definition raise {A} (e : PyExn) : M A := fun w => (Raise e, w).

(** [try: body / except Exception as e: handler(e)]. *)
Definition try_except {A} (body : M A) (handler : PyExn -> M A) : M A :=
  fun w =>
    match body w with
    | (Ok a, w') => (Ok a, w')
    | (Raise e, w') => handler e w'
    end.

Definition get_world : M World := fun w => (Ok w, w).
Definition modify (f : World -> World) : M unit := fun w => (Ok tt, f w).

Notation "'do' x <- c ; k" := (bind c (fun x => k))
  (at level 10, x name, c at level 100, k at level 200).
Notation "c ;; k" := (bind c (fun _ => k))
  (at level 100, k at level 200, right associativity).

(** One reading of the system clock ([time.time()], in microseconds). *)
Definition time_time : M Z :=
  fun w => (Ok (w_clock w (w_ticks w)), set_ticks S w).

(** ** store.py: InMemoryStore *)

Module InMemoryStore.

(** [expire_at is not None and time.time() > expire_at]: the clock is read
    only when there is an expiry to compare with. *)
Definition _is_expired (expire_at : option Z) : M bool :=
  match expire_at with
  | None => ret false
  | Some t => do now <- time_time; ret (Z.ltb t now)
  end.

(** A stored entry is a pair, which is truthy: [if entry and ...] tests
    that the key is present. *)
Definition set_nx (key value : string) (ttl_seconds : Z) : M bool :=
  do w <- get_world;
  let entry := w_store w !! key in
  do live <- match entry with
             | Some e => do x <- _is_expired (Some (snd e)); ret (negb x)
             | None => ret false
             end;
  if live then ret false
  else
    do now <- time_time;
    modify (set_store <[key := (value, now + seconds ttl_seconds)]>) ;;
    ret true.

Definition get (key : string) : M (option string) :=
  do w <- get_world;
  match w_store w !! key with
  | Some e =>
      do x <- _is_expired (Some (snd e));
      if negb x then ret (Some (fst e)) else ret None
  | None => ret None
  end.

Definition incr (key : string) (ttl_seconds : Z) : M Z :=
  do w <- get_world;
  let entry := w_counters w !! key in
  let first_increment : M Z :=
    do now <- time_time;
    modify (set_counters <[key := (1, now + seconds ttl_seconds)]>) ;;
    ret 1 in
  match entry with
  | None => first_increment
  | Some e =>
      do expired <- _is_expired (Some (snd e));
      if expired then first_increment
      else
        let count := fst e + 1 in
        modify (set_counters <[key := (count, snd e)]>) ;;
        ret count
  end.

Definition get_count (key : string) : M Z :=
  do w <- get_world;
  match w_counters w !! key with
  | Some e =>
      do x <- _is_expired (Some (snd e));
      if negb x then ret (fst e) else ret 0
  | None => ret 0
  end.

(** [store._lists], a [defaultdict(list)], is touched by [push_list] and
    [get_list] only, and by nothing of the engine: the two methods are
    functions of that one dictionary.  [self._lists[key]] creates the entry
    of a missing key, [self._lists.get(key, [])] does not. *)
Definition push_list (key value : string) (lists : gmap string (list string))
  : gmap string (list string) :=
  <[key := (default [] (lists !! key) ++ [value])%list]> lists.

Definition get_list (key : string) (lists : gmap string (list string)) : list string :=
  default [] (lists !! key).

End InMemoryStore.

(** ** hashlib.sha256 (FIPS 180-4), on a message given as a list of bytes *)

Module Sha256.

Local Open Scope Z_scope.

Definition w32 (x : Z) : Z := Z.land x 4294967295.
Definition add32 (x y : Z) : Z := w32 (x + y).
Definition rotr (n x : Z) : Z := Z.lor (Z.shiftr x n) (w32 (Z.shiftl x (32 - n))).
Definition not32 (x : Z) : Z := Z.lxor x 4294967295.

Definition Ch (x y z : Z) : Z := Z.lxor (Z.land x y) (Z.land (not32 x) z).
Definition Maj (x y z : Z) : Z := Z.lxor (Z.lxor (Z.land x y) (Z.land x z)) (Z.land y z).
Definition Sigma0 (x : Z) : Z := Z.lxor (Z.lxor (rotr 2 x) (rotr 13 x)) (rotr 22 x).
Definition Sigma1 (x : Z) : Z := Z.lxor (Z.lxor (rotr 6 x) (rotr 11 x)) (rotr 25 x).
Definition sigma0 (x : Z) : Z := Z.lxor (Z.lxor (rotr 7 x) (rotr 18 x)) (Z.shiftr x 3).
Definition sigma1 (x : Z) : Z := Z.lxor (Z.lxor (rotr 17 x) (rotr 19 x)) (Z.shiftr x 10).

(** Primality of a number between 2 and 360, by trial division up to 18. *)
Definition is_prime (p : Z) : bool :=
forallb (fun d => (p <=? Z.of_nat d) || negb (p mod Z.of_nat d =? 0)) (seq 2 17).

(** The first [n] primes among [2, 3, ..., bound + 1]. *)
Definition first_primes (n bound : nat) : list Z :=
firstn n (List.filter is_prime (map Z.of_nat (seq 2 bound))).

(** The largest [r < 2^bits] with [r^3 <= x], found bit by bit. *)
Fixpoint cube_root_bits (bits : nat) (x acc : Z) : Z :=
match bits with
| O => acc
| S b =>
    let cand := acc + 2 ^ Z.of_nat b in
    cube_root_bits b x (if cand * cand * cand <=? x then cand else acc)
end.

(** The round constants: the first 32 bits of the fractional parts of the
    cube roots of the first 64 primes. *)
Definition K : list Z :=
map (fun p => w32 (cube_root_bits 36 (p * 2 ^ 96) 0)) (first_primes 64 310).

(** The initial hash value: the first 32 bits of the fractional parts of the
    square roots of the first 8 primes. *)
Definition H0 : list Z :=
map (fun p => w32 (Z.sqrt (p * 2 ^ 64))) (first_primes 8 18).

(** Big-endian bytes of [x], [n] of them. *)
Fixpoint be_bytes (n : nat) (x : Z) : list Z :=
  match n with
  | O => []
  | S n' => Z.land (Z.shiftr x (8 * Z.of_nat n')) 255 :: be_bytes n' x
  end.

Definition pad (msg : list Z) : list Z :=
  let len := Z.of_nat (List.length msg) in
  let zeros := Z.to_nat ((55 - len) mod 64) in
  msg ++ [128] ++ repeat 0 zeros ++ be_bytes 8 (8 * len).

Fixpoint be_words (n : nat) (bytes : list Z) : list Z :=
  match n, bytes with
  | S n', b0 :: b1 :: b2 :: b3 :: rest =>
      (Z.shiftl b0 24 + Z.shiftl b1 16 + Z.shiftl b2 8 + b3) :: be_words n' rest
  | _, _ => []
  end.

(** The message schedule: [n] more words after the ones in [w]. *)
Fixpoint schedule (n : nat) (w : list Z) : list Z :=
  match n with
  | O => w
  | S n' =>
      let t := List.length w in
      let at_ (k : nat) := nth (t - k) w 0 in
      schedule n' (w ++ [add32 (add32 (sigma1 (at_ 2%nat)) (at_ 7%nat))
                               (add32 (sigma0 (at_ 15%nat)) (at_ 16%nat))])
  end.

Definition round (s : list Z) (kw : Z * Z) : list Z :=
  match s with
  | [a; b; c; d; e; f; g; h] =>
      let t1 := add32 (add32 (add32 h (Sigma1 e)) (add32 (Ch e f g) (fst kw))) (snd kw) in
      let t2 := add32 (Sigma0 a) (Maj a b c) in
      [add32 t1 t2; a; b; c; add32 d t1; e; f; g]
  | _ => s
  end.

Definition compress (h : list Z) (block : list Z) : list Z :=
  let w := schedule 48 (be_words 16 block) in
  let s := fold_left round (combine K w) h in
  map (fun p => add32 (fst p) (snd p)) (combine h s).

Fixpoint blocks (n : nat) (bytes : list Z) (h : list Z) : list Z :=
  match n with
  | O => h
  | S n' => blocks n' (skipn 64 bytes) (compress h (firstn 64 bytes))
  end.

Definition digest (msg : list Z) : list Z :=
  let p := pad msg in
  flat_map (be_bytes 4) (blocks (List.length p / 64) p H0).

Definition hex_digit (n : Z) : ascii :=
  ascii_of_nat (Z.to_nat (if n <? 10 then 48 + n else 87 + n)).

Fixpoint hex (bytes : list Z) : string :=
  match bytes with
  | [] => EmptyString
  | b :: rest => String (hex_digit (Z.shiftr b 4)) (String (hex_digit (Z.land b 15)) (hex rest))
  end.

Definition bytes_of (s : string) : list Z :=
  map (fun c => Z.of_nat (nat_of_ascii c)) (list_ascii_of_string s).

(** [hashlib.sha256(s.encode()).hexdigest()]. *)
Definition hexdigest (s : string) : string := hex (digest (bytes_of s)).

End Sha256.

(** ** store.py: DedupChecker *)

(** Characters are bytes, classified as Python classifies the code points
    below 128 (the model covers ASCII text; bytes from 128 on are neither
    word nor space characters and have no case). *)

(** [str.isspace] and the regular expression class [\s]. *)
Definition is_space (c : ascii) : bool :=
  let n := Z.of_nat (nat_of_ascii c) in
  ((9 <=? n) && (n <=? 13) || (28 <=? n) && (n <=? 32))%Z.

(** The regular expression class [\w]: letters, digits and the underscore. *)
Definition is_word (c : ascii) : bool :=
  let n := Z.of_nat (nat_of_ascii c) in
  ((48 <=? n) && (n <=? 57) || (65 <=? n) && (n <=? 90)
   || (n =? 95) || (97 <=? n) && (n <=? 122))%Z.

Definition lower_char (c : ascii) : ascii :=
  let n := nat_of_ascii c in
  if ((65 <=? n) && (n <=? 90))%nat then ascii_of_nat (n + 32) else c.

(** [s.lower()]. *)
Fixpoint str_lower (s : string) : string :=
  match s with
  | EmptyString => EmptyString
  | String c rest => String (lower_char c) (str_lower rest)
  end.

Fixpoint str_lstrip (s : string) : string :=
  match s with
  | EmptyString => EmptyString
  | String c rest => if is_space c then str_lstrip rest else s
  end.

Fixpoint str_rstrip (s : string) : string :=
  match s with
  | EmptyString => EmptyString
  | String c rest =>
      match str_rstrip rest with
      | EmptyString => if is_space c then EmptyString else String c EmptyString
      | rest' => String c rest'
      end
  end.

(** [s.strip()]. *)
Definition str_strip (s : string) : string := str_rstrip (str_lstrip s).

(** [re.sub(r'[^\w\s]', '', s)]: every character outside both classes is
    deleted. *)
Fixpoint re_sub_nonword_nonspace (s : string) : string :=
  match s with
  | EmptyString => EmptyString
  | String c rest =>
      if negb (is_word c || is_space c) then re_sub_nonword_nonspace rest
      else String c (re_sub_nonword_nonspace rest)
  end.

(** [s[:n]]. *)
Definition str_take (n : nat) (s : string) : string := String.substring 0 n s.

Module DedupChecker.

Definition EXACT_TTL : Z := 86400.
Definition NEAR_TTL : Z := 3600.

Definition fingerprint_text (event : NotificationEvent) : string :=
  event_type event ++ ":" ++ or_empty (title event) ++ ":" ++ or_empty (message event).

Definition _fingerprint (event : NotificationEvent) : string :=
  let text := fingerprint_text event in
  let normalized := re_sub_nonword_nonspace (str_strip (str_lower text)) in
  str_take 16 (Sha256.hexdigest normalized).

Definition check (event : NotificationEvent) : M (option string) :=
  let layer2 : M (option string) :=
    let fp := _fingerprint event in
    let key := "fingerprint:" ++ user_id event ++ ":" ++ fp in
    do set_ok <- InMemoryStore.set_nx key (id event) NEAR_TTL;
    if negb set_ok then
      ret (Some "Near-duplicate detected — very similar content sent in last 1h")
    else ret None in
  if truthy_str (dedupe_key event) then
    let key := "dedup:" ++ user_id event ++ ":" ++ or_empty (dedupe_key event) in
    do set_ok <- InMemoryStore.set_nx key (id event) EXACT_TTL;
    if negb set_ok then
      ret (Some ("Exact duplicate — dedupe_key '" ++ or_empty (dedupe_key event)
                 ++ "' already seen in last 24h"))
    else layer2
  else layer2.

End DedupChecker.

(** ** store.py: FrequencyChecker *)

(** [d.get(key, default)] on a dictionary literal. *)
Fixpoint dict_get {V : Type} (d : list (string * V)) (key : string) (default : V) : V :=
  match d with
  | [] => default
  | (k, v) :: rest => if String.eqb k key then v else dict_get rest key default
  end.

Record Cap : Type := mk_cap { cap_max : Z; cap_window : Z }.

Module FrequencyChecker.

Definition default_cap : Cap := mk_cap 8 3600.

Definition CAPS : list (string * Cap) :=
  [ ("promotion", mk_cap 2 3600);
    ("update", mk_cap 5 3600);
    ("reminder", mk_cap 3 3600);
    ("message", mk_cap 20 3600);
    ("system_event", mk_cap 10 3600);
    ("alert", mk_cap 10 3600);
    ("default", default_cap) ].

Definition DAILY_CHANNEL_CAPS : list (string * Z) :=
  [ ("push", 20); ("sms", 5); ("email", 10); ("in_app", 50) ].

Definition check_frequency (event : NotificationEvent) : M (option string) :=
  let cap := dict_get CAPS (event_type event) default_cap in
  let key := "freq:" ++ user_id event ++ ":" ++ event_type event in
  do count <- InMemoryStore.incr key (cap_window cap);
  if (cap_max cap <? count)%Z then
    ret (Some ("Frequency cap exceeded (" ++ str_of_int count ++ "/" ++ str_of_int (cap_max cap)
               ++ " '" ++ event_type event ++ "' events in last hour)"))
  else ret None.

Definition check_daily_cap `{Platform} (event : NotificationEvent) : M (option string) :=
  let cap := dict_get DAILY_CHANNEL_CAPS (channel event) 20 in
  do now <- time_time;
  let today := date_isoformat now in
  let key := "daily_cap:" ++ user_id event ++ ":" ++ channel event ++ ":" ++ today in
  do count <- InMemoryStore.incr key 86400;
  if (cap <? count)%Z then
    ret (Some ("Daily " ++ channel event ++ " cap reached (" ++ str_of_int count ++ "/"
               ++ str_of_int cap ++ ")"))
  else ret None.

End FrequencyChecker.

(** ** rules.py *)

Definition DEFAULT_RULES : list Rule :=
  [ mk_rule "always_send_security_alerts" 100
      [ mk_cond "event_type" "eq" (PStr "security_alert") ]
      "NOW" "Security alerts always sent immediately";
    mk_rule "always_send_critical" 99
      [ mk_cond "priority_hint" "eq" (PStr "critical") ]
      "NOW" "Critical priority always sent immediately";
    mk_rule "suppress_promos_low_priority" 50
      [ mk_cond "event_type" "eq" (PStr "promotion");
        mk_cond "priority_hint" "in" (PList [PStr "low"; PNone]) ]
      "NEVER" "Low-priority promotions suppressed to reduce noise";
    mk_rule "defer_updates_to_digest" 40
      [ mk_cond "event_type" "eq" (PStr "update") ]
      "LATER" "Updates batched into daily digest" ].

Definition opt_val (o : option string) : pyval :=
  match o with
  | Some s => PStr s
  | None => PNone
  end.

Module RulesEngine.

(** [getattr(event, field, event.metadata.get(field))]: the dataclass
    fields and the method [is_expired] are attributes, and so are the names
    the runtime gives every instance; only a name that is none of these is
    looked up in the metadata. *)
Definition _get_field `{Platform} (field : string) (event : NotificationEvent) : pyval :=
  if String.eqb field "user_id" then PStr (user_id event)
  else if String.eqb field "event_type" then PStr (event_type event)
  else if String.eqb field "channel" then PStr (channel event)
  else if String.eqb field "title" then opt_val (title event)
  else if String.eqb field "message" then opt_val (message event)
  else if String.eqb field "source" then opt_val (source event)
  else if String.eqb field "priority_hint" then opt_val (priority_hint event)
  else if String.eqb field "timestamp" then opt_val (timestamp event)
  else if String.eqb field "expires_at" then opt_val (expires_at event)
  else if String.eqb field "dedupe_key" then opt_val (dedupe_key event)
  else if String.eqb field "metadata" then PObj
  else if String.eqb field "id" then PStr (id event)
  else if String.eqb field "is_expired" then PObj
  else
    match instance_attribute field with
    | Some v => v
    | None => default PNone (metadata event !! field)
    end.

(** [actual in expected]: membership in a list, substring of a string; a
    [TypeError] for any other operand. *)
Definition py_in (actual expected : pyval) : Result bool :=
  match expected with
  | PList l => Ok (existsb (py_eq actual) l)
  | PStr hay =>
      match actual with
      | PStr needle => Ok (str_contains needle hay)
      | _ => Raise (TypeError "'in <string>' requires string as left operand")
      end
  | _ => Raise (TypeError "argument is not iterable")
  end.

Fixpoint _matches `{Platform} (conditions : list Condition) (event : NotificationEvent)
  : Result bool :=
  match conditions with
  | [] => Ok true
  | cond :: rest =>
      let field := c_field cond in
      let op := c_op cond in
      let expected := c_value cond in
      let actual := _get_field field event in
      if String.eqb op "eq" && negb (py_eq actual expected) then Ok false
      else if String.eqb op "in" then
        match py_in actual expected with
        | Ok true => _matches rest event
        | Ok false => Ok false
        | Raise e => Raise e
        end
      else if String.eqb op "neq" && py_eq actual expected then Ok false
      else _matches rest event
  end.

Fixpoint evaluate_rules `{Platform} (rules : list Rule) (event : NotificationEvent)
  : Result (option (string * string * string)) :=
  match rules with
  | [] => Ok None
  | rule :: rest =>
      match _matches (r_conditions rule) event with
      | Ok true => Ok (Some (r_action rule, r_reason rule, r_name rule))
      | Ok false => evaluate_rules rest event
      | Raise e => Raise e
      end
  end.

Definition evaluate `{Platform} (event : NotificationEvent)
  : M (option (string * string * string)) :=
  do w <- get_world;
  match evaluate_rules (w_rules w) event with
  | Ok r => ret r
  | Raise e => raise e
  end.

(** [rules.sort(key=lambda r: r.get("priority", 0), reverse=True)], with
    [r_priority] the key the lambda computes.  The sort is stable, also when
    reversed: rules of equal priority keep their order, which determines the
    result.  Here each rule, from the last to the first, is put in front of
    the first rule whose priority is not larger than its own. *)
Fixpoint insert_by_priority (rule : Rule) (sorted : list Rule) : list Rule :=
  match sorted with
  | [] => [rule]
  | r :: rest =>
      if (r_priority r <=? r_priority rule)%Z then rule :: sorted
      else r :: insert_by_priority rule rest
  end.

Definition sort_by_priority (rules : list Rule) : list Rule :=
  fold_right insert_by_priority [] rules.

(** [RulesEngine(rules_file)]: [loaded] is what [json.load] reads from the
    file, the empty list when there is no file. *)
Definition init (loaded : list Rule) : list Rule :=
  sort_by_priority (DEFAULT_RULES ++ loaded).

Definition add_rule (rule : Rule) : M Rule :=
  modify (set_rules (fun rules => sort_by_priority (rules ++ [rule]))) ;;
  ret rule.

End RulesEngine.

(** ** Floating point: the built-ins [min], [max], [round] and [format] *)

Definition py_min (a b : float) : float := if PrimFloat.ltb b a then b else a.
Definition py_max (a b : float) : float := if PrimFloat.ltb a b then b else a.

(** [float(n)], also where Python converts an integer operand of a float
    operation: the float nearest to [n], ties to even.  Where that float
    would be infinite (from 2^1024 - 2^970 on in magnitude) Python raises an
    [OverflowError] instead: [converts] tells the integers it converts.  The
    counts the engine passes to the scorers are counters of the store, which
    grow by one with each event counted; the statements about a scorer
    called on its own, with any count, assume [converts]. *)
Definition float_of_int (n : Z) : float :=
  SF2Prim (binary_normalize prec emax n 0 false).

Definition converts (n : Z) : bool := negb (PrimFloat.is_infinity (float_of_int n)).

(** The integer nearest to [num / den] for [den > 0], ties to even. *)
Definition div_half_even (num den : Z) : Z :=
  let q := (num / den)%Z in
  let r := (num mod den)%Z in
  match (2 * r ?= den)%Z with
  | Lt => q
  | Gt => (q + 1)%Z
  | Eq => if Z.even q then q else (q + 1)%Z
  end.

(** The integer nearest to [|x| * 10^digits] (ties to even) and the sign of
    [x], computed on the exact value of [x]; [None] for an infinity or NaN. *)
Definition decimal_round (x : float) (digits : Z) : option (bool * Z) :=
  match Prim2SF x with
  | S754_zero s => Some (s, 0%Z)
  | S754_finite s m e =>
      let num := (Z.pos m * 10 ^ digits)%Z in
      Some (s, if (0 <=? e)%Z then (num * 2 ^ e)%Z else div_half_even num (2 ^ (- e)))
  | _ => None
  end.

(** [round(x, 3)]: the decimal with three places nearest to [x], converted
    back to a float; a float of magnitude 2^53 or more is an integer and is
    returned as it is. *)
Definition round3 (x : float) : float :=
  if PrimFloat.leb 9007199254740992 (PrimFloat.abs x) then x
  else
    match decimal_round x 3 with
    | Some (s, n) =>
        let r := PrimFloat.div (float_of_int n) 1000 in
        if s then PrimFloat.opp r else r
    | None => x
    end.

(** [round(x, 1)], in the same way. *)
Definition round1 (x : float) : float :=
  if PrimFloat.leb 9007199254740992 (PrimFloat.abs x) then x
  else
    match decimal_round x 1 with
    | Some (s, n) =>
        let r := PrimFloat.div (float_of_int n) 10 in
        if s then PrimFloat.opp r else r
    | None => x
    end.

(** [f"{x:.2f}"]. *)
Definition format_2f (x : float) : string :=
  match decimal_round x 2 with
  | Some (s, n) =>
      let frac := (n mod 100)%Z in
      (if s then "-" else "") ++ str_of_int (n / 100) ++ "."
        ++ (if (frac <? 10)%Z then "0" else "") ++ str_of_int frac
  | None =>
      if PrimFloat.is_nan x then "nan"
      else if PrimFloat.ltb x 0 then "-inf" else "inf"
  end.

(** ** scorer.py: CircuitBreaker *)

Module CircuitBreaker.

(** [CircuitBreaker(failure_threshold, reset_timeout)]. *)
Definition init (threshold timeout : Z) : CircuitBreaker :=
  mk_breaker 0 CLOSED None threshold timeout.

Definition set_state (s : BreakerState) (cb : CircuitBreaker) : CircuitBreaker :=
  mk_breaker (failures cb) s (last_failure_time cb) (failure_threshold cb) (reset_timeout cb).

(** [time.time() - self.last_failure_time] raises a [TypeError] while
    [last_failure_time] is [None]. *)
Definition can_attempt : M bool :=
  do w <- get_world;
  let cb := w_breaker w in
  match state cb with
  | OPEN =>
      do now <- time_time;
      match last_failure_time cb with
      | None => raise (TypeError "unsupported operand type(s) for -: 'float' and 'NoneType'")
      | Some last =>
          if (seconds (reset_timeout cb) <? now - last)%Z then
            modify (set_breaker (set_state HALF_OPEN)) ;;
            ret true
          else ret false
      end
  | _ => ret true
  end.

Definition record_success : M unit :=
  modify (set_breaker (fun cb =>
    mk_breaker 0 CLOSED (last_failure_time cb) (failure_threshold cb) (reset_timeout cb))).

Definition record_failure : M unit :=
  do now <- time_time;
  modify (set_breaker (fun cb =>
    let failures' := (failures cb + 1)%Z in
    mk_breaker failures'
               (if (failure_threshold cb <=? failures')%Z then OPEN else state cb)
               (Some now) (failure_threshold cb) (reset_timeout cb))).

Definition status : M BreakerState :=
  do w <- get_world; ret (state (w_breaker w)).

End CircuitBreaker.

(** ** scorer.py: DeterministicScorer *)

(** The instant a [datetime] denotes (for a naive one, its wall-clock value). *)
Definition instant (d : datetime) : Z := (wall d - default 0 (tzinfo d))%Z.

(** [datetime.now(tz)]: an aware reading for a time zone, the host's local
    time without one. *)
Definition datetime_now `{Platform} (tz : option Z) : M datetime :=
  do now <- time_time;
  match tz with
  | Some off => ret (mk_datetime (now + off) (Some off))
  | None => ret (mk_datetime (localtime now) None)
  end.

(** [(a - b).total_seconds() / 60 < m] for a small integer [m]: the
    difference is a whole number of microseconds, and the two divisions are
    exact enough that the comparison is the one on integers. *)
Definition minutes_between_lt (a b : datetime) (m : Z) : bool :=
  (instant a - instant b <? m * 60000000)%Z.

(** [s.replace("Z", "+00:00")]. *)
Fixpoint replace_Z (s : string) : string :=
  match s with
  | EmptyString => EmptyString
  | String c rest =>
      if Ascii.eqb c "Z"%char then "+00:00" ++ replace_Z rest
      else String c (replace_Z rest)
  end.

(** [x in ("critical", "high")]. *)
Definition is_urgent (hint : option string) : bool :=
  match hint with
  | Some h => String.eqb h "critical" || String.eqb h "high"
  | None => false
  end.

Module DeterministicScorer.

Local Open Scope float_scope.

Definition PRIORITY_SCORES : list (string * float) :=
  [ ("critical", 0.95); ("high", 0.78); ("medium", 0.52); ("low", 0.22) ].

Definition CHANNEL_WEIGHTS : list (string * float) :=
  [ ("push", 1.0); ("sms", 0.9); ("email", 0.7); ("in_app", 0.5) ].

(** The urgency boost of an event about to expire; the clock is read only
    when [expires_at] is set and parses. *)
Definition expiry_boost `{Platform} (event : NotificationEvent) (base : float) : M float :=
  if truthy_str (expires_at event) then
    match fromisoformat (replace_Z (or_empty (expires_at event))) with
    | Some exp =>
        do now <- datetime_now (tzinfo exp);
        if minutes_between_lt exp now 10 then ret (base + 0.30)
        else if minutes_between_lt exp now 60 then ret (base + 0.10)
        else ret base
    | None => ret base
    end
  else ret base.

Definition score `{Platform} (event : NotificationEvent) (recent_count : Z)
           (is_quiet_hours : pyval) : M ScoreResult :=
  let base :=
    match priority_hint event with
    | Some h => dict_get PRIORITY_SCORES h 0.40
    | None => 0.40
    end in
  let recency_penalty := py_min (float_of_int recent_count * 0.08) 0.25 in
  let base := base - recency_penalty in
  do base <- expiry_boost event base;
  let base := if py_truthy is_quiet_hours then base - 0.20 else base in
  let base := base * dict_get CHANNEL_WEIGHTS (channel event) 0.7 in
  let score := round3 (py_max 0.0 (py_min 1.0 base)) in
  let '(action, reason) :=
    if 0.75 <=? score then
      ("NOW", "Score " ++ format_2f score ++ " — high priority, sending immediately")
    else if 0.35 <=? score then
      ("LATER", "Score " ++ format_2f score ++ " — medium priority, deferred")
    else
      ("NEVER", "Score " ++ format_2f score ++ " — low value, suppressed") in
  ret (mk_score score action reason false true).

End DeterministicScorer.

(** ** scorer.py: AIScorer *)

Module AIScorer.

Local Open Scope float_scope.

Definition type_scores : list (string * float) :=
  [ ("message", 0.70); ("security_alert", 0.95); ("alert", 0.85);
    ("reminder", 0.55); ("update", 0.40); ("promotion", 0.20); ("system_event", 0.60) ].

Definition hint_is (event : NotificationEvent) (h : string) : bool :=
  match priority_hint event with
  | Some x => String.eqb x h
  | None => false
  end.

(** The simulated model call; nothing in it raises, the conversion of a
    count too large for a float apart (see [float_of_int]). *)
Definition _call_ai (event : NotificationEvent) (recent_count : Z)
           (is_quiet_hours : pyval) : M ScoreResult :=
  let score := dict_get type_scores (event_type event) 0.50 in
  let reasons := ["event_type='" ++ event_type event ++ "'"]%string in
  let '(score, reasons) :=
    if hint_is event "critical" then
      (py_max score 0.93, (reasons ++ ["critical priority"%string])%list)
    else if hint_is event "high" then (py_max score 0.78, reasons)
    else if hint_is event "low" then (py_min score 0.35, reasons)
    else (score, reasons) in
  let '(score, reasons) :=
    if (3 <? recent_count)%Z then
      (score - 0.12 * float_of_int (recent_count - 3),
       (reasons ++ [str_of_int recent_count ++ " recent similar events"]%string)%list)
    else (score, reasons) in
  let '(score, reasons) :=
    if py_truthy is_quiet_hours && negb (is_urgent (priority_hint event)) then
      (score - 0.18, (reasons ++ ["quiet hours"%string])%list)
    else (score, reasons) in
  let score := round3 (py_max 0.0 (py_min 1.0 score)) in
  let action :=
    if 0.75 <=? score then "NOW" else if 0.35 <=? score then "LATER" else "NEVER" in
  ret (mk_score score action
                ("[AI] Score " ++ format_2f score ++ ": " ++ str_join ", " reasons)
                true false).

Definition _fallback `{Platform} (event : NotificationEvent) (recent_count : Z)
           (is_quiet_hours : pyval) (reason : string) : M ScoreResult :=
  do result <- DeterministicScorer.score event recent_count is_quiet_hours;
  ret (mk_score (sr_score result) (sr_action result)
                ("[FALLBACK] " ++ reason ++ " — " ++ sr_reason result)
                (sr_ai_used result) (sr_fallback_mode result)).

Definition score `{Platform} (event : NotificationEvent) (recent_count : Z)
           (is_quiet_hours : pyval) : M ScoreResult :=
  do can <- CircuitBreaker.can_attempt;
  do w <- get_world;
  if negb can || negb (w_AI_AVAILABLE w) then
    _fallback event recent_count is_quiet_hours "AI circuit breaker OPEN"
  else
    try_except
      (do result <- _call_ai event recent_count is_quiet_hours;
       CircuitBreaker.record_success ;;
       ret result)
      (fun e =>
         CircuitBreaker.record_failure ;;
         _fallback event recent_count is_quiet_hours (exn_str e)).

End AIScorer.

(** ** audit.py *)

(** [l[start:]] for a Python list. *)
Definition py_slice_from {A : Type} (start : Z) (l : list A) : list A :=
  let n := Z.of_nat (List.length l) in
  let i := if (start <? 0)%Z then Z.max (n + start) 0 else Z.min start n in
  skipn (Z.to_nat i) l.

Module AuditLog.

Definition record (decision : Decision) : M unit :=
  modify (set_log (fun l => (l ++ [decision])%list)).

Definition get_user_history (user : string) (act : option string) (limit : Z)
  : M (list Decision) :=
  do w <- get_world;
  let results := List.filter (fun d => String.eqb (d_user_id d) user) (w_log w) in
  let results :=
    if truthy_str act then List.filter (fun d => String.eqb (action d) (or_empty act)) results
    else results in
  ret (py_slice_from (- limit) results).

Definition get_all : M (list Decision) :=
  do w <- get_world; ret (w_log w).

(** The dictionary [stats] returns. *)
Record Stats : Type := mk_stats {
  total_evaluated : Z;
  by_action : list (string * Z);
  suppression_rate : float;
  deferred_rate : float
}.

(** [d[key] = v] on a dictionary kept in insertion order. *)
Fixpoint dict_set {V : Type} (d : list (string * V)) (key : string) (v : V)
  : list (string * V) :=
  match d with
  | [] => [(key, v)]
  | (k, x) :: rest =>
      if String.eqb k key then (k, v) :: rest else (k, x) :: dict_set rest key v
  end.

(** The loop of [stats]: one more for the action of each decision. *)
Definition tally (log : list Decision) : list (string * Z) :=
  fold_left (fun by_action d =>
               dict_set by_action (action d) (dict_get by_action (action d) 0 + 1)%Z)
            log [("NOW", 0%Z); ("LATER", 0%Z); ("NEVER", 0%Z)].

(** [by_action[key] / max(total, 1) * 100], rounded to one place.  The keys
    read are in the dictionary from the start, so the lookup cannot fail;
    the two integers are lengths of lists, far below 2^53, so the quotient
    of the floats is the true division of the integers. *)
Definition rate (by_action : list (string * Z)) (key : string) (total : Z) : float :=
  round1 (PrimFloat.mul
            (PrimFloat.div (float_of_int (dict_get by_action key 0%Z))
                           (float_of_int (Z.max total 1)))
            100).

Definition stats : M Stats :=
  do w <- get_world;
  let total := Z.of_nat (List.length (w_log w)) in
  let by_action := tally (w_log w) in
  ret (mk_stats total by_action (rate by_action "NEVER" total)
                (rate by_action "LATER" total)).

End AuditLog.

(** ** models.py: NotificationEvent.is_expired *)

Definition is_expired `{Platform} (event : NotificationEvent) : M bool :=
  if negb (truthy_str (expires_at event)) then ret false
  else
    match fromisoformat (replace_Z (or_empty (expires_at event))) with
    | Some exp =>
        do now <- datetime_now (tzinfo exp);
        ret (instant exp <? instant now)%Z
    | None => ret false
    end.

(** ** prioritizer.py *)

Module PrioritizationEngine.

Local Open Scope float_scope.

Definition _decide `{Platform} (event : NotificationEvent) (action : string) (score : float)
           (reason : string) (rule_matched : option string) (ai_used fallback_mode : bool)
  : M Decision :=
  let '(action, reason, score) :=
    if String.eqb action "NEVER" && is_urgent (priority_hint event) then
      ("NOW",
       "[SAFETY NET] High-priority event cannot be suppressed. Original: " ++ reason,
       0.9)
    else (action, reason, score) in
  do stamp <- datetime_now None;
  let decision :=
    mk_decision (id event) (user_id event) action score reason rule_matched
                ai_used fallback_mode (wall stamp) None in
  AuditLog.record decision ;;
  ret decision.

(** Steps 5 and 6 of [evaluate]: the scorer, then the merge with a LATER
    rule; [rule_result] is what the rules engine returned. *)
Definition score_and_merge `{Platform} (event : NotificationEvent)
           (rule_result : option (string * string * string)) : M Decision :=
  let is_high_priority := is_urgent (priority_hint event) in
  (* STEP 5: scoring *)
  do recent_count <- InMemoryStore.get_count ("freq:" ++ user_id event ++ ":" ++ event_type event);
  let is_quiet := default (PBool false) (metadata event !! "quiet_hours") in
  do score_result <- AIScorer.score event recent_count is_quiet;
  let ai_used := sr_ai_used score_result in
  let fallback := sr_fallback_mode score_result in
  (* STEP 6: a LATER rule overrides a NOW from the scorer *)
  let '(final_action, final_reason) :=
    match rule_result with
    | Some (rule_action, rule_reason, _) =>
        if String.eqb rule_action "LATER" && String.eqb (sr_action score_result) "NOW"
           && negb is_high_priority
        then ("LATER", rule_reason ++ " (overrides AI NOW suggestion)")
        else (sr_action score_result, sr_reason score_result)
    | None => (sr_action score_result, sr_reason score_result)
    end in
  _decide event final_action (sr_score score_result) final_reason
          (match rule_result with Some (_, _, rule_name) => Some rule_name | None => None end)
          ai_used fallback.

(** Steps 4 to 6 of [evaluate], reached when no rule has settled the
    decision. *)
Definition after_rules `{Platform} (event : NotificationEvent)
           (rule_result : option (string * string * string)) : M Decision :=
  (* STEP 4: fatigue and frequency checks *)
  do freq_reason <- FrequencyChecker.check_frequency event;
  do daily_reason <- FrequencyChecker.check_daily_cap event;
  let is_high_priority := is_urgent (priority_hint event) in
  if truthy_str freq_reason && negb is_high_priority then
    if String.eqb (event_type event) "promotion" || String.eqb (event_type event) "system_event"
    then _decide event "NEVER" 0.1 (or_empty freq_reason) (Some "frequency_cap") false false
    else _decide event "LATER" 0.3 (or_empty freq_reason ++ " — batched to digest")
                 (Some "frequency_cap") false false
  else if truthy_str daily_reason && negb is_high_priority then
    _decide event "LATER" 0.3 (or_empty daily_reason ++ " — batched to digest")
            (Some "daily_cap") false false
  else score_and_merge event rule_result.

Definition evaluate `{Platform} (event : NotificationEvent) : M Decision :=
  (* STEP 1: expiry check *)
  do expired <- is_expired event;
  if expired then
    _decide event "NEVER" 0.0 "Event expired before processing" None false false
  else
  (* STEP 2: duplicate check *)
  do dedup_reason <- DedupChecker.check event;
  if truthy_str dedup_reason then
    _decide event "NEVER" 0.0 (or_empty dedup_reason) (Some "dedup_check") false false
  else
  (* STEP 3: hard rules *)
  do rule_result <- RulesEngine.evaluate event;
  match rule_result with
  | Some (rule_action, rule_reason, rule_name) =>
      if String.eqb rule_action "NOW" then
        _decide event "NOW" 1.0 rule_reason (Some rule_name) false false
      else if String.eqb rule_action "NEVER" then
        _decide event "NEVER" 0.0 rule_reason (Some rule_name) false false
      else after_rules event rule_result
  | None => after_rules event rule_result
  end.

(** A fresh engine: empty store and audit log, the default rules, a closed
    breaker with the default threshold 5 and time-out 30 s. *)
Definition init (clock : nat -> Z) : World :=
  mk_world ∅ ∅ DEFAULT_RULES (CircuitBreaker.init 5 30) true [] clock 0.

End PrioritizationEngine.

(** ** A concrete platform

    A host whose local time is UTC, with the parser restricted to the
    strings [YYYY-MM-DDTHH:MM:SS], optionally followed by [+HH:MM] or
    [-HH:MM].  On these it agrees with [datetime.fromisoformat]; it rejects
    every other string, some of which Python accepts: the examples below use
    none of those. *)

Module UtcHost.

Local Open Scope Z_scope.

(** Days from 1970-01-01 to the given date of the proleptic Gregorian
    calendar. *)
Definition days_from_civil (y m d : Z) : Z :=
  let y := if m <=? 2 then y - 1 else y in
  let era := y / 400 in
  let yoe := y - era * 400 in
  let doy := (153 * (if 2 <? m then m - 3 else m + 9) + 2) / 5 + d - 1 in
  let doe := yoe * 365 + yoe / 4 - yoe / 100 + doy in
  era * 146097 + doe - 719468.

Definition civil_from_days (z : Z) : Z * Z * Z :=
  let z := z + 719468 in
  let era := z / 146097 in
  let doe := z - era * 146097 in
  let yoe := (doe - doe / 1460 + doe / 36524 - doe / 146096) / 365 in
  let doy := doe - (365 * yoe + yoe / 4 - yoe / 100) in
  let mp := (5 * doy + 2) / 153 in
  let d := doy - (153 * mp + 2) / 5 + 1 in
  let m := if mp <? 10 then mp + 3 else mp - 9 in
  (yoe + era * 400 + (if m <=? 2 then 1 else 0), m, d).

Definition digit (c : ascii) : option Z :=
  let n := Z.of_nat (nat_of_ascii c) in
  if (48 <=? n) && (n <=? 57) then Some (n - 48) else None.

Fixpoint number (cs : list ascii) (acc : Z) : option Z :=
  match cs with
  | [] => Some acc
  | c :: rest =>
      match digit c with
      | Some d => number rest (10 * acc + d)
      | None => None
      end
  end.

Definition days_in_month (y m : Z) : Z :=
  days_from_civil (if m =? 12 then y + 1 else y) (if m =? 12 then 1 else m + 1) 1
  - days_from_civil y m 1.

Definition parse_offset (cs : list ascii) : option (option Z) :=
  match cs with
  | [] => Some None
  | [sg; h1; h2; c; m1; m2] =>
      match number [h1; h2] 0, number [m1; m2] 0 with
      | Some h, Some m =>
          if Ascii.eqb c ":" && (h <? 24) && (m <? 60) then
            if Ascii.eqb sg "+" then Some (Some (seconds (h * 3600 + m * 60)))
            else if Ascii.eqb sg "-" then Some (Some (- seconds (h * 3600 + m * 60)))
            else None
          else None
      | _, _ => None
      end
  | _ => None
  end.

Definition parse (s : string) : option datetime :=
  match list_ascii_of_string s with
  | y1 :: y2 :: y3 :: y4 :: d1 :: mo1 :: mo2 :: d2 :: da1 :: da2 :: t
      :: h1 :: h2 :: c1 :: mi1 :: mi2 :: c2 :: s1 :: s2 :: rest =>
      match number [y1; y2; y3; y4] 0, number [mo1; mo2] 0, number [da1; da2] 0,
            number [h1; h2] 0, number [mi1; mi2] 0, number [s1; s2] 0,
            parse_offset rest with
      | Some y, Some mo, Some da, Some h, Some mi, Some sec, Some off =>
          if Ascii.eqb d1 "-" && Ascii.eqb d2 "-" && Ascii.eqb t "T"
             && Ascii.eqb c1 ":" && Ascii.eqb c2 ":"
             && (1 <=? y) && (1 <=? mo) && (mo <=? 12)
             && (1 <=? da) && (da <=? days_in_month y mo)
             && (h <? 24) && (mi <? 60) && (sec <? 60)
          then Some (mk_datetime
                       (seconds (days_from_civil y mo da * 86400 + h * 3600 + mi * 60 + sec))
                       off)
          else None
      | _, _, _, _, _, _, _ => None
      end
  | _ => None
  end.

Definition pad2 (n : Z) : string :=
  ((if (n <? 10)%Z then "0" else "") ++ str_of_int n)%string.

Definition pad4 (n : Z) : string :=
  ((if (n <? 10)%Z then "000" else if (n <? 100)%Z then "00"
    else if (n <? 1000)%Z then "0" else "") ++ str_of_int n)%string.

(** [date.isoformat()] of the UTC date of an instant. *)
Definition isoformat_date (t : Z) : string :=
  let '(y, m, d) := civil_from_days (t / seconds 86400) in
  (pad4 y ++ "-" ++ pad2 m ++ "-" ++ pad2 d)%string.

(** The attributes of an instance of [NotificationEvent] under CPython
    3.11, as values of the model: the generated [__doc__] and [__module__]
    are strings, [__hash__] and [__weakref__] are [None], the others are
    objects of the runtime. *)
Definition attribute (name : string) : option pyval :=
  if String.eqb name "__doc__" then
    Some (PStr ("NotificationEvent(user_id: str, event_type: str, channel: str, "
                ++ "title: Optional[str] = None, message: Optional[str] = None, "
                ++ "source: Optional[str] = None, priority_hint: Optional[str] = None, "
                ++ "timestamp: Optional[str] = None, expires_at: Optional[str] = None, "
                ++ "dedupe_key: Optional[str] = None, "
                ++ "metadata: Dict[str, Any] = <factory>, id: str = <factory>)"))
  else if String.eqb name "__module__" then Some (PStr "engine.models")
  else if String.eqb name "__hash__" || String.eqb name "__weakref__" then Some PNone
  else if existsb (String.eqb name)
            [ "__annotations__"; "__class__"; "__dataclass_fields__";
              "__dataclass_params__"; "__delattr__"; "__dict__"; "__dir__"; "__eq__";
              "__format__"; "__ge__"; "__getattribute__"; "__getstate__"; "__gt__";
              "__init__"; "__init_subclass__"; "__le__"; "__lt__"; "__match_args__";
              "__ne__"; "__new__"; "__reduce__"; "__reduce_ex__"; "__repr__";
              "__setattr__"; "__sizeof__"; "__str__"; "__subclasshook__" ]
  then Some PObj
  else None.

Definition platform : Platform :=
  {| fromisoformat := parse; localtime := fun t => t; date_isoformat := isoformat_date;
     instance_attribute := attribute |}.

End UtcHost.

(** * Vocabulary of the statements *)

(** The reading the next call of [time.time()] returns, and the ones after. *)
Definition now (w : World) : Z := w_clock w (w_ticks w).
Definition now_after (n : nat) (w : World) : Z := w_clock w (n + w_ticks w)%nat.

(** The decisions that [get_user_history user act] selects. *)
Definition selected (user : string) (act : option string) (d : Decision) : bool :=
  String.eqb (d_user_id d) user
  && (negb (truthy_str act) || String.eqb (action d) (or_empty act)).

(** [n] consecutive calls of [record_failure]. *)
Fixpoint fail_n (n : nat) : M unit :=
  match n with
  | O => ret tt
  | S n' => CircuitBreaker.record_failure ;; fail_n n'
  end.

(** The worlds whose breaker was built by the constructor and used through
    its three methods only; anything that leaves the breaker alone (time
    passing, the rest of the engine) may happen in between. *)
Inductive breaker_reachable : World -> Prop :=
| reach_init w threshold timeout :
    w_breaker w = CircuitBreaker.init threshold timeout -> breaker_reachable w
| reach_frame w w' :
    breaker_reachable w -> w_breaker w' = w_breaker w -> breaker_reachable w'
| reach_can_attempt w r w' :
    breaker_reachable w -> CircuitBreaker.can_attempt w = (r, w') -> breaker_reachable w'
| reach_record_success w r w' :
    breaker_reachable w -> CircuitBreaker.record_success w = (r, w') -> breaker_reachable w'
| reach_record_failure w r w' :
    breaker_reachable w -> CircuitBreaker.record_failure w = (r, w') -> breaker_reachable w'.

(** What every reachable breaker satisfies. *)
Definition breaker_inv (cb : CircuitBreaker) : Prop :=
  0 <= failures cb
  /\ (state cb <> CLOSED ->
      failure_threshold cb <= failures cb /\ last_failure_time cb <> None).

(** *** The fingerprint as the specification words it *)

(** The specification's words, read on the text as a list of characters:
    the text is lowercased, whitespace is trimmed from both ends, every
    character that is neither alphanumeric nor whitespace is stripped, the
    result is hashed with SHA-256 and the first 16 hexadecimal characters
    are kept.  Nothing here is taken from the definitions that follow
    [store.py], the hash apart, which is the standard's. *)














(** The text is ASCII: the range on which the character classes and the
    case of the model are Python's. *)
Definition ascii_only (s : string) : bool :=
  forallb (fun c => (nat_of_ascii c <? 128)%nat) (list_ascii_of_string s).


(** *** Concrete worlds and events *)

(** A clock that starts on 2026-11-03 at 18:54:07 UTC and advances by one
    millisecond at every reading. *)
Definition demo_clock (n : nat) : Z := 1793732047000000 + Z.of_nat n * 1000.

(** A clock that shows the same instant at every reading. *)
Definition frozen_clock (t : Z) (n : nat) : Z := t.

(** An event with the given addressing, priority and content and nothing
    else set. *)
Definition plain_event (user type chan : string) (hint : option string)
           (headline : option string) : NotificationEvent :=
  mk_event user type chan headline None None hint None None None ∅ "evt-0001".

Definition with_expires_at (e : NotificationEvent) (exp : string) : NotificationEvent :=
  mk_event (user_id e) (event_type e) (channel e) (title e) (message e) (source e)
           (priority_hint e) (timestamp e) (Some exp) (dedupe_key e) (metadata e) (id e).

Definition with_dedupe_key (e : NotificationEvent) (k : string) : NotificationEvent :=
  mk_event (user_id e) (event_type e) (channel e) (title e) (message e) (source e)
           (priority_hint e) (timestamp e) (expires_at e) (Some k) (metadata e) (id e).

(** The expiry the scorers and [is_expired] see: [expires_at] when it is set,
    non-empty and parses. *)
Definition parsed_expiry `{Platform} (event : NotificationEvent) : option datetime :=
  if truthy_str (expires_at event)
  then fromisoformat (replace_Z (or_empty (expires_at event)))
  else None.

(** A fresh engine on the concrete platform whose clock stands still at [t]. *)
Definition frozen_world (t : Z) : World := PrioritizationEngine.init (frozen_clock t).

(** *** Frames: what a computation leaves alone *)

(** The parts of the world a statement may speak of. *)
Inductive aspect : Type :=
| the_rules
| the_flag
| the_clock
| the_breaker
| the_log
| store_at (key : string)
| counter_at (key : string).

(** [w'] comes after [w] and agrees with it on the given part; the clock
    itself never changes, and the number of readings only grows. *)
Definition keeps (a : aspect) (w w' : World) : Prop :=
  match a with
  | the_rules => w_rules w' = w_rules w
  | the_flag => w_AI_AVAILABLE w' = w_AI_AVAILABLE w
  | the_clock => w_clock w' = w_clock w /\ (w_ticks w <= w_ticks w')%nat
  | the_breaker => w_breaker w' = w_breaker w
  | the_log => w_log w' = w_log w
  | store_at k => w_store w' !! k = w_store w !! k
  | counter_at k => w_counters w' !! k = w_counters w !! k
  end.

(** Every run of [c], whether it returns or raises, relates the worlds
    before and after by [R]. *)
Definition respects {A : Type} (R : World -> World -> Prop) (c : M A) : Prop :=
  forall w r w', c w = (r, w') -> R w w'.

(** The clock never runs backwards. *)
Definition clock_monotone (w : World) : Prop :=
  forall n m : nat, (n <= m)%nat -> w_clock w n <= w_clock w m.

(** The rules never raise on the event, and an open breaker has a time of
    last failure: what [evaluate] needs in order to return. *)
Definition rules_ok `{Platform} (w : World) (event : NotificationEvent) : Prop :=
  exists r, RulesEngine.evaluate_rules (w_rules w) event = Ok r.

Definition breaker_ok (w : World) : Prop :=
  state (w_breaker w) = OPEN -> last_failure_time (w_breaker w) <> None.

(** [c] returns (it does not raise) from every world. *)
Definition returns {A : Type} (c : M A) : Prop :=
  forall w, exists x w', c w = (Ok x, w').

(** The decision [_decide] assembles at the local time [t]. *)
Definition decided (event : NotificationEvent) (act : string) (s : float) (r : string)
           (rm : option string) (ai fb : bool) (t : Z) : Decision :=
  mk_decision (id event) (user_id event) act s r rm ai fb t None.

(** The reason the safety net writes over [r]. *)
Definition safety_net_reason (r : string) : string :=
  "[SAFETY NET] High-priority event cannot be suppressed. Original: " ++ r.

(** *** The gates an event passes *)

(** A rule result that settles the decision at step 3. *)
Definition rule_settles (rr : option (string * string * string)) : bool :=
  match rr with
  | Some (act, _, _) => String.eqb act "NOW" || String.eqb act "NEVER"
  | None => false
  end.

(** From [w], the event passes steps 1 to 3 (it is not expired, not a
    duplicate, and no NOW or NEVER rule matches it) and reaches the frequency
    check in the world [w3], with [rr] returned by the rules. *)
Definition reaches_fatigue_gate `{Platform} (event : NotificationEvent) (w : World)
           (rr : option (string * string * string)) (w3 : World) : Prop :=
  exists w1 dup,
    is_expired event w = (Ok false, w1)
    /\ DedupChecker.check event w1 = (Ok dup, w3)
    /\ truthy_str dup = false
    /\ RulesEngine.evaluate event w3 = (Ok rr, w3)
    /\ rule_settles rr = false.

(** From [w], the event passes steps 1 to 4 as well (no cap defers or
    suppresses it) and reaches the scorer in the world [w5]. *)
Definition reaches_scoring `{Platform} (event : NotificationEvent) (w : World)
           (rr : option (string * string * string)) (w5 : World) : Prop :=
  exists w3 freq w4 daily,
    reaches_fatigue_gate event w rr w3
    /\ FrequencyChecker.check_frequency event w3 = (Ok freq, w4)
    /\ FrequencyChecker.check_daily_cap event w4 = (Ok daily, w5)
    /\ truthy_str freq && negb (is_urgent (priority_hint event)) = false
    /\ truthy_str daily && negb (is_urgent (priority_hint event)) = false.

(** The reason the AI scorer gives when it falls back without calling the
    model. *)
Definition fallback_reason (inner : string) : string :=
  "[FALLBACK] AI circuit breaker OPEN — " ++ inner.

(** [AIScorer.AI_AVAILABLE = value]. *)
Definition set_AI_AVAILABLE (value : bool) (w : World) : World :=
  mk_world (w_store w) (w_counters w) (w_rules w) (w_breaker w)
           value (w_log w) (w_clock w) (w_ticks w).

(** *** Duplicates *)

(** The key under which [DedupChecker.check] registers an event's
    [dedupe_key]. *)
Definition dedup_key_of (event : NotificationEvent) : string :=
  "dedup:" ++ user_id event ++ ":" ++ or_empty (dedupe_key event).

(** The reason [DedupChecker.check] gives for an exact duplicate. *)
Definition exact_duplicate_reason (k : string) : string :=
  "Exact duplicate — dedupe_key '" ++ k ++ "' already seen in last 24h".

(** *** Frequency caps *)

(** The counter [check_frequency] increments for an event. *)
Definition freq_key_of (event : NotificationEvent) : string :=
  "freq:" ++ user_id event ++ ":" ++ event_type event.

(** The hourly cap of an event type. *)
Definition hourly_cap (type : string) : Z :=
  cap_max (dict_get FrequencyChecker.CAPS type FrequencyChecker.default_cap).

(** The reason [check_frequency] gives at the count [n]. *)
Definition frequency_reason (type : string) (n : Z) : string :=
  "Frequency cap exceeded (" ++ str_of_int n ++ "/" ++ str_of_int (hourly_cap type)
    ++ " '" ++ type ++ "' events in last hour)".

(** The world after the events have been evaluated one after the other. *)
Fixpoint evaluate_all `{Platform} (events : list NotificationEvent) (w : World) : World :=
  match events with
  | [] => w
  | e :: rest => evaluate_all rest (snd (PrioritizationEngine.evaluate e w))
  end.

(** The state of the counter [key] as the proof of the cap sees it: no live
    entry yet, or [n] events counted in a window that lasts at least until
    the instant [t]. *)
Definition window_state (key : string) (t : Z) (n : nat) (w : World) : Prop :=
  match n with
  | O => (forall c exp, w_counters w !! key = Some (c, exp) -> exp < now w)
         /\ t <= now w + seconds 3600
  | S _ => exists exp, w_counters w !! key = Some (Z.of_nat n, exp) /\ t <= exp
  end.

(** The world after [n] consecutive calls of [incr(key, ttl)]. *)
Fixpoint incr_times (n : nat) (key : string) (ttl : Z) (w : World) : World :=
  match n with
  | O => w
  | S n' => incr_times n' key ttl (snd (InMemoryStore.incr key ttl w))
  end.

(** The instant 2026-11-03 18:54:07 UTC. *)
Definition demo_start : Z := 1793732047000000.

(** *** What settles a decision when the model is switched off *)

(** A gate before the scorer settles the event from [w]: the action, score,
    reason and rule name it hands to [_decide].  One constructor for each
    place where [evaluate] and [after_rules] stop before the scorer. *)
Inductive gate_settles `{Platform} (event : NotificationEvent) (w : World)
  : string -> float -> string -> option string -> Prop :=
| settled_expired (w1 : World) :
    is_expired event w = (Ok true, w1) ->
    gate_settles event w "NEVER" 0.0 "Event expired before processing" None
| settled_duplicate (w1 : World) (dup : option string) (w2 : World) :
    is_expired event w = (Ok false, w1) ->
    DedupChecker.check event w1 = (Ok dup, w2) ->
    truthy_str dup = true ->
    gate_settles event w "NEVER" 0.0 (or_empty dup) (Some "dedup_check")
| settled_rule_now (w1 : World) (dup : option string) (w2 : World)
                   (rule_reason rule_name : string) :
    is_expired event w = (Ok false, w1) ->
    DedupChecker.check event w1 = (Ok dup, w2) ->
    truthy_str dup = false ->
    RulesEngine.evaluate event w2 = (Ok (Some ("NOW", rule_reason, rule_name)), w2) ->
    gate_settles event w "NOW" 1.0 rule_reason (Some rule_name)
| settled_rule_never (w1 : World) (dup : option string) (w2 : World)
                     (rule_reason rule_name : string) :
    is_expired event w = (Ok false, w1) ->
    DedupChecker.check event w1 = (Ok dup, w2) ->
    truthy_str dup = false ->
    RulesEngine.evaluate event w2 = (Ok (Some ("NEVER", rule_reason, rule_name)), w2) ->
    gate_settles event w "NEVER" 0.0 rule_reason (Some rule_name)
| settled_frequency_never (rr : option (string * string * string)) (w3 : World)
                          (freq : option string) (w4 : World) :
    reaches_fatigue_gate event w rr w3 ->
    FrequencyChecker.check_frequency event w3 = (Ok freq, w4) ->
    truthy_str freq = true ->
    is_urgent (priority_hint event) = false ->
    String.eqb (event_type event) "promotion"
    || String.eqb (event_type event) "system_event" = true ->
    gate_settles event w "NEVER" 0.1 (or_empty freq) (Some "frequency_cap")
| settled_frequency_later (rr : option (string * string * string)) (w3 : World)
                          (freq : option string) (w4 : World) :
    reaches_fatigue_gate event w rr w3 ->
    FrequencyChecker.check_frequency event w3 = (Ok freq, w4) ->
    truthy_str freq = true ->
    is_urgent (priority_hint event) = false ->
    String.eqb (event_type event) "promotion"
    || String.eqb (event_type event) "system_event" = false ->
    gate_settles event w "LATER" 0.3 (or_empty freq ++ " — batched to digest")
                 (Some "frequency_cap")
| settled_daily (rr : option (string * string * string)) (w3 : World)
                (freq : option string) (w4 : World) (daily : option string) (w5 : World) :
    reaches_fatigue_gate event w rr w3 ->
    FrequencyChecker.check_frequency event w3 = (Ok freq, w4) ->
    FrequencyChecker.check_daily_cap event w4 = (Ok daily, w5) ->
    truthy_str freq = false ->
    truthy_str daily = true ->
    is_urgent (priority_hint event) = false ->
    gate_settles event w "LATER" 0.3 (or_empty daily ++ " — batched to digest")
                 (Some "daily_cap").

(** The decision [d] carries what [_decide] makes of the action [act], the
    score [s] and the reason [r]: these three as they are, or NOW, 0.9 and
    the safety net's reason around [r] when [act] is NEVER and the event is
    urgent. *)
Definition decides (event : NotificationEvent) (act : string) (s : float) (r : string)
           (d : Decision) : Prop :=
  if String.eqb act "NEVER" && is_urgent (priority_hint event)
  then action d = "NOW" /\ score d = 0.9%float /\ reason d = safety_net_reason r
  else action d = act /\ score d = s /\ reason d = r.

(** The quiet-hours flag the engine passes to the scorer. *)
Definition quiet_flag (event : NotificationEvent) : pyval :=
  default (PBool false) (metadata event !! "quiet_hours").

(** A LATER rule takes the place of the scorer's NOW for an event that is
    not urgent. *)
Definition later_rule_overrides (event : NotificationEvent)
           (rr : option (string * string * string)) (det : ScoreResult) : bool :=
  match rr with
  | Some (rule_action, _, _) =>
      String.eqb rule_action "LATER" && String.eqb (sr_action det) "NOW"
      && negb (is_urgent (priority_hint event))
  | None => false
  end.

(** The decision [d] that the engine makes, with the model switched off, of
    the result [det] of the deterministic scorer for an event that reached
    the scorer with the rule result [rr]: the scorer's action and score and
    its reason behind the fallback prefix, with the rule's LATER and reason
    in their place when [later_rule_overrides], all of it through the safety
    net of [_decide]; the name of the rule, if one matched; and the flags of
    a fallback. *)
Definition fallback_decision (event : NotificationEvent)
           (rr : option (string * string * string)) (det : ScoreResult)
           (d : Decision) : Prop :=
  ai_used d = false /\ fallback_mode d = true
  /\ rule_matched d = match rr with Some (_, _, rule_name) => Some rule_name | None => None end
  /\ match rr with
     | Some (_, rule_reason, _) =>
         if later_rule_overrides event rr det
         then decides event "LATER" (sr_score det)
                      (rule_reason ++ " (overrides AI NOW suggestion)") d
         else decides event (sr_action det) (sr_score det)
                      (fallback_reason (sr_reason det)) d
     | None => decides event (sr_action det) (sr_score det)
                       (fallback_reason (sr_reason det)) d
     end.

(** The event reaches the scorer from [w] with the rule result [rr], and the
    fallback scorer, run on the count the engine reads for the event, returns
    [det]. *)
Definition fallback_scores `{Platform} (event : NotificationEvent) (w : World)
           (rr : option (string * string * string)) (det : ScoreResult) : Prop :=
  exists w5 n w6 can w7 w8,
    reaches_scoring event w rr w5
    /\ InMemoryStore.get_count (freq_key_of event) w5 = (Ok n, w6)
    /\ CircuitBreaker.can_attempt w6 = (Ok can, w7)
    /\ DeterministicScorer.score event n (quiet_flag event) w7 = (Ok det, w8).


(** A fresh engine with the model switched off. *)
Definition offline : World := set_AI_AVAILABLE false (frozen_world demo_start).

(** A world whose counter ["freq:u1:update"] was opened at [demo_start] for
    one hour. *)
Definition opened : World :=
  snd (InMemoryStore.incr "freq:u1:update" 3600 (frozen_world demo_start)).

(** An entry of the audit log for a user and an action. *)
Definition log_entry (user act : string) : Decision :=
  mk_decision "e" user act 0.5 "r" None false false 0 None.

(** A reminder that expires on 2026-11-03 at 19:30:00 UTC. *)
Definition expiring : NotificationEvent :=
  with_expires_at (plain_event "u1" "reminder" "push" (Some "medium") (Some "Standup"))
                  "2026-11-03T19:30:00Z".

(** A payment alert that expired on 2020-01-01, of the given priority. *)
Definition stale (hint : string) : NotificationEvent :=
  with_expires_at (plain_event "u1" "alert" "push" (Some hint) (Some "Payment failed"))
                  "2020-01-01T00:00:00Z".

(** The direct message of the demonstration, with its idempotency token. *)
Definition sarah : NotificationEvent :=
  with_dedupe_key
    (plain_event "user_002" "message" "push" (Some "medium")
                 (Some "Sarah: Hey, are you free tomorrow?"))
    "msg_sarah_001".

(** The [i]-th of a series of low-priority events of one type for one user,
    each with a title of its own. *)
Definition numbered (type : string) (i : Z) : NotificationEvent :=
  plain_event "user_003" type "in_app" (Some "low")
              (Some ("App updated to version 2." ++ str_of_int i)).

(** *** Deciding that an event passes the gates *)

(** The test behind [reaches_fatigue_gate], by running steps 1 to 3. *)
Definition passes_early_gates `{Platform} (event : NotificationEvent) (w : World) : bool :=
  let w1 := snd (is_expired event w) in
  let w3 := snd (DedupChecker.check event w1) in
  match fst (is_expired event w), fst (DedupChecker.check event w1),
        RulesEngine.evaluate_rules (w_rules w3) event with
  | Ok false, Ok dup, Ok rr => negb (truthy_str dup) && negb (rule_settles rr)
  | _, _, _ => false
  end.

(** The test behind [reaches_scoring], by running steps 1 to 4. *)
Definition passes_all_gates `{Platform} (event : NotificationEvent) (w : World) : bool :=
  let w3 := snd (DedupChecker.check event (snd (is_expired event w))) in
  let w4 := snd (FrequencyChecker.check_frequency event w3) in
  passes_early_gates event w
  && match fst (FrequencyChecker.check_frequency event w3),
           fst (FrequencyChecker.check_daily_cap event w4) with
     | Ok freq, Ok daily =>
         negb (truthy_str freq && negb (is_urgent (priority_hint event)))
         && negb (truthy_str daily && negb (is_urgent (priority_hint event)))
     | _, _ => false
     end.

(** *** Reading a stored entry back *)

(** What [get] and [get_count] return for an entry that expires at [exp],
    read at the instant [t]: the entry is gone once the clock has passed
    [exp]. *)
Definition until {A : Type} (exp t : Z) (live gone : A) : A :=
  if (exp <? t)%Z then gone else live.

(** *** Rules in order *)

(** [a] may stand before [b] in the list of rules. *)
Definition by_priority (a b : Rule) : Prop := (r_priority b <= r_priority a)%Z.

(** The rules of priority [p], in the order of the list. *)
Definition of_priority (p : Z) (rules : list Rule) : list Rule :=
  List.filter (fun r => (r_priority r =? p)%Z) rules.

(** What a rule contributes to the decision. *)
Definition rule_outcome (r : Rule) : string * string * string :=
  (r_action r, r_reason r, r_name r).

(** The condition holds of the event; an operator other than [eq], [in] and
    [neq] is no constraint. *)
Definition cond_holds `{Platform} (event : NotificationEvent) (c : Condition) : bool :=
  let actual := RulesEngine._get_field (c_field c) event in
  if String.eqb (c_op c) "eq" then py_eq actual (c_value c)
  else if String.eqb (c_op c) "in" then
    match RulesEngine.py_in actual (c_value c) with
    | Ok b => b
    | Raise _ => false
    end
  else if String.eqb (c_op c) "neq" then negb (py_eq actual (c_value c))
  else true.

(** The membership test of an [in] condition is defined for the event. *)
Definition cond_defined `{Platform} (event : NotificationEvent) (c : Condition) : bool :=
  if String.eqb (c_op c) "in" then
    match RulesEngine.py_in (RulesEngine._get_field (c_field c) event) (c_value c) with
    | Ok _ => true
    | Raise _ => false
    end
  else true.

Definition rule_applies `{Platform} (event : NotificationEvent) (r : Rule) : bool :=
  forallb (cond_holds event) (r_conditions r).

Definition rule_defined `{Platform} (event : NotificationEvent) (r : Rule) : bool :=
  forallb (cond_defined event) (r_conditions r).

(** What the default rules say about an event. *)
Definition default_outcome (event : NotificationEvent) : option (string * string * string) :=
  if String.eqb (event_type event) "security_alert" then
    Some ("NOW", "Security alerts always sent immediately", "always_send_security_alerts")
  else if AIScorer.hint_is event "critical" then
    Some ("NOW", "Critical priority always sent immediately", "always_send_critical")
  else if String.eqb (event_type event) "promotion"
          && (AIScorer.hint_is event "low"
              || match priority_hint event with None => true | Some _ => false end) then
    Some ("NEVER", "Low-priority promotions suppressed to reduce noise",
          "suppress_promos_low_priority")
  else if String.eqb (event_type event) "update" then
    Some ("LATER", "Updates batched into daily digest", "defer_updates_to_digest")
  else None.

(** *** The audit log *)

(** The number of decisions of the log with the given action. *)
Definition count_action (a : string) (log : list Decision) : Z :=
  Z.of_nat (List.length (List.filter (fun d => String.eqb (action d) a) log)).

(** One of the three actions the engine knows. *)
Definition known_action (a : string) : Prop :=
  a = "NOW" \/ a = "LATER" \/ a = "NEVER".

(** Every run of [c] appends the decision it returns to the audit log, and
    nothing when it raises. *)
Definition logs_its_result (c : M Decision) : Prop :=
  forall w r w',
    c w = (r, w') ->
    w_log w' = (w_log w ++ match r with Ok d => [d] | Raise _ => [] end)%list.

(** *** The breaker under the engine *)

(** What the engine may do to the breaker: leave it as it is, or leave the
    open state, with the failure count kept or reset; the time of the last
    failure and the two settings stay. *)
Definition breaker_calms (w w' : World) : Prop :=
  let cb := w_breaker w in
  let cb' := w_breaker w' in
  last_failure_time cb' = last_failure_time cb
  /\ failure_threshold cb' = failure_threshold cb
  /\ reset_timeout cb' = reset_timeout cb
  /\ (cb' = cb
      \/ (state cb' <> OPEN
          /\ (state cb = CLOSED -> state cb' = CLOSED)
          /\ (failures cb' = failures cb \/ failures cb' = 0))).

(** *** Near duplicates and the daily cap *)

(** The key under which [DedupChecker.check] registers an event's
    fingerprint. *)
Definition fingerprint_key_of (event : NotificationEvent) : string :=
  "fingerprint:" ++ user_id event ++ ":" ++ DedupChecker._fingerprint event.

Definition near_duplicate_reason : string :=
  "Near-duplicate detected — very similar content sent in last 1h".

(** The counter [check_daily_cap] increments for an event on the day of the
    instant [t]. *)
Definition daily_key_of `{Platform} (event : NotificationEvent) (t : Z) : string :=
  "daily_cap:" ++ user_id event ++ ":" ++ channel event ++ ":" ++ date_isoformat t.

(** The daily cap of a channel. *)
Definition daily_cap (chan : string) : Z :=
  dict_get FrequencyChecker.DAILY_CHANNEL_CAPS chan 20.

(** The reason [check_daily_cap] gives at the count [n]. *)
Definition daily_reason (chan : string) (n : Z) : string :=
  "Daily " ++ chan ++ " cap reached (" ++ str_of_int n ++ "/"
    ++ str_of_int (daily_cap chan) ++ ")".

(** The [i]-th of a series of text messages to one user, each with a title
    of its own. *)
Definition texted (i : Z) : NotificationEvent :=
  plain_event "user_004" "message" "sms" (Some "medium")
              (Some ("Your code is " ++ str_of_int i)).

(** A rule that silences one user, above every default rule. *)
Definition mute_user (user : string) : Rule :=
  mk_rule "mute_user" 200 [ mk_cond "user_id" "eq" (PStr user) ]
          "NEVER" "User asked for silence".

(** *** What a computation returns *)

(** Whatever [c] returns satisfies [P]. *)
Definition yields {A : Type} (P : A -> Prop) (c : M A) : Prop :=
  forall w x w', c w = (Ok x, w') -> P x.

(** A decision made by a scorer, as its two flags tell: the model or the
    fallback, never both and never neither. *)
Definition scored (ai fb : bool) : Prop := ai = negb fb.

(** The events evaluated one after the other from a fresh engine never
    make a later evaluation fail. *)
Definition in_order (w : World) : Prop :=
  w_rules w = DEFAULT_RULES /\ breaker_ok w.

(** A security alert about a new login, and the decision a fresh engine
    makes about it at [demo_start]. *)
Definition login_alert : NotificationEvent :=
  plain_event "u1" "security_alert" "push" (Some "critical") (Some "New login").

Definition login_alert_decision : Decision :=
  mk_decision "evt-0001" "u1" "NOW" 1.0 "Security alerts always sent immediately"
              (Some "always_send_security_alerts") false false demo_start None.

(** The world after five text messages to one user, evaluated by a fresh
    engine whose clock stands still at [demo_start]. *)
Definition texted_five : World :=
  @evaluate_all UtcHost.platform (map texted [1; 2; 3; 4; 5]) (frozen_world demo_start).

(** A sale announced twice, in different letter case, on different channels
    and with different keys or none. *)
Definition sale : NotificationEvent :=
  plain_event "u2" "promotion" "email" (Some "medium") (Some "Sale ends TODAY").

Definition sale_again : NotificationEvent :=
  with_dedupe_key (plain_event "u2" "Promotion" "push" (Some "high") (Some "SALE ends today"))
                  "campaign-7".

(** *** The scorer and the clock *)

(** The value [datetime.now(tz)] gives for the instant [t]. *)
Definition reading_as `{Platform} (tz : option Z) (t : Z) : datetime :=
  match tz with
  | Some off => mk_datetime (t + off) (Some off)
  | None => mk_datetime (localtime t) None
  end.

(** What the deterministic scorer makes of the expiry at the instant [t]: no
    expiry it can parse, less than 10 minutes left (also when it is past),
    less than 60, or more. *)
Inductive Tier : Type := Timeless | Imminent | Soon | Distant.

Definition expiry_tier `{Platform} (event : NotificationEvent) (t : Z) : Tier :=
  match parsed_expiry event with
  | None => Timeless
  | Some exp =>
      if minutes_between_lt exp (reading_as (tzinfo exp) t) 10 then Imminent
      else if minutes_between_lt exp (reading_as (tzinfo exp) t) 60 then Soon
      else Distant
  end.

(** *** Registrations that last *)

(** The reading of the clock at which [set_nx] registers [key] from [w],
    where the key is absent or its entry has expired: the first reading
    when there is no entry, the second when there is one, the first having
    gone into the test of its expiry. *)
Definition registration_reading (key : string) (w : World) : Z :=
  match w_store w !! key with
  | Some _ => now_after 1 w
  | None => now w
  end.

(** [w'] comes after [w], and on a clock that never runs backwards whatever
    is registered under [key] in [w] is registered in [w'] as well, with an
    expiry that is no earlier. *)
Definition stays_registered (key : string) (w w' : World) : Prop :=
  keeps the_clock w w'
  /\ (clock_monotone w ->
      forall v exp, w_store w !! key = Some (v, exp) ->
        exists v' exp', w_store w' !! key = Some (v', exp') /\ exp <= exp').

(** *** The events a window counts *)

(** Of the events evaluated in turn from [w], the number the frequency check
    counts under [key]: those whose counter is [key] and which pass steps 1
    to 3, whatever else is evaluated among them. *)
Fixpoint counted_under `{Platform} (key : string) (events : list NotificationEvent)
         (w : World) : nat :=
  match events with
  | [] => 0
  | e :: rest =>
      ((if String.eqb (freq_key_of e) key && passes_early_gates e w then 1 else 0)
       + counted_under key rest (snd (PrioritizationEngine.evaluate e w)))%nat
  end.

(** * Properties *)

Open Scope Z_scope.

(** ** store.py: InMemoryStore.incr *)

Section Incr.

Variables (key : string) (ttl : Z) (w : World).

Lemma incr_absent :
  w_counters w !! key = None ->
  InMemoryStore.incr key ttl w =
    (Ok 1, set_counters <[key := (1, now w + seconds ttl)]> (set_ticks S w)).
Proof.
  intros Hk. unfold InMemoryStore.incr, bind, get_world. simpl.
  rewrite Hk. reflexivity.
Qed.

Lemma incr_expired (old expire_at : Z) :
  w_counters w !! key = Some (old, expire_at) ->
  expire_at < now w ->
  InMemoryStore.incr key ttl w =
    (Ok 1, set_counters <[key := (1, now_after 1 w + seconds ttl)]>
             (set_ticks S (set_ticks S w))).
Proof.
  intros Hk Hexp. unfold InMemoryStore.incr, bind, get_world. simpl.
  rewrite Hk. simpl. fold (now w).
  destruct (Z.ltb_spec expire_at (now w)); [reflexivity | lia].
Qed.

Lemma incr_live (old expire_at : Z) :
  w_counters w !! key = Some (old, expire_at) ->
  now w <= expire_at ->
  InMemoryStore.incr key ttl w =
    (Ok (old + 1), set_counters <[key := (old + 1, expire_at)]> (set_ticks S w)).
Proof.
  intros Hk Hlive. unfold InMemoryStore.incr, bind, get_world. simpl.
  rewrite Hk. simpl. fold (now w).
  destruct (Z.ltb_spec expire_at (now w)); [lia | reflexivity].
Qed.

End Incr.

(** While the entry is live, any number of increments leaves its expiry
    where the first one put it. *)
Lemma incr_times_live (key : string) (ttl : Z) (n : nat) :
  forall (w : World) (old expire_at : Z),
    w_counters w !! key = Some (old, expire_at) ->
    (forall i, (i < n)%nat -> now_after i w <= expire_at) ->
    w_counters (incr_times n key ttl w) !! key = Some (old + Z.of_nat n, expire_at).
Proof.
  induction n as [| n IH]; intros w old expire_at Hk Hlive.
  - simpl. rewrite Z.add_0_r. exact Hk.
  - cbn [incr_times].
    rewrite (incr_live key ttl w old expire_at Hk (Hlive 0%nat ltac:(lia))). cbn [snd].
    rewrite (IH _ (old + 1) expire_at).
    + do 2 f_equal. lia.
    + simpl. apply lookup_insert_eq.
    + intros i Hi. specialize (Hlive (S i) ltac:(lia)).
      unfold now_after in *. simpl. replace (i + S (w_ticks w))%nat
        with (S i + w_ticks w)%nat by lia. exact Hlive.
Qed.

(** C8. [incr(key, ttl)] with no live counter entry (none at all, or one
    whose expiry lies before the clock reading of the check) stores
    [(1, t + ttl)] for the reading [t] taken at the write and returns 1; with
    a live entry [(old, expire_at)] it returns [old + 1] and stores
    [(old + 1, expire_at)]: the expiry is set by the first increment of a
    window and stays there over any number of further increments made while
    the entry is live. *)
Theorem incr_first_write_ttl (key : string) (ttl : Z) (w : World) :
  (w_counters w !! key = None ->
   exists w', InMemoryStore.incr key ttl w = (Ok 1, w')
              /\ w_counters w' !! key = Some (1, now w + seconds ttl))
  /\ (forall old expire_at,
        w_counters w !! key = Some (old, expire_at) -> expire_at < now w ->
        exists w', InMemoryStore.incr key ttl w = (Ok 1, w')
                   /\ w_counters w' !! key = Some (1, now_after 1 w + seconds ttl))
  /\ (forall old expire_at,
        w_counters w !! key = Some (old, expire_at) -> now w <= expire_at ->
        exists w', InMemoryStore.incr key ttl w = (Ok (old + 1), w')
                   /\ w_counters w' !! key = Some (old + 1, expire_at))
  /\ (forall old expire_at n,
        w_counters w !! key = Some (old, expire_at) ->
        (forall i, (i < n)%nat -> now_after i w <= expire_at) ->
        w_counters (incr_times n key ttl w) !! key = Some (old + Z.of_nat n, expire_at)).
Proof.
  split; [| split; [| split]].
  - intros Hk. eexists. split; [apply incr_absent; exact Hk |].
    simpl. apply lookup_insert_eq.
  - intros old e Hk He. eexists. split; [eapply incr_expired; eassumption |].
    simpl. apply lookup_insert_eq.
  - intros old e Hk He. eexists. split; [eapply incr_live; eassumption |].
    simpl. apply lookup_insert_eq.
  - intros old e n Hk Hlive. apply incr_times_live; assumption.
Qed.

Section IncrExample.

(** C8 on the second increment of a window: the count is 2, the expiry is
    the one the first increment set. *)
Lemma incr_first_write_ttl_witness :
  w_counters opened !! "freq:u1:update" = Some (1, demo_start + seconds 3600)
  /\ exists w', InMemoryStore.incr "freq:u1:update" 3600 opened = (Ok 2, w')
                /\ w_counters w' !! "freq:u1:update"
                   = Some (2, demo_start + seconds 3600).
Proof.
  assert (Hk : w_counters opened !! "freq:u1:update"
               = Some (1, demo_start + seconds 3600)) by reflexivity.
  split; [exact Hk |].
  destruct (incr_first_write_ttl "freq:u1:update" 3600 opened) as (_ & _ & Hlive & _).
  apply (Hlive 1 (demo_start + seconds 3600) Hk).
  apply Z.leb_le. reflexivity.
Defined.

End IncrExample.

(** ** audit.py: AuditLog.get_user_history *)

Lemma filter_twice {A : Type} (f g : A -> bool) (l : list A) :
  List.filter g (List.filter f l) = List.filter (fun x => f x && g x) l.
Proof.
  induction l as [| x l IH]; simpl; [reflexivity |].
  destruct (f x); simpl; [destruct (g x) |]; rewrite IH; reflexivity.
Qed.

Lemma history_selection (user : string) (act : option string) (log : list Decision) :
  (if truthy_str act
   then List.filter (fun d => String.eqb (action d) (or_empty act))
          (List.filter (fun d => String.eqb (d_user_id d) user) log)
   else List.filter (fun d => String.eqb (d_user_id d) user) log)
  = List.filter (selected user act) log.
Proof.
  unfold selected. destruct (truthy_str act); simpl.
  - apply filter_twice.
  - apply List.filter_ext. intros d. rewrite andb_true_r. reflexivity.
Qed.

Lemma py_slice_from_0 {A : Type} (l : list A) : py_slice_from 0 l = l.
Proof.
  unfold py_slice_from. simpl.
  rewrite Z.min_l by lia. reflexivity.
Qed.

Lemma py_slice_from_pos {A : Type} (k : Z) (l : list A) :
  0 < k -> py_slice_from k l = skipn (Z.to_nat k) l.
Proof.
  intros Hk. unfold py_slice_from.
  destruct (Z.ltb_spec k 0); [lia |].
  destruct (Z.le_gt_cases k (Z.of_nat (List.length l))) as [Hle | Hgt].
  - rewrite Z.min_l by lia. reflexivity.
  - rewrite Z.min_r by lia. rewrite Nat2Z.id.
    rewrite List.skipn_all. symmetry. apply List.skipn_all2. lia.
Qed.

Lemma py_slice_from_neg_length {A : Type} (k : Z) (l : list A) :
  0 < k -> (List.length (py_slice_from (- k) l) <= Z.to_nat k)%nat.
Proof.
  intros Hk. unfold py_slice_from.
  destruct (Z.ltb_spec (- k) 0); [| lia].
  rewrite List.length_skipn. lia.
Qed.

(** C10. [get_user_history(user, action, limit)] with [limit = 0] returns
    every decision of the user (with the given action, when one is given) in
    insertion order, not the empty list; with a negative [limit] it drops
    the first [-limit] matches and returns all the others.  The bound "the
    last [limit] matches" is in force for positive limits only. *)
Theorem get_user_history_limit_zero (user : string) (act : option string) (w : World) :
  AuditLog.get_user_history user act 0 w = (Ok (List.filter (selected user act) (w_log w)), w)
  /\ (forall limit, limit < 0 ->
        AuditLog.get_user_history user act limit w
        = (Ok (skipn (Z.to_nat (- limit)) (List.filter (selected user act) (w_log w))), w))
  /\ (forall limit, 0 < limit ->
        exists l, AuditLog.get_user_history user act limit w = (Ok l, w)
                  /\ (List.length l <= Z.to_nat limit)%nat).
Proof.
  unfold AuditLog.get_user_history, bind, get_world, ret.
  rewrite history_selection. repeat split.
  - simpl. rewrite py_slice_from_0. reflexivity.
  - intros limit Hl. rewrite py_slice_from_pos by lia. reflexivity.
  - intros limit Hl. eexists. split; [reflexivity |].
    apply py_slice_from_neg_length. exact Hl.
Qed.

Section HistoryExample.

(** C10 on a log of three decisions, two of them for the user "u1". *)
Lemma get_user_history_limit_zero_witness :
  fst (AuditLog.get_user_history "u1" None 0
         (set_log (fun _ => [log_entry "u1" "NOW"; log_entry "u2" "NOW"; log_entry "u1" "NEVER"])
                  (frozen_world 0)))
  = Ok [log_entry "u1" "NOW"; log_entry "u1" "NEVER"].
Proof.
  destruct (get_user_history_limit_zero "u1" None
              (set_log (fun _ => [log_entry "u1" "NOW"; log_entry "u2" "NOW"; log_entry "u1" "NEVER"])
                       (frozen_world 0))) as (Hzero & _).
  rewrite Hzero. reflexivity.
Defined.

End HistoryExample.

(** ** scorer.py: CircuitBreaker *)

Section Breaker.

Lemma record_failure_run (w : World) :
  CircuitBreaker.record_failure w =
    (Ok tt,
     set_breaker (fun cb =>
       mk_breaker (failures cb + 1)
                  (if failure_threshold cb <=? failures cb + 1 then OPEN else state cb)
                  (Some (now w)) (failure_threshold cb) (reset_timeout cb))
       (set_ticks S w)).
Proof. reflexivity. Qed.

Lemma record_success_run (w : World) :
  CircuitBreaker.record_success w =
    (Ok tt,
     set_breaker (fun cb =>
       mk_breaker 0 CLOSED (last_failure_time cb) (failure_threshold cb) (reset_timeout cb)) w).
Proof. reflexivity. Qed.

(** [can_attempt] on a breaker that is not open changes nothing. *)
Lemma can_attempt_not_open (w : World) :
  state (w_breaker w) <> OPEN -> CircuitBreaker.can_attempt w = (Ok true, w).
Proof.
  intros Hs. unfold CircuitBreaker.can_attempt, bind, get_world. simpl.
  destruct (state (w_breaker w)); [reflexivity | congruence | reflexivity].
Qed.

Lemma can_attempt_open_early (w : World) (last : Z) :
  state (w_breaker w) = OPEN ->
  last_failure_time (w_breaker w) = Some last ->
  now w - last <= seconds (reset_timeout (w_breaker w)) ->
  CircuitBreaker.can_attempt w = (Ok false, set_ticks S w).
Proof.
  intros Hs Hl Ht. unfold CircuitBreaker.can_attempt, bind, get_world. simpl.
  rewrite Hs. simpl. rewrite Hl. fold (now w).
  destruct (Z.ltb_spec (seconds (reset_timeout (w_breaker w))) (now w - last));
    [lia | reflexivity].
Qed.

Lemma can_attempt_open_late (w : World) (last : Z) :
  state (w_breaker w) = OPEN ->
  last_failure_time (w_breaker w) = Some last ->
  seconds (reset_timeout (w_breaker w)) < now w - last ->
  CircuitBreaker.can_attempt w =
    (Ok true, set_breaker (CircuitBreaker.set_state HALF_OPEN) (set_ticks S w)).
Proof.
  intros Hs Hl Ht. unfold CircuitBreaker.can_attempt, bind, get_world. simpl.
  rewrite Hs. simpl. rewrite Hl. fold (now w).
  destruct (Z.ltb_spec (seconds (reset_timeout (w_breaker w))) (now w - last));
    [reflexivity | lia].
Qed.

(** The breaker after [can_attempt], whatever it returns. *)
Lemma can_attempt_breaker (w w' : World) (r : Result bool) :
  CircuitBreaker.can_attempt w = (r, w') ->
  w_breaker w' = w_breaker w
  \/ (state (w_breaker w) = OPEN
      /\ w_breaker w' = CircuitBreaker.set_state HALF_OPEN (w_breaker w)).
Proof.
  unfold CircuitBreaker.can_attempt, bind, get_world. simpl.
  destruct (state (w_breaker w)) eqn:Hs; simpl.
  - intros [= <- <-]. left. reflexivity.
  - destruct (last_failure_time (w_breaker w)); simpl.
    + destruct (_ <? _); simpl; intros [= <- <-]; [right | left]; auto.
    + intros [= <- <-]. left. reflexivity.
  - intros [= <- <-]. left. reflexivity.
Qed.

Lemma breaker_reachable_inv (w : World) :
  breaker_reachable w -> breaker_inv (w_breaker w).
Proof.
  induction 1 as [w th to Hinit | w w' _ IH Hsame | w r w' _ IH Hrun
                 | w r w' _ IH Hrun | w r w' _ IH Hrun].
  - rewrite Hinit. split; simpl; [lia | congruence].
  - rewrite Hsame. exact IH.
  - destruct (can_attempt_breaker _ _ _ Hrun) as [-> | [Hs ->]]; [exact IH |].
    destruct IH as [Hf Hopen]. split; [exact Hf |].
    intros _. apply Hopen. congruence.
  - rewrite record_success_run in Hrun. injection Hrun as _ <-.
    split; simpl; [lia | congruence].
  - rewrite record_failure_run in Hrun. injection Hrun as _ <-.
    destruct IH as [Hf Hopen]. simpl. split; simpl; [lia |].
    destruct (Z.leb_spec (failure_threshold (w_breaker w)) (failures (w_breaker w) + 1)).
    + intros _. split; [lia | congruence].
    + intros Hs. destruct (Hopen Hs) as [Hge _]. lia.
Qed.

(** [n] failures in a row: the count grows by [n], the last reading of the
    clock is kept, and the breaker is open as soon as the threshold is
    reached. *)
Lemma fail_n_run (n : nat) : forall w : World,
  exists w',
    fail_n n w = (Ok tt, w')
    /\ failures (w_breaker w') = failures (w_breaker w) + Z.of_nat n
    /\ failure_threshold (w_breaker w') = failure_threshold (w_breaker w)
    /\ reset_timeout (w_breaker w') = reset_timeout (w_breaker w)
    /\ w_ticks w' = (n + w_ticks w)%nat
    /\ w_clock w' = w_clock w
    /\ ((0 < n)%nat -> last_failure_time (w_breaker w') = Some (now_after (n - 1) w))
    /\ ((0 < n)%nat -> failure_threshold (w_breaker w) <= failures (w_breaker w) + Z.of_nat n ->
        state (w_breaker w') = OPEN).
Proof.
  induction n as [| n IH]; intros w.
  - exists w. simpl. repeat split; try lia.
  - destruct (IH (snd (CircuitBreaker.record_failure w)))
      as (w' & Hrun & Hf & Hth & Hto & Hticks & Hclock & Hlast & Hopen).
    rewrite record_failure_run in *. simpl in *.
    exists w'. unfold bind. rewrite record_failure_run. simpl.
    repeat split; try assumption; try lia.
    + intros _. destruct n as [| n'].
      * simpl in Hrun. injection Hrun as <-. simpl. reflexivity.
      * rewrite Hlast by lia. unfold now_after, now. simpl.
        f_equal. f_equal. lia.
    + intros _ Hge. destruct n as [| n'].
      * simpl in Hrun. injection Hrun as <-. simpl.
        destruct (Z.leb_spec (failure_threshold (w_breaker w)) (failures (w_breaker w) + 1));
          [reflexivity | lia].
      * apply Hopen; lia.
Qed.

(** The state after [n] failures in a row: open once the count has reached
    the threshold, as it was before that. *)
Lemma fail_n_state (n : nat) : forall (w w' : World),
  fail_n n w = (Ok tt, w') ->
  state (w_breaker w')
  = match n with
    | O => state (w_breaker w)
    | S _ => if failure_threshold (w_breaker w) <=? failures (w_breaker w) + Z.of_nat n
             then OPEN else state (w_breaker w)
    end.
Proof.
  induction n as [| n IH]; intros w w' Hrun.
  - injection Hrun as <-. reflexivity.
  - cbn [fail_n] in Hrun. unfold bind in Hrun. rewrite record_failure_run in Hrun.
    apply IH in Hrun. rewrite Hrun. cbn [w_breaker set_breaker set_ticks failures state
      failure_threshold].
    destruct n as [| n']; [reflexivity |].
    destruct (Z.leb_spec (failure_threshold (w_breaker w))
                (failures (w_breaker w) + 1 + Z.of_nat (S n')));
      destruct (Z.leb_spec (failure_threshold (w_breaker w))
                  (failures (w_breaker w) + Z.of_nat (S (S n'))));
      try reflexivity; try lia.
    destruct (Z.leb_spec (failure_threshold (w_breaker w)) (failures (w_breaker w) + 1));
      [lia | reflexivity].
Qed.

End Breaker.

(** C9.  From any reachable world whose breaker is CLOSED, with a positive
    threshold.  Each [record_failure] reads the clock once, adds one to the
    failure count and stores the reading as the time of the last failure;
    so after [k] consecutive calls the count has grown by [k], the time of
    the last failure is the reading of the [k]-th call, and the breaker is
    OPEN if the count has reached the threshold and still CLOSED if not.
    After [failure_threshold] calls it is OPEN, and from then on
    [can_attempt] returns false, leaving the breaker as it is, whenever the
    clock it reads is at most [reset_timeout] seconds past the reading of
    that last failure; the first call that reads a later clock returns true
    and moves the breaker to HALF-OPEN, changing nothing else.
    [record_success] always sets the failure count to 0 and the state to
    CLOSED, and nothing else.  In every reachable HALF-OPEN state one
    [record_failure] moves the breaker to OPEN, counting the failure and
    storing its time. *)
Theorem circuit_breaker_lifecycle (w : World) :
  breaker_reachable w ->
  (state (w_breaker w) = CLOSED -> 1 <= failure_threshold (w_breaker w) ->
   (forall k : nat, (0 < k)%nat ->
      exists wk,
        fail_n k w = (Ok tt, wk)
        /\ w_ticks wk = (k + w_ticks w)%nat
        /\ failures (w_breaker wk) = failures (w_breaker w) + Z.of_nat k
        /\ last_failure_time (w_breaker wk) = Some (now_after (k - 1) w)
        /\ state (w_breaker wk)
           = (if failure_threshold (w_breaker w) <=? failures (w_breaker w) + Z.of_nat k
              then OPEN else CLOSED)
        /\ failure_threshold (w_breaker wk) = failure_threshold (w_breaker w)
        /\ reset_timeout (w_breaker wk) = reset_timeout (w_breaker w))
   /\ exists w1,
        fail_n (Z.to_nat (failure_threshold (w_breaker w))) w = (Ok tt, w1)
        /\ state (w_breaker w1) = OPEN
        /\ last_failure_time (w_breaker w1)
           = Some (now_after (Z.to_nat (failure_threshold (w_breaker w)) - 1) w)
        /\ forall w2, w_breaker w2 = w_breaker w1 ->
             (now w2 - now_after (Z.to_nat (failure_threshold (w_breaker w)) - 1) w
              <= seconds (reset_timeout (w_breaker w)) ->
              CircuitBreaker.can_attempt w2 = (Ok false, set_ticks S w2))
             /\ (seconds (reset_timeout (w_breaker w))
                 < now w2 - now_after (Z.to_nat (failure_threshold (w_breaker w)) - 1) w ->
                 CircuitBreaker.can_attempt w2
                 = (Ok true,
                    set_breaker (CircuitBreaker.set_state HALF_OPEN) (set_ticks S w2))))
  /\ CircuitBreaker.record_success w
     = (Ok tt,
        set_breaker (fun cb => mk_breaker 0 CLOSED (last_failure_time cb)
                                          (failure_threshold cb) (reset_timeout cb)) w)
  /\ (state (w_breaker w) = HALF_OPEN ->
      CircuitBreaker.record_failure w
      = (Ok tt,
         set_breaker (fun cb => mk_breaker (failures cb + 1) OPEN (Some (now w))
                                           (failure_threshold cb) (reset_timeout cb))
                     (set_ticks S w))).
Proof.
  intros Hreach. pose proof (breaker_reachable_inv w Hreach) as [Hf Hopen].
  split; [| split].
  - intros Hclosed Hth.
    assert (forall k : nat, (0 < k)%nat ->
              exists wk,
                fail_n k w = (Ok tt, wk)
                /\ w_ticks wk = (k + w_ticks w)%nat
                /\ failures (w_breaker wk) = failures (w_breaker w) + Z.of_nat k
                /\ last_failure_time (w_breaker wk) = Some (now_after (k - 1) w)
                /\ state (w_breaker wk)
                   = (if failure_threshold (w_breaker w) <=? failures (w_breaker w) + Z.of_nat k
                      then OPEN else CLOSED)
                /\ failure_threshold (w_breaker wk) = failure_threshold (w_breaker w)
                /\ reset_timeout (w_breaker wk) = reset_timeout (w_breaker w)) as Hruns.
    { intros k Hk.
      destruct (fail_n_run k w)
        as (wk & Hrun & Hfk & Hthk & Htok & Hticks & _ & Hlast & _).
      exists wk. split; [exact Hrun |]. split; [exact Hticks |]. split; [exact Hfk |].
      split; [apply Hlast; exact Hk |]. split; [| split; assumption].
      rewrite (fail_n_state k w wk Hrun), Hclosed.
      destruct k; [lia |]. reflexivity. }
    split; [exact Hruns |].
    destruct (Hruns (Z.to_nat (failure_threshold (w_breaker w))) ltac:(lia))
      as (w1 & Hrun & _ & Hf1 & Hl1 & Hs1 & _ & Hto1).
    exists w1. split; [exact Hrun |].
    assert (state (w_breaker w1) = OPEN) as Hopen1.
    { rewrite Hs1.
      destruct (Z.leb_spec (failure_threshold (w_breaker w))
                  (failures (w_breaker w)
                   + Z.of_nat (Z.to_nat (failure_threshold (w_breaker w)))));
        [reflexivity | lia]. }
    split; [exact Hopen1 |]. split; [exact Hl1 |].
    intros w2 Hsame. rewrite <- Hsame in Hopen1, Hl1. rewrite <- Hto1, <- Hsame.
    split; intros Htime.
    + exact (can_attempt_open_early w2 _ Hopen1 Hl1 Htime).
    + exact (can_attempt_open_late w2 _ Hopen1 Hl1 Htime).
  - apply record_success_run.
  - intros Hhalf. rewrite record_failure_run. unfold set_breaker. simpl.
    destruct Hopen as [Hge _]; [congruence |].
    destruct (Z.leb_spec (failure_threshold (w_breaker w)) (failures (w_breaker w) + 1));
      [reflexivity | lia].
Qed.

(** C9 on a fresh engine (threshold 5, time-out 30 s): four failures leave
    the breaker closed, the fifth opens it, with the time of that failure. *)
Lemma circuit_breaker_lifecycle_witness :
  breaker_reachable (PrioritizationEngine.init demo_clock)
  /\ (exists w4,
        fail_n 4 (PrioritizationEngine.init demo_clock) = (Ok tt, w4)
        /\ failures (w_breaker w4) = 4 /\ state (w_breaker w4) = CLOSED)
  /\ exists w1,
       fail_n 5 (PrioritizationEngine.init demo_clock) = (Ok tt, w1)
       /\ state (w_breaker w1) = OPEN
       /\ last_failure_time (w_breaker w1) = Some (demo_start + 4000).
Proof.
  assert (Hreach : breaker_reachable (PrioritizationEngine.init demo_clock))
    by (eapply reach_init; reflexivity).
  split; [exact Hreach |].
  destruct (circuit_breaker_lifecycle (PrioritizationEngine.init demo_clock) Hreach)
    as (Hopens & _ & _).
  destruct Hopens as (Hruns & w1 & Hrun & Hstate & Hlast & _).
  - reflexivity.
  - simpl. lia.
  - split.
    + destruct (Hruns 4%nat ltac:(lia)) as (w4 & Hrun4 & _ & Hf4 & _ & Hs4 & _).
      exists w4. split; [exact Hrun4 |]. split; [exact Hf4 | exact Hs4].
    + exists w1. split; [exact Hrun |]. split; [exact Hstate | exact Hlast].
Defined.

(** ** hashlib.sha256: the test vectors of FIPS 180-4 *)

Example sha256_abc :
  Sha256.hexdigest "abc"
  = "ba7816bf8f01cfea414140de5dae2223b00361a396177a9cb410ff61f20015ad".
Proof. vm_compute. reflexivity. Qed.

Example sha256_empty :
  Sha256.hexdigest ""
  = "e3b0c44298fc1c149afbf4c8996fb92427ae41e4649b934ca495991b7852b855".
Proof. vm_compute. reflexivity. Qed.

Example sha256_two_blocks :
  Sha256.hexdigest "abcdbcdecdefdefgefghfghighijhijkijkljklmklmnlmnomnopnopq"
  = "248d6a61d20638b8e5c026930c3e6039a33ce45964ff2167f6ecedd419db06c1".
Proof. vm_compute. reflexivity. Qed.

(** ** store.py: DedupChecker._fingerprint *)

Section Fingerprint.




















End Fingerprint.




(** ** scorer.py: DeterministicScorer.score *)

Section Deterministic.

Context `{Platform}.

Variables (event : NotificationEvent) (recent_count : Z) (is_quiet_hours : pyval).

Lemma expiry_boost_unparsed (base : float) (w : World) :
  parsed_expiry event = None ->
  DeterministicScorer.expiry_boost event base w = (Ok base, w).
Proof.
  unfold parsed_expiry, DeterministicScorer.expiry_boost.
  destruct (truthy_str (expires_at event)); [| reflexivity].
  intros ->. reflexivity.
Qed.

Lemma expiry_boost_same_instant (base : float) (w1 w2 : World) :
  now w1 = now w2 ->
  fst (DeterministicScorer.expiry_boost event base w1)
  = fst (DeterministicScorer.expiry_boost event base w2).
Proof.
  intros Hnow. unfold DeterministicScorer.expiry_boost.
  destruct (truthy_str (expires_at event)); [| reflexivity].
  destruct (fromisoformat _) as [exp |]; [| reflexivity].
  unfold now in Hnow. unfold minutes_between_lt, instant.
  destruct (tzinfo exp); unfold bind, datetime_now, time_time, bind, ret; simpl;
    rewrite Hnow;
    repeat match goal with |- context [if ?b then _ else _] => destruct b end;
    reflexivity.
Qed.

Lemma expiry_boost_ok (base : float) (w : World) :
  exists b w', DeterministicScorer.expiry_boost event base w = (Ok b, w').
Proof.
  unfold DeterministicScorer.expiry_boost.
  destruct (truthy_str (expires_at event)); [| eauto].
  destruct (fromisoformat _) as [exp |]; [| eauto].
  unfold bind, datetime_now, time_time.
  destruct (tzinfo exp); simpl;
    repeat match goal with |- context [if ?b then _ else _] => destruct b end;
    eauto.
Qed.

(** The scorer's result is a function of the boosted base alone. *)
Lemma score_by_boost (w : World) (b : float) (w' : World) :
  DeterministicScorer.expiry_boost event
    (PrimFloat.sub
       match priority_hint event with
       | Some h => dict_get DeterministicScorer.PRIORITY_SCORES h 0.40%float
       | None => 0.40%float
       end
       (py_min (PrimFloat.mul (float_of_int recent_count) 0.08%float) 0.25%float)) w
  = (Ok b, w') ->
  exists r, DeterministicScorer.score event recent_count is_quiet_hours w = (Ok r, w')
            /\ sr_ai_used r = false /\ sr_fallback_mode r = true.
Proof.
  intros Hb. unfold DeterministicScorer.score, bind. rewrite Hb.
  repeat match goal with |- context [if ?c then _ else _] => destruct c end;
    eexists; (split; [reflexivity | split; reflexivity]).
Qed.

End Deterministic.

(** What the clock contributes to the score. *)
Lemma expiry_boost_by_tier `{Platform} (event : NotificationEvent) (base : float)
      (w : World) :
  DeterministicScorer.expiry_boost event base w
  = (Ok match expiry_tier event (now w) with
        | Imminent => PrimFloat.add base 0.30%float
        | Soon => PrimFloat.add base 0.10%float
        | Timeless | Distant => base
        end,
     match parsed_expiry event with Some _ => set_ticks S w | None => w end).
Proof.
  unfold expiry_tier, parsed_expiry, DeterministicScorer.expiry_boost.
  destruct (truthy_str (expires_at event)); [| reflexivity].
  destruct (fromisoformat _) as [exp |]; [| reflexivity].
  unfold bind, datetime_now, time_time, bind, ret, reading_as, now.
  destruct (tzinfo exp); cbn;
    repeat match goal with |- context [if ?b then _ else _] => destruct b end;
    reflexivity.
Qed.

(** C6, as the code has it.  For a count that converts to a float,
    [DeterministicScorer.score] returns, with [ai_used = false] and
    [fallback_mode = true], reading the clock once when the event has an
    [expires_at] that parses and not at all otherwise, and changing nothing
    else.  Its result depends on its arguments and, through that reading, on
    which of the scorer's brackets the time left falls in (less than 10
    minutes, less than 60, more): two calls with identical arguments return
    identical results whenever their readings fall in the same bracket, in
    particular when they read the same instant, and always when the event
    has no [expires_at] that parses. *)
Theorem deterministic_scorer_purity `{Platform}
        (event : NotificationEvent) (recent_count : Z) (is_quiet_hours : pyval) :
  converts recent_count = true ->
  (forall w, exists r,
      DeterministicScorer.score event recent_count is_quiet_hours w
      = (Ok r, match parsed_expiry event with Some _ => set_ticks S w | None => w end)
      /\ sr_ai_used r = false /\ sr_fallback_mode r = true)
  /\ (forall w1 w2, expiry_tier event (now w1) = expiry_tier event (now w2) ->
        fst (DeterministicScorer.score event recent_count is_quiet_hours w1)
        = fst (DeterministicScorer.score event recent_count is_quiet_hours w2))
  /\ (forall w1 w2, parsed_expiry event = None ->
        fst (DeterministicScorer.score event recent_count is_quiet_hours w1)
        = fst (DeterministicScorer.score event recent_count is_quiet_hours w2)).
Proof.
  intros _.
  assert (forall w1 w2, expiry_tier event (now w1) = expiry_tier event (now w2) ->
            fst (DeterministicScorer.score event recent_count is_quiet_hours w1)
            = fst (DeterministicScorer.score event recent_count is_quiet_hours w2))
    as Htier.
  { intros w1 w2 Hsame. unfold DeterministicScorer.score, bind.
    rewrite !expiry_boost_by_tier, Hsame.
    repeat match goal with |- context [if ?c then _ else _] => destruct c end;
      reflexivity. }
  split; [| split; [exact Htier |]].
  - intros w.
    destruct (score_by_boost event recent_count is_quiet_hours w _ _
                (expiry_boost_by_tier event _ w)) as (r & Hr & Hflags).
    exists r. split; [exact Hr | exact Hflags].
  - intros w1 w2 Hnone. apply Htier. unfold expiry_tier. rewrite Hnone. reflexivity.
Qed.

Section DeterministicExamples.

#[local] Existing Instance UtcHost.platform.

(** C6 at the reminder that expires at 19:30:00, scored at 18:54:07 and at
    19:00:00: both are between 10 and 60 minutes before the expiry. *)
Lemma deterministic_scorer_purity_witness :
  expiry_tier expiring (now (frozen_world demo_start))
  = expiry_tier expiring (now (frozen_world 1793732400000000))
  /\ fst (DeterministicScorer.score expiring 2 (PBool false) (frozen_world demo_start))
     = fst (DeterministicScorer.score expiring 2 (PBool false)
              (frozen_world 1793732400000000)).
Proof.
  split; [reflexivity |].
  destruct (deterministic_scorer_purity expiring 2 (PBool false)) as (_ & Htier & _).
  - reflexivity.
  - apply Htier. reflexivity.
Defined.

(** C6 as stated fails on an event with [expires_at] set: the same
    arguments score 0.62 (LATER) at 18:54:07, 36 minutes before the expiry,
    and 0.82 (NOW) at 19:25:00, five minutes before it. *)
Lemma deterministic_scorer_clock_counterexample :
  fst (DeterministicScorer.score expiring 0 (PBool false) (frozen_world demo_start))
  = Ok (mk_score 0.62 "LATER" "Score 0.62 — medium priority, deferred" false true)
  /\ fst (DeterministicScorer.score expiring 0 (PBool false) (frozen_world 1793733900000000))
     = Ok (mk_score 0.82 "NOW" "Score 0.82 — high priority, sending immediately" false true).
Proof. split; vm_compute; reflexivity. Qed.

End DeterministicExamples.

(** ** The monad: frame rules *)

Section Frames.

Lemma keeps_refl (a : aspect) (w : World) : keeps a w w.
Proof. destruct a; simpl; auto. Qed.

Lemma keeps_trans (a : aspect) (w1 w2 w3 : World) :
  keeps a w1 w2 -> keeps a w2 w3 -> keeps a w1 w3.
Proof.
  destruct a; simpl; try congruence.
  intros [Hc1 Ht1] [Hc2 Ht2]. split; [congruence | lia].
Qed.

Context {A B : Type} (a : aspect).

Lemma respects_ret (x : A) : respects (keeps a) (ret x).
Proof. intros w r w' [= <- <-]. apply keeps_refl. Qed.

Lemma respects_raise (e : PyExn) : respects (keeps a) (@raise A e).
Proof. intros w r w' [= <- <-]. apply keeps_refl. Qed.

Lemma respects_get_world : respects (keeps a) get_world.
Proof. intros w r w' [= <- <-]. apply keeps_refl. Qed.

Lemma respects_time_time : respects (keeps a) time_time.
Proof.
  intros w r w' [= <- <-]. destruct a; simpl; auto.
Qed.

Lemma respects_modify (f : World -> World) :
  (forall w, keeps a w (f w)) -> respects (keeps a) (modify f).
Proof. intros Hf w r w' [= <- <-]. apply Hf. Qed.

Lemma respects_bind (c : M A) (k : A -> M B) :
  respects (keeps a) c -> (forall x, respects (keeps a) (k x)) ->
  respects (keeps a) (bind c k).
Proof.
  intros Hc Hk w r w'. unfold bind.
  destruct (c w) as [[x | e] w1] eqn:Hrun.
  - intros Hrest. eapply keeps_trans; [eapply Hc | eapply Hk]; eassumption.
  - intros [= <- <-]. eapply Hc; eassumption.
Qed.

Lemma respects_try_except (body : M A) (handler : PyExn -> M A) :
  respects (keeps a) body -> (forall e, respects (keeps a) (handler e)) ->
  respects (keeps a) (try_except body handler).
Proof.
  intros Hb Hh w r w'. unfold try_except.
  destruct (body w) as [[x | e] w1] eqn:Hrun.
  - intros [= <- <-]. eapply Hb; eassumption.
  - intros Hrest. eapply keeps_trans; [eapply Hb | eapply Hh]; eassumption.
Qed.

End Frames.

(** One step of a frame proof: follow the shape of the computation. *)
Ltac frame_step :=
  lazymatch goal with
  | |- respects _ (bind _ _) => apply respects_bind; [| intro]
  | |- respects _ (ret _) => apply respects_ret
  | |- respects _ (raise _) => apply respects_raise
  | |- respects _ get_world => apply respects_get_world
  | |- respects _ time_time => apply respects_time_time
  | |- respects _ (try_except _ _) => apply respects_try_except; [| intro]
  | |- respects _ (if ?b then _ else _) => destruct b
  | |- respects _ (match ?x with _ => _ end) => destruct x
  | |- respects _ (let _ := _ in _) => cbv zeta
  end.

Create HintDb frames.

Ltac frame := repeat first [frame_step | solve [eauto with frames]].

(** ** Frames of the components *)

Section ComponentFrames.

Context `{Platform}.

Variable a : aspect.

Lemma keeps_set_ticks (f : nat -> nat) (w : World) :
  (forall n, (n <= f n)%nat) -> keeps a w (set_ticks f w).
Proof. intros Hf. destruct a; simpl; auto. Qed.

Lemma keeps_set_store (f : gmap string (string * Z) -> gmap string (string * Z)) (w : World) :
  (forall k, a = store_at k -> f (w_store w) !! k = w_store w !! k) ->
  keeps a w (set_store f w).
Proof. intros Hf. destruct a; simpl; auto. Qed.

Lemma keeps_set_counters (f : gmap string (Z * Z) -> gmap string (Z * Z)) (w : World) :
  (forall k, a = counter_at k -> f (w_counters w) !! k = w_counters w !! k) ->
  keeps a w (set_counters f w).
Proof. intros Hf. destruct a; simpl; auto. Qed.

Lemma keeps_set_breaker (f : CircuitBreaker -> CircuitBreaker) (w : World) :
  a <> the_breaker -> keeps a w (set_breaker f w).
Proof. intros Hne. destruct a; simpl; auto; congruence. Qed.

Lemma keeps_set_log (f : list Decision -> list Decision) (w : World) :
  a <> the_log -> keeps a w (set_log f w).
Proof. intros Hne. destruct a; simpl; auto; congruence. Qed.

Lemma _is_expired_keeps (expire_at : option Z) :
  respects (keeps a) (InMemoryStore._is_expired expire_at).
Proof. unfold InMemoryStore._is_expired. frame. Qed.

Lemma set_nx_keeps (key value : string) (ttl : Z) :
  a <> store_at key -> respects (keeps a) (InMemoryStore.set_nx key value ttl).
Proof.
  intros Hne. unfold InMemoryStore.set_nx. pose proof _is_expired_keeps. frame.
  apply respects_modify. intros w. apply keeps_set_store.
  intros k ->. apply lookup_insert_ne. congruence.
Qed.

Lemma incr_keeps (key : string) (ttl : Z) :
  a <> counter_at key -> respects (keeps a) (InMemoryStore.incr key ttl).
Proof.
  intros Hne. unfold InMemoryStore.incr. pose proof _is_expired_keeps.
  frame; apply respects_modify; intros w; apply keeps_set_counters;
    intros k ->; apply lookup_insert_ne; congruence.
Qed.

Lemma get_count_keeps (key : string) :
  respects (keeps a) (InMemoryStore.get_count key).
Proof. unfold InMemoryStore.get_count. pose proof _is_expired_keeps. frame. Qed.

Lemma datetime_now_keeps (tz : option Z) : respects (keeps a) (datetime_now tz).
Proof. unfold datetime_now. frame. Qed.

Lemma is_expired_keeps (event : NotificationEvent) :
  respects (keeps a) (is_expired event).
Proof. unfold is_expired. pose proof datetime_now_keeps. frame. Qed.

Lemma check_keeps (event : NotificationEvent) :
  (forall k, a <> store_at k) -> respects (keeps a) (DedupChecker.check event).
Proof.
  intros Hne. unfold DedupChecker.check.
  pose proof (fun k v t => set_nx_keeps k v t (Hne k)). frame.
Qed.

Lemma rules_evaluate_keeps (event : NotificationEvent) :
  respects (keeps a) (RulesEngine.evaluate event).
Proof. unfold RulesEngine.evaluate. frame. Qed.

Lemma check_frequency_keeps (event : NotificationEvent) :
  a <> counter_at ("freq:" ++ user_id event ++ ":" ++ event_type event) ->
  respects (keeps a) (FrequencyChecker.check_frequency event).
Proof.
  intros Hne. unfold FrequencyChecker.check_frequency.
  pose proof (fun t => incr_keeps _ t Hne). frame.
Qed.

Lemma check_daily_cap_keeps (event : NotificationEvent) :
  (forall s, a <> counter_at ("daily_cap:" ++ s)) ->
  respects (keeps a) (FrequencyChecker.check_daily_cap event).
Proof.
  intros Hne. unfold FrequencyChecker.check_daily_cap.
  pose proof (fun s t => incr_keeps _ t (Hne s)). frame.
Qed.

Lemma can_attempt_keeps :
  a <> the_breaker -> respects (keeps a) CircuitBreaker.can_attempt.
Proof.
  intros Hne. unfold CircuitBreaker.can_attempt.
  frame; apply respects_modify; intros w; apply keeps_set_breaker; exact Hne.
Qed.

Lemma record_success_keeps :
  a <> the_breaker -> respects (keeps a) CircuitBreaker.record_success.
Proof.
  intros Hne. unfold CircuitBreaker.record_success.
  apply respects_modify. intros w. apply keeps_set_breaker. exact Hne.
Qed.

Lemma record_failure_keeps :
  a <> the_breaker -> respects (keeps a) CircuitBreaker.record_failure.
Proof.
  intros Hne. unfold CircuitBreaker.record_failure.
  frame. apply respects_modify. intros w. apply keeps_set_breaker. exact Hne.
Qed.

Lemma deterministic_score_keeps (event : NotificationEvent) (n : Z) (q : pyval) :
  respects (keeps a) (DeterministicScorer.score event n q).
Proof.
  unfold DeterministicScorer.score, DeterministicScorer.expiry_boost.
  pose proof datetime_now_keeps. frame.
Qed.

Lemma _call_ai_keeps (event : NotificationEvent) (n : Z) (q : pyval) :
  respects (keeps a) (AIScorer._call_ai event n q).
Proof. unfold AIScorer._call_ai. frame. Qed.

Lemma ai_score_keeps (event : NotificationEvent) (n : Z) (q : pyval) :
  a <> the_breaker -> respects (keeps a) (AIScorer.score event n q).
Proof.
  intros Hne. unfold AIScorer.score, AIScorer._fallback.
  pose proof (can_attempt_keeps Hne). pose proof (record_success_keeps Hne).
  pose proof (record_failure_keeps Hne). pose proof deterministic_score_keeps.
  pose proof _call_ai_keeps. frame.
Qed.

Lemma _decide_keeps (event : NotificationEvent) (act : string) (s : float) (r : string)
      (rm : option string) (ai fb : bool) :
  a <> the_log -> respects (keeps a) (PrioritizationEngine._decide event act s r rm ai fb).
Proof.
  intros Hne. unfold PrioritizationEngine._decide, AuditLog.record.
  pose proof datetime_now_keeps.
  frame; apply respects_modify; intros w; apply keeps_set_log; exact Hne.
Qed.

Lemma score_and_merge_keeps (event : NotificationEvent)
      (rr : option (string * string * string)) :
  a <> the_breaker -> a <> the_log ->
  respects (keeps a) (PrioritizationEngine.score_and_merge event rr).
Proof.
  intros Hb Hl. unfold PrioritizationEngine.score_and_merge.
  pose proof get_count_keeps. pose proof (fun e n q => ai_score_keeps e n q Hb).
  pose proof (fun e x s r rm ai fb => _decide_keeps e x s r rm ai fb Hl).
  frame.
Qed.

End ComponentFrames.

(** ** Computations that always return *)

Section Returns.

Context {A B : Type}.

Lemma returns_ret (x : A) : returns (ret x).
Proof. intros w. eexists _, _. reflexivity. Qed.

Lemma returns_get_world : returns get_world.
Proof. intros w. eexists _, _. reflexivity. Qed.

Lemma returns_time_time : returns time_time.
Proof. intros w. eexists _, _. reflexivity. Qed.

Lemma returns_modify (f : World -> World) : returns (modify f).
Proof. intros w. eexists _, _. reflexivity. Qed.

Lemma returns_bind (c : M A) (k : A -> M B) :
  returns c -> (forall x, returns (k x)) -> returns (bind c k).
Proof.
  intros Hc Hk w. unfold bind.
  destruct (Hc w) as (x & w1 & ->). apply Hk.
Qed.

End Returns.

Ltac returns_step :=
  lazymatch goal with
  | |- returns (bind _ _) => apply returns_bind; [| intro]
  | |- returns (ret _) => apply returns_ret
  | |- returns get_world => apply returns_get_world
  | |- returns time_time => apply returns_time_time
  | |- returns (modify _) => apply returns_modify
  | |- returns (if ?b then _ else _) => destruct b
  | |- returns (match ?x with _ => _ end) => destruct x
  | |- returns (let _ := _ in _) => cbv zeta
  end.

Ltac total := repeat first [returns_step | solve [eauto]].

Section ComponentReturns.

Context `{Platform}.

Lemma _is_expired_returns (expire_at : option Z) :
  returns (InMemoryStore._is_expired expire_at).
Proof. unfold InMemoryStore._is_expired. total. Qed.

Lemma set_nx_returns (key value : string) (ttl : Z) :
  returns (InMemoryStore.set_nx key value ttl).
Proof. unfold InMemoryStore.set_nx. pose proof _is_expired_returns. total. Qed.

Lemma incr_returns (key : string) (ttl : Z) : returns (InMemoryStore.incr key ttl).
Proof. unfold InMemoryStore.incr. pose proof _is_expired_returns. total. Qed.

Lemma get_count_returns (key : string) : returns (InMemoryStore.get_count key).
Proof. unfold InMemoryStore.get_count. pose proof _is_expired_returns. total. Qed.

Lemma datetime_now_returns (tz : option Z) : returns (datetime_now tz).
Proof. unfold datetime_now. total. Qed.

Lemma is_expired_returns (event : NotificationEvent) : returns (is_expired event).
Proof. unfold is_expired. pose proof datetime_now_returns. total. Qed.

Lemma check_returns (event : NotificationEvent) : returns (DedupChecker.check event).
Proof. unfold DedupChecker.check. pose proof set_nx_returns. total. Qed.

Lemma check_frequency_returns (event : NotificationEvent) :
  returns (FrequencyChecker.check_frequency event).
Proof. unfold FrequencyChecker.check_frequency. pose proof incr_returns. total. Qed.

Lemma check_daily_cap_returns (event : NotificationEvent) :
  returns (FrequencyChecker.check_daily_cap event).
Proof. unfold FrequencyChecker.check_daily_cap. pose proof incr_returns. total. Qed.

Lemma deterministic_score_returns (event : NotificationEvent) (n : Z) (q : pyval) :
  returns (DeterministicScorer.score event n q).
Proof.
  unfold DeterministicScorer.score, DeterministicScorer.expiry_boost.
  pose proof datetime_now_returns. total.
Qed.

Lemma _fallback_returns (event : NotificationEvent) (n : Z) (q : pyval) (r : string) :
  returns (AIScorer._fallback event n q r).
Proof. unfold AIScorer._fallback. pose proof deterministic_score_returns. total. Qed.

Lemma _call_ai_returns (event : NotificationEvent) (n : Z) (q : pyval) :
  returns (AIScorer._call_ai event n q).
Proof. unfold AIScorer._call_ai. total. Qed.

Lemma _decide_returns (event : NotificationEvent) (act : string) (s : float) (r : string)
      (rm : option string) (ai fb : bool) :
  returns (PrioritizationEngine._decide event act s r rm ai fb).
Proof.
  unfold PrioritizationEngine._decide, AuditLog.record.
  pose proof datetime_now_returns. total.
Qed.

(** [can_attempt] returns from every world whose breaker is in order. *)
Lemma can_attempt_returns (w : World) :
  breaker_ok w -> exists b w', CircuitBreaker.can_attempt w = (Ok b, w').
Proof.
  intros Hok. unfold CircuitBreaker.can_attempt, bind, get_world. simpl.
  destruct (state (w_breaker w)) eqn:Hs; simpl; [eauto | | eauto].
  destruct (last_failure_time (w_breaker w)) as [last |] eqn:Hl.
  - simpl. destruct (_ <? _); simpl; eauto.
  - exfalso. apply (Hok Hs). exact Hl.
Qed.

Lemma ai_score_returns (event : NotificationEvent) (n : Z) (q : pyval) (w : World) :
  breaker_ok w -> exists r w', AIScorer.score event n q w = (Ok r, w').
Proof.
  intros Hok. unfold AIScorer.score, bind at 1.
  destruct (can_attempt_returns w Hok) as (b & w1 & ->).
  unfold bind at 1, get_world.
  destruct (negb b || negb (w_AI_AVAILABLE w1)).
  - apply _fallback_returns.
  - unfold try_except, bind at 1.
    destruct (_call_ai_returns event n q w1) as (r & w2 & ->).
    unfold bind, CircuitBreaker.record_success, modify, ret. eauto.
Qed.

End ComponentReturns.

(** ** prioritizer.py: _decide and the paths of evaluate *)

Section Decide.

Context `{Platform}.

Variable event : NotificationEvent.

Lemma _decide_plain (act : string) (s : float) (r : string) (rm : option string)
      (ai fb : bool) (w : World) :
  String.eqb act "NEVER" && is_urgent (priority_hint event) = false ->
  PrioritizationEngine._decide event act s r rm ai fb w =
    (Ok (decided event act s r rm ai fb (localtime (now w))),
     set_log (fun l => (l ++ [decided event act s r rm ai fb (localtime (now w))])%list)
             (set_ticks S w)).
Proof.
  intros Hplain. unfold PrioritizationEngine._decide. rewrite Hplain. reflexivity.
Qed.

Lemma _decide_safety_net (s : float) (r : string) (rm : option string)
      (ai fb : bool) (w : World) :
  is_urgent (priority_hint event) = true ->
  PrioritizationEngine._decide event "NEVER" s r rm ai fb w =
    (Ok (decided event "NOW" 0.9 (safety_net_reason r) rm ai fb (localtime (now w))),
     set_log (fun l => (l ++ [decided event "NOW" 0.9 (safety_net_reason r) rm ai fb
                                      (localtime (now w))])%list)
             (set_ticks S w)).
Proof.
  intros Hurgent. unfold PrioritizationEngine._decide. rewrite Hurgent. reflexivity.
Qed.

(** What [_decide] returns, field by field. *)
Lemma _decide_fields (act : string) (s : float) (r : string) (rm : option string)
      (ai fb : bool) (w : World) (d : Decision) (w' : World) :
  PrioritizationEngine._decide event act s r rm ai fb w = (Ok d, w') ->
  rule_matched d = rm /\ ai_used d = ai /\ fallback_mode d = fb
  /\ d_user_id d = user_id event /\ d_event_id d = id event
  /\ (if String.eqb act "NEVER" && is_urgent (priority_hint event)
      then action d = "NOW" /\ score d = 0.9%float /\ reason d = safety_net_reason r
      else action d = act /\ score d = s /\ reason d = r).
Proof.
  destruct (String.eqb act "NEVER" && is_urgent (priority_hint event)) eqn:Hnet.
  - apply andb_prop in Hnet as [Hact Hurgent]. apply String.eqb_eq in Hact. subst act.
    rewrite (_decide_safety_net _ _ _ _ _ _ Hurgent). intros [= <- <-]. simpl. tauto.
  - rewrite (_decide_plain _ _ _ _ _ _ _ Hnet). intros [= <- <-]. simpl. tauto.
Qed.

(** Every decision [evaluate] returns was assembled by [_decide]. *)
Lemma evaluate_decided (w : World) (d : Decision) (w' : World) :
  PrioritizationEngine.evaluate event w = (Ok d, w') ->
  exists act s r rm ai fb w0,
    PrioritizationEngine._decide event act s r rm ai fb w0 = (Ok d, w').
Proof.
  unfold PrioritizationEngine.evaluate, PrioritizationEngine.after_rules,
    PrioritizationEngine.score_and_merge, bind.
  intros Hrun.
  repeat match type of Hrun with
         | (match ?x with _ => _ end) = _ => destruct x
         | (match ?x with _ => _ end) _ = _ => destruct x
         | (if ?b then _ else _) = _ => destruct b
         | (let _ := _ in _) = _ => cbv zeta in Hrun
         end;
    try discriminate Hrun; eauto 10.
Qed.

End Decide.

Section EvaluateReturns.

Context `{Platform}.

Variables (event : NotificationEvent).

Lemma rules_evaluate_ok (w : World) :
  rules_ok w event ->
  exists rr, RulesEngine.evaluate event w = (Ok rr, w).
Proof.
  intros [rr Hrr]. exists rr. unfold RulesEngine.evaluate, bind, get_world.
  rewrite Hrr. reflexivity.
Qed.

Lemma rules_ok_kept (w w' : World) :
  keeps the_rules w w' -> rules_ok w event -> rules_ok w' event.
Proof. unfold rules_ok. simpl. intros ->. auto. Qed.

Lemma breaker_ok_kept (w w' : World) :
  keeps the_breaker w w' -> breaker_ok w -> breaker_ok w'.
Proof. unfold breaker_ok. simpl. intros ->. auto. Qed.

Lemma score_and_merge_returns (rr : option (string * string * string)) (w : World) :
  breaker_ok w ->
  exists d w', PrioritizationEngine.score_and_merge event rr w = (Ok d, w').
Proof.
  intros Hok. unfold PrioritizationEngine.score_and_merge, bind at 1.
  destruct (get_count_returns ("freq:" ++ user_id event ++ ":" ++ event_type event) w)
    as (n & w1 & Hcount).
  rewrite Hcount.
  assert (Hok1 : breaker_ok w1).
  { eapply breaker_ok_kept; [| exact Hok].
    eapply (get_count_keeps the_breaker); exact Hcount. }
  unfold bind at 1.
  destruct (ai_score_returns event n (default (PBool false) (metadata event !! "quiet_hours"))
                             w1 Hok1) as (sr & w2 & ->).
  match goal with
  | |- context [let '(_, _) := ?p in _] => destruct p
  end.
  apply _decide_returns.
Qed.

Lemma after_rules_returns (rr : option (string * string * string)) (w : World) :
  breaker_ok w ->
  exists d w', PrioritizationEngine.after_rules event rr w = (Ok d, w').
Proof.
  intros Hok. unfold PrioritizationEngine.after_rules, bind at 1.
  destruct (check_frequency_returns event w) as (fr & w1 & Hfreq). rewrite Hfreq.
  unfold bind at 1.
  destruct (check_daily_cap_returns event w1) as (dr & w2 & Hdaily). rewrite Hdaily.
  assert (Hok2 : breaker_ok w2).
  { eapply breaker_ok_kept; [| exact Hok].
    eapply keeps_trans.
    - eapply (check_frequency_keeps the_breaker); [discriminate | exact Hfreq].
    - eapply (check_daily_cap_keeps the_breaker); [discriminate | exact Hdaily]. }
  repeat match goal with |- context [if ?b then _ else _] => destruct b end;
    try apply _decide_returns.
  all: apply score_and_merge_returns; exact Hok2.
Qed.

(** [evaluate] returns a decision whenever the rules do not raise on the
    event and the breaker is in order. *)
Lemma evaluate_returns (w : World) :
  rules_ok w event -> breaker_ok w ->
  exists d w', PrioritizationEngine.evaluate event w = (Ok d, w').
Proof.
  intros Hrules Hbreaker. unfold PrioritizationEngine.evaluate, bind at 1.
  destruct (is_expired_returns event w) as (expired & w1 & Hexp). rewrite Hexp.
  destruct expired; [apply _decide_returns |].
  unfold bind at 1.
  destruct (check_returns event w1) as (dup & w2 & Hdup). rewrite Hdup.
  destruct (truthy_str dup); [apply _decide_returns |].
  assert (Hrules2 : rules_ok w2 event).
  { eapply rules_ok_kept; [| exact Hrules].
    eapply keeps_trans.
    - eapply (is_expired_keeps the_rules); exact Hexp.
    - eapply (check_keeps the_rules); [discriminate | exact Hdup]. }
  assert (Hbreaker2 : breaker_ok w2).
  { eapply breaker_ok_kept; [| exact Hbreaker].
    eapply keeps_trans.
    - eapply (is_expired_keeps the_breaker); exact Hexp.
    - eapply (check_keeps the_breaker); [discriminate | exact Hdup]. }
  unfold bind at 1.
  destruct (rules_evaluate_ok w2 Hrules2) as (rr & ->).
  destruct rr as [[[ract rreason] rname] |].
  - destruct (String.eqb ract "NOW"); [apply _decide_returns |].
    destruct (String.eqb ract "NEVER"); [apply _decide_returns |].
    apply after_rules_returns. exact Hbreaker2.
  - apply after_rules_returns. exact Hbreaker2.
Qed.

End EvaluateReturns.

(** C1. For every event whose [priority_hint] is "critical" or "high"
    (expired or not): [_decide] never yields NEVER, and a tentative NEVER
    comes out as NOW with score 0.9 and the reason
    "[SAFETY NET] High-priority event cannot be suppressed. Original: "
    followed by the prior reason; no decision [evaluate] returns has the
    action NEVER; and [evaluate] does return one whenever the rules do not
    raise on the event and the breaker is in order. *)
Theorem urgent_never_suppressed `{Platform} (event : NotificationEvent) (w : World) :
  is_urgent (priority_hint event) = true ->
  (forall act s r rm ai fb,
      exists d w', PrioritizationEngine._decide event act s r rm ai fb w = (Ok d, w')
                   /\ action d <> "NEVER"
                   /\ (act = "NEVER" ->
                       action d = "NOW" /\ score d = 0.9%float
                       /\ reason d = safety_net_reason r))
  /\ (forall d w', PrioritizationEngine.evaluate event w = (Ok d, w') ->
                   action d <> "NEVER")
  /\ (rules_ok w event -> breaker_ok w ->
      exists d w', PrioritizationEngine.evaluate event w = (Ok d, w')
                   /\ action d <> "NEVER").
Proof.
  intros Hurgent.
  assert (Hdecide : forall act s r rm ai fb w0 d w',
             PrioritizationEngine._decide event act s r rm ai fb w0 = (Ok d, w') ->
             action d <> "NEVER"
             /\ (act = "NEVER" ->
                 action d = "NOW" /\ score d = 0.9%float /\ reason d = safety_net_reason r)).
  { intros act s r rm ai fb w0 d w' Hrun.
    apply _decide_fields in Hrun as (_ & _ & _ & _ & _ & Hnet).
    rewrite Hurgent, andb_true_r in Hnet.
    destruct (String.eqb_spec act "NEVER") as [-> | Hne].
    - destruct Hnet as (Ha & Hs & Hr). split; [rewrite Ha; discriminate | auto].
    - destruct Hnet as (Ha & _). split; [rewrite Ha; exact Hne | contradiction]. }
  assert (Heval : forall d w', PrioritizationEngine.evaluate event w = (Ok d, w') ->
                               action d <> "NEVER").
  { intros d w' Hrun.
    apply evaluate_decided in Hrun as (act & s & r & rm & ai & fb & w0 & Hrun).
    apply (Hdecide _ _ _ _ _ _ _ _ _ Hrun). }
  repeat split.
  - intros act s r rm ai fb.
    destruct (_decide_returns event act s r rm ai fb w) as (d & w' & Hrun).
    exists d, w'. split; [exact Hrun |]. apply (Hdecide _ _ _ _ _ _ _ _ _ Hrun).
  - exact Heval.
  - intros Hrules Hbreaker.
    destruct (evaluate_returns event w Hrules Hbreaker) as (d & w' & Hrun).
    exists d, w'. split; [exact Hrun | exact (Heval d w' Hrun)].
Qed.

(** C2, as the code has it.  When [is_expired] is true, [evaluate] returns
    at step 1 with [rule_matched] null: NEVER with score 0.0 and the reason
    "Event expired before processing" when [priority_hint] is neither
    "critical" nor "high"; for those two the safety net of [_decide] applies
    to this path as to every other, and the decision is NOW with score 0.9
    and the safety-net reason. *)
Theorem expired_event_decision `{Platform} (event : NotificationEvent) (w w1 : World) :
  is_expired event w = (Ok true, w1) ->
  exists d w',
    PrioritizationEngine.evaluate event w = (Ok d, w')
    /\ rule_matched d = None /\ ai_used d = false /\ fallback_mode d = false
    /\ (is_urgent (priority_hint event) = false ->
        action d = "NEVER" /\ score d = 0.0%float
        /\ reason d = "Event expired before processing")
    /\ (is_urgent (priority_hint event) = true ->
        action d = "NOW" /\ score d = 0.9%float
        /\ reason d = safety_net_reason "Event expired before processing").
Proof.
  intros Hexp.
  destruct (_decide_returns event "NEVER" 0.0%float "Event expired before processing"
                            None false false w1) as (d & w' & Hrun).
  exists d, w'. split.
  - unfold PrioritizationEngine.evaluate, bind. rewrite Hexp. exact Hrun.
  - apply _decide_fields in Hrun as (Hrm & Hai & Hfb & _ & _ & Hnet).
    do 3 (split; [assumption |]).
    split; intros Hurgent; rewrite Hurgent in Hnet; simpl in Hnet; tauto.
Qed.

Section SafetyNetExamples.

#[local] Existing Instance UtcHost.platform.

(** C2 on an expired low-priority event, evaluated on 2026-11-03. *)
Lemma expired_event_decision_witness :
  is_expired (stale "low") (frozen_world demo_start)
  = (Ok true, set_ticks S (frozen_world demo_start))
  /\ exists d w',
       PrioritizationEngine.evaluate (stale "low") (frozen_world demo_start) = (Ok d, w')
       /\ action d = "NEVER" /\ score d = 0.0%float
       /\ reason d = "Event expired before processing".
Proof.
  assert (Hexp : is_expired (stale "low") (frozen_world demo_start)
                 = (Ok true, set_ticks S (frozen_world demo_start)))
    by reflexivity.
  split; [exact Hexp |].
  destruct (expired_event_decision (stale "low") (frozen_world demo_start)
              (set_ticks S (frozen_world demo_start)) Hexp)
    as (d & w' & Hrun & _ & _ & _ & Hlow & _).
  exists d, w'. split; [exact Hrun | apply Hlow; reflexivity].
Defined.

(** C2 as stated fails on an expired critical event: [is_expired] is true
    and the decision is NOW with score 0.9. *)
Lemma expired_critical_counterexample :
  fst (is_expired (stale "critical") (frozen_world demo_start)) = Ok true
  /\ fst (PrioritizationEngine.evaluate (stale "critical") (frozen_world demo_start))
     = Ok (mk_decision "evt-0001" "u1" "NOW" 0.9
             "[SAFETY NET] High-priority event cannot be suppressed. Original: Event expired before processing"
             None false false demo_start None).
Proof. split; vm_compute; reflexivity. Qed.

(** C1 on a high-priority alert in a fresh engine. *)
Lemma urgent_never_suppressed_witness :
  is_urgent (priority_hint (plain_event "u5" "alert" "email" (Some "high") (Some "Payment failed")))
  = true
  /\ exists d w',
       PrioritizationEngine.evaluate
         (plain_event "u5" "alert" "email" (Some "high") (Some "Payment failed"))
         (frozen_world demo_start) = (Ok d, w')
       /\ action d <> "NEVER".
Proof.
  split; [reflexivity |].
  destruct (urgent_never_suppressed
              (plain_event "u5" "alert" "email" (Some "high") (Some "Payment failed"))
              (frozen_world demo_start) eq_refl) as (_ & _ & Hreturns).
  apply Hreturns.
  - eexists. reflexivity.
  - intros Hopen. discriminate Hopen.
Defined.

End SafetyNetExamples.

(** ** prioritizer.py: the gates before the scorer *)

Section Gates.

Context `{Platform}.

Variable event : NotificationEvent.

Lemma reaches_fatigue_gate_run (w : World) (rr : option (string * string * string))
      (w3 : World) :
  reaches_fatigue_gate event w rr w3 ->
  PrioritizationEngine.evaluate event w = PrioritizationEngine.after_rules event rr w3.
Proof.
  intros (w1 & dup & Hexp & Hdup & Hfalsy & Hrules & Hsettle).
  unfold PrioritizationEngine.evaluate, bind.
  rewrite Hexp, Hdup, Hfalsy, Hrules.
  destruct rr as [[[act rs] name] |]; [| reflexivity].
  simpl in Hsettle. apply orb_false_elim in Hsettle as [-> ->]. reflexivity.
Qed.

Lemma reaches_scoring_run (w : World) (rr : option (string * string * string))
      (w5 : World) :
  reaches_scoring event w rr w5 ->
  PrioritizationEngine.evaluate event w = PrioritizationEngine.score_and_merge event rr w5.
Proof.
  intros (w3 & freq & w4 & daily & Hgate & Hfreq & Hdaily & Hf & Hd).
  rewrite (reaches_fatigue_gate_run _ _ _ Hgate).
  unfold PrioritizationEngine.after_rules, bind.
  rewrite Hfreq, Hdaily, Hf, Hd. reflexivity.
Qed.

(** The world in which the scorer is reached is the one the four gates
    leave. *)
Lemma reaches_scoring_world (w : World) (rr : option (string * string * string))
      (w5 : World) :
  reaches_scoring event w rr w5 ->
  w5 = snd (FrequencyChecker.check_daily_cap event
              (snd (FrequencyChecker.check_frequency event
                      (snd (DedupChecker.check event (snd (is_expired event w))))))).
Proof.
  intros (w3 & freq & w4 & daily & (w1 & dup & Hexp & Hdup & _) & Hfreq & Hdaily & _).
  rewrite Hexp. simpl. rewrite Hdup. simpl. rewrite Hfreq. simpl. rewrite Hdaily.
  reflexivity.
Qed.

(** Steps 1 to 3 touch nothing but the store and the clock. *)
Lemma reaches_fatigue_gate_keeps (a : aspect) (w : World)
      (rr : option (string * string * string)) (w3 : World) :
  (forall k, a <> store_at k) ->
  reaches_fatigue_gate event w rr w3 -> keeps a w w3.
Proof.
  intros Hne (w1 & dup & Hexp & Hdup & _).
  eapply keeps_trans.
  - eapply is_expired_keeps; exact Hexp.
  - eapply check_keeps; [exact Hne | exact Hdup].
Qed.

(** Steps 1 to 4 leave the rules, the flag, the breaker and the log alone. *)
Lemma reaches_scoring_keeps (a : aspect) (w : World)
      (rr : option (string * string * string)) (w5 : World) :
  (forall k, a <> store_at k) -> (forall k, a <> counter_at k) ->
  reaches_scoring event w rr w5 -> keeps a w w5.
Proof.
  intros Hs Hc (w3 & freq & w4 & daily & Hgate & Hfreq & Hdaily & _).
  eapply keeps_trans; [eapply reaches_fatigue_gate_keeps; eassumption |].
  eapply keeps_trans.
  - eapply check_frequency_keeps; [apply Hc | exact Hfreq].
  - eapply check_daily_cap_keeps; [intros s; apply Hc | exact Hdaily].
Qed.

Lemma rules_evaluate_run (w : World) (rr : option (string * string * string)) :
  RulesEngine.evaluate_rules (w_rules w) event = Ok rr ->
  RulesEngine.evaluate event w = (Ok rr, w).
Proof.
  intros Hrr. unfold RulesEngine.evaluate, bind, get_world. rewrite Hrr. reflexivity.
Qed.

Lemma passes_early_gates_sound (w : World) :
  passes_early_gates event w = true ->
  exists rr w3, reaches_fatigue_gate event w rr w3.
Proof.
  unfold passes_early_gates.
  destruct (is_expired event w) as [[[|] | ex] w1] eqn:Hexp; simpl; try discriminate.
  destruct (DedupChecker.check event w1) as [[dup | ex] w3] eqn:Hdup; simpl;
    try discriminate.
  destruct (RulesEngine.evaluate_rules (w_rules w3) event) as [rr | ex] eqn:Hrr;
    try discriminate.
  intros Hpass. apply andb_prop in Hpass as [Hfalsy Hsettle].
  apply negb_true_iff in Hfalsy, Hsettle.
  exists rr, w3, w1, dup. repeat split; try assumption.
  apply rules_evaluate_run. exact Hrr.
Qed.

Lemma passes_all_gates_sound (w : World) :
  passes_all_gates event w = true ->
  exists rr w5, reaches_scoring event w rr w5.
Proof.
  unfold passes_all_gates. intros Hpass. apply andb_prop in Hpass as [Hearly Hcaps].
  pose proof Hearly as Hgate. apply passes_early_gates_sound in Hgate as (rr & w3 & Hgate).
  assert (w3 = snd (DedupChecker.check event (snd (is_expired event w)))) as Hw3.
  { destruct Hgate as (w1 & dup & Hexp & Hdup & _). rewrite Hexp. simpl.
    rewrite Hdup. reflexivity. }
  rewrite <- Hw3 in Hcaps.
  destruct (FrequencyChecker.check_frequency event w3) as [[freq | ex] w4] eqn:Hfreq;
    simpl in Hcaps; try discriminate.
  destruct (FrequencyChecker.check_daily_cap event w4) as [[daily | ex] w5] eqn:Hdaily;
    simpl in Hcaps; try discriminate.
  apply andb_prop in Hcaps as [Hf Hd]. apply negb_true_iff in Hf, Hd.
  exists rr, w5, w3, freq, w4, daily. repeat split; assumption.
Qed.

End Gates.

(** ** scorer.py: the AI scorer with the model switched off *)

Section Offline.

Context `{Platform}.

Variable event : NotificationEvent.

Lemma deterministic_score_flags (n : Z) (q : pyval) (w : World) (r : ScoreResult)
      (w' : World) :
  DeterministicScorer.score event n q w = (Ok r, w') ->
  sr_ai_used r = false /\ sr_fallback_mode r = true.
Proof.
  intros Hrun.
  destruct (expiry_boost_ok event
              (PrimFloat.sub
                 match priority_hint event with
                 | Some h => dict_get DeterministicScorer.PRIORITY_SCORES h 0.40%float
                 | None => 0.40%float
                 end
                 (py_min (PrimFloat.mul (float_of_int n) 0.08%float) 0.25%float))
              w) as (b & w1 & Hb).
  destruct (score_by_boost event n q w b w1 Hb) as (r1 & Hr1 & Hflags).
  rewrite Hrun in Hr1. injection Hr1 as <- _. exact Hflags.
Qed.

(** With the model switched off the AI scorer is the deterministic scorer,
    its reason behind the fallback prefix. *)
Lemma ai_score_offline (n : Z) (q : pyval) (w : World) (sr : ScoreResult) (w' : World) :
  w_AI_AVAILABLE w = false ->
  AIScorer.score event n q w = (Ok sr, w') ->
  exists can w1 det,
    CircuitBreaker.can_attempt w = (Ok can, w1)
    /\ DeterministicScorer.score event n q w1 = (Ok det, w')
    /\ sr = mk_score (sr_score det) (sr_action det) (fallback_reason (sr_reason det))
                     false true.
Proof.
  intros Hoff. unfold AIScorer.score, bind at 1.
  destruct (CircuitBreaker.can_attempt w) as [[b | ex] w1] eqn:Hcan; [| discriminate].
  assert (Hoff1 : w_AI_AVAILABLE w1 = false).
  { pose proof (can_attempt_keeps the_flag ltac:(discriminate) _ _ _ Hcan) as Hk.
    simpl in Hk. congruence. }
  unfold bind at 1, get_world. rewrite Hoff1, orb_true_r.
  unfold AIScorer._fallback, bind.
  destruct (DeterministicScorer.score event n q w1) as [[r | ex] w2] eqn:Hdet;
    [| discriminate].
  intros [= <- <-].
  destruct (deterministic_score_flags _ _ _ _ _ Hdet) as [Hai Hfb].
  exists b, w1, r. rewrite Hai, Hfb. repeat split. exact Hdet.
Qed.

Lemma _decide_decides (act : string) (s : float) (r : string) (rm : option string)
      (ai fb : bool) (w : World) (d : Decision) (w' : World) :
  PrioritizationEngine._decide event act s r rm ai fb w = (Ok d, w') ->
  ai_used d = ai /\ fallback_mode d = fb /\ rule_matched d = rm /\ decides event act s r d.
Proof.
  intros Hrun. apply _decide_fields in Hrun as (Hrm & Ha & Hf & _ & _ & Hnet).
  repeat split; assumption.
Qed.

(** Steps 5 and 6 with the model switched off. *)
Lemma score_and_merge_offline (rr : option (string * string * string)) (w : World)
      (d : Decision) (w' : World) :
  w_AI_AVAILABLE w = false ->
  PrioritizationEngine.score_and_merge event rr w = (Ok d, w') ->
  exists n w6 can w7 det w8,
    InMemoryStore.get_count (freq_key_of event) w = (Ok n, w6)
    /\ CircuitBreaker.can_attempt w6 = (Ok can, w7)
    /\ DeterministicScorer.score event n (quiet_flag event) w7 = (Ok det, w8)
    /\ fallback_decision event rr det d.
Proof.
  intros Hoff. unfold PrioritizationEngine.score_and_merge, bind at 1.
  fold (freq_key_of event). fold (quiet_flag event).
  destruct (InMemoryStore.get_count _ w) as [[n | ex] w1] eqn:Hcount; [| discriminate].
  assert (Hoff1 : w_AI_AVAILABLE w1 = false).
  { pose proof (get_count_keeps the_flag _ _ _ _ Hcount) as Hk. simpl in Hk. congruence. }
  unfold bind at 1.
  destruct (AIScorer.score event n _ w1) as [[sr | ex] w2] eqn:Hscore; [| discriminate].
  destruct (ai_score_offline _ _ _ _ _ Hoff1 Hscore) as (can & w7 & det & Hcan & Hdet & ->).
  cbn [sr_score sr_action sr_reason sr_ai_used sr_fallback_mode].
  intros Hrun. exists n, w1, can, w7, det, w2.
  repeat (split; [assumption |]).
  unfold fallback_decision, later_rule_overrides.
  destruct rr as [[[act rs] name] |].
  - destruct (String.eqb act "LATER" && String.eqb (sr_action det) "NOW"
              && negb (is_urgent (priority_hint event)));
      apply _decide_decides in Hrun; tauto.
  - apply _decide_decides in Hrun. tauto.
Qed.

(** A decision that [evaluate] returns was settled by a gate, and assembled
    by [_decide] from what the gate handed over, or by the scorer. *)
Lemma evaluate_settled (w : World) (d : Decision) (w' : World) :
  PrioritizationEngine.evaluate event w = (Ok d, w') ->
  (exists act s r rm w0,
      gate_settles event w act s r rm
      /\ PrioritizationEngine._decide event act s r rm false false w0 = (Ok d, w'))
  \/ (exists rr w5, reaches_scoring event w rr w5
                    /\ PrioritizationEngine.score_and_merge event rr w5 = (Ok d, w')).
Proof.
  unfold PrioritizationEngine.evaluate, bind at 1.
  destruct (is_expired_returns event w) as (expired & w1 & Hexp). rewrite Hexp.
  destruct expired.
  { intros Hrun. left. do 5 eexists. split; [| exact Hrun].
    eapply settled_expired. exact Hexp. }
  unfold bind at 1.
  destruct (check_returns event w1) as (dup & w2 & Hdup). rewrite Hdup.
  destruct (truthy_str dup) eqn:Hfalsy.
  { intros Hrun. left. do 5 eexists. split; [| exact Hrun].
    eapply settled_duplicate; eassumption. }
  unfold bind at 1.
  destruct (RulesEngine.evaluate event w2) as [[rr | ex] w3] eqn:Hrules;
    [| discriminate].
  assert (w3 = w2) as ->.
  { revert Hrules. unfold RulesEngine.evaluate, bind, get_world.
    destruct (RulesEngine.evaluate_rules _ _); intros [= _ <-]; reflexivity. }
  assert (Hafter :
             rule_settles rr = false ->
             PrioritizationEngine.after_rules event rr w2 = (Ok d, w') ->
             (exists act s r rm w0,
                 gate_settles event w act s r rm
                 /\ PrioritizationEngine._decide event act s r rm false false w0 = (Ok d, w'))
             \/ (exists rr0 w5, reaches_scoring event w rr0 w5
                                /\ PrioritizationEngine.score_and_merge event rr0 w5
                                   = (Ok d, w'))).
  { intros Hsettle.
    assert (Hgate : reaches_fatigue_gate event w rr w2).
    { exists w1, dup. repeat split; assumption. }
    unfold PrioritizationEngine.after_rules, bind.
    destruct (check_frequency_returns event w2) as (freq & w4 & Hfreq). rewrite Hfreq.
    destruct (check_daily_cap_returns event w4) as (daily & w5 & Hdaily). rewrite Hdaily.
    destruct (is_urgent (priority_hint event)) eqn:Hurgent.
    - rewrite !andb_false_r. intros Hrun. right. exists rr, w5. split; [| exact Hrun].
      exists w2, freq, w4, daily. rewrite Hurgent, !andb_false_r. repeat split; assumption.
    - rewrite !andb_true_r.
      destruct (truthy_str freq) eqn:Hf.
      + destruct (String.eqb (event_type event) "promotion"
                  || String.eqb (event_type event) "system_event") eqn:Htype;
          intros Hrun; left; do 5 eexists; (split; [| exact Hrun]).
        * eapply settled_frequency_never; eassumption.
        * eapply settled_frequency_later; eassumption.
      + destruct (truthy_str daily) eqn:Hd.
        * intros Hrun; left; do 5 eexists; (split; [| exact Hrun]).
          eapply settled_daily; eassumption.
        * intros Hrun. right. exists rr, w5. split; [| exact Hrun].
          exists w2, freq, w4, daily. rewrite Hurgent, Hf, Hd. repeat split; assumption. }
  destruct rr as [[[act rs] name] |]; [| apply Hafter; reflexivity].
  destruct (String.eqb act "NOW") eqn:Hnow.
  { apply String.eqb_eq in Hnow. subst act.
    intros Hrun. left. do 5 eexists. split; [| exact Hrun].
    eapply settled_rule_now; eassumption. }
  destruct (String.eqb act "NEVER") eqn:Hnever.
  { apply String.eqb_eq in Hnever. subst act.
    intros Hrun. left. do 5 eexists. split; [| exact Hrun].
    eapply settled_rule_never; eassumption. }
  apply Hafter. simpl. rewrite Hnow, Hnever. reflexivity.
Qed.

End Offline.

(** C5, as the code has it.  With [AI_AVAILABLE] false, every decision that
    [evaluate] returns has [ai_used = false] and is one of two kinds.

    Either a gate before the scorer settled it ([gate_settles]: expiry, a
    duplicate, a NOW or NEVER rule, the frequency cap or the daily cap).
    Then [fallback_mode] is false, [rule_matched] is the gate's, and the
    action, score and reason are the gate's, except that for an urgent event
    a gate's NEVER becomes NOW with score 0.9 and the safety net's reason
    around the gate's ([decides]).

    Or the event reached the scorer, and [det] is what the deterministic
    scorer returns on the count and the quiet-hours flag the engine passes to
    it ([fallback_scores]).  Then [fallback_mode] is true, [rule_matched] is
    the name of the LATER rule that matched, if one did, and the action,
    score and reason are those of [det], the reason being
    "[FALLBACK] AI circuit breaker OPEN — " followed by the reason of [det];
    except that a LATER rule turns the scorer's NOW for an event that is not
    urgent into LATER with the rule's reason followed by
    " (overrides AI NOW suggestion)", and that the scorer's NEVER for an
    urgent event becomes NOW with score 0.9 and the safety net's reason
    around the fallback's ([fallback_decision]).

    Every event that reaches the scorer with the breaker in order and a
    count that converts to a float gets such a decision. *)
Theorem fallback_when_ai_unavailable `{Platform} (event : NotificationEvent) (w : World) :
  w_AI_AVAILABLE w = false ->
  (forall d w', PrioritizationEngine.evaluate event w = (Ok d, w') ->
      ai_used d = false
      /\ ((exists act s r rm,
              gate_settles event w act s r rm
              /\ fallback_mode d = false /\ rule_matched d = rm
              /\ decides event act s r d)
          \/ (exists rr det,
                fallback_scores event w rr det /\ fallback_decision event rr det d)))
  /\ (forall rr w5, reaches_scoring event w rr w5 -> breaker_ok w ->
        (forall n w6, InMemoryStore.get_count (freq_key_of event) w5 = (Ok n, w6) ->
                      converts n = true) ->
        exists d w' det,
          PrioritizationEngine.evaluate event w = (Ok d, w')
          /\ fallback_scores event w rr det /\ fallback_decision event rr det d).
Proof.
  intros Hoff.
  assert (Hscored : forall rr w5 d w',
             reaches_scoring event w rr w5 ->
             PrioritizationEngine.score_and_merge event rr w5 = (Ok d, w') ->
             exists det, fallback_scores event w rr det /\ fallback_decision event rr det d).
  { intros rr w5 d w' Hreach Hscore.
    assert (Hoff5 : w_AI_AVAILABLE w5 = false).
    { pose proof (reaches_scoring_keeps event the_flag w rr w5
                    ltac:(discriminate) ltac:(discriminate) Hreach) as Hk.
      simpl in Hk. congruence. }
    destruct (score_and_merge_offline event rr w5 d w' Hoff5 Hscore)
      as (n & w6 & can & w7 & det & w8 & Hcount & Hcan & Hdet & Hd).
    exists det. split; [| exact Hd].
    exists w5, n, w6, can, w7, w8. repeat split; assumption. }
  split.
  - intros d w' Hrun.
    destruct (evaluate_settled event w d w' Hrun)
      as [(act & s & r & rm & w0 & Hgate & Hdecide) | (rr & w5 & Hreach & Hscore)].
    + apply _decide_decides in Hdecide as (Hai & Hfb & Hrm & Hd).
      split; [exact Hai |]. left. exists act, s, r, rm. repeat split; assumption.
    + destruct (Hscored rr w5 d w' Hreach Hscore) as (det & Hruns & Hd).
      split; [apply Hd |]. right. exists rr, det. split; assumption.
  - intros rr w5 Hreach Hok _.
    assert (Hok5 : breaker_ok w5).
    { eapply breaker_ok_kept; [| exact Hok].
      apply (reaches_scoring_keeps event the_breaker w rr w5); [discriminate .. | exact Hreach]. }
    destruct (score_and_merge_returns event rr w5 Hok5) as (d & w' & Hrun).
    destruct (Hscored rr w5 d w' Hreach Hrun) as (det & Hruns & Hd).
    exists d, w', det. rewrite (reaches_scoring_run event w rr w5 Hreach).
    split; [exact Hrun | split; assumption].
Qed.

Section OfflineExamples.

#[local] Existing Instance UtcHost.platform.

(** C5 on the billing alert of the demonstration, scored by the fallback:
    the deterministic scorer gives it 0.95 and NOW, and the decision carries
    that with the scorer's reason behind the fallback prefix. *)
Lemma fallback_when_ai_unavailable_witness :
  w_AI_AVAILABLE offline = false
  /\ exists d w' det,
       PrioritizationEngine.evaluate
         (plain_event "u5" "alert" "email" (Some "high") (Some "Payment failed")) offline
       = (Ok d, w')
       /\ fallback_scores
            (plain_event "u5" "alert" "email" (Some "high") (Some "Payment failed"))
            offline None det
       /\ fallback_decision
            (plain_event "u5" "alert" "email" (Some "high") (Some "Payment failed"))
            None det d.
Proof.
  split; [reflexivity |].
  destruct (fallback_when_ai_unavailable
              (plain_event "u5" "alert" "email" (Some "high") (Some "Payment failed"))
              offline eq_refl) as [_ Hscored].
  destruct (passes_all_gates_sound
              (plain_event "u5" "alert" "email" (Some "high") (Some "Payment failed"))
              offline) as (rr & w5 & Hreach); [vm_compute; reflexivity |].
  assert (rr = None) as ->.
  { destruct Hreach as (w3 & _ & _ & _ & Hgate & _).
    pose proof (reaches_fatigue_gate_keeps _ the_rules _ _ _ ltac:(discriminate) Hgate)
      as Hkept.
    destruct Hgate as (w1 & dup & _ & _ & _ & Hrules & _).
    revert Hrules. unfold RulesEngine.evaluate, bind, get_world.
    simpl in Hkept. rewrite Hkept.
    vm_compute. intros [= <-]. reflexivity. }
  apply (Hscored None w5 Hreach).
  - intros Hopen. discriminate Hopen.
  - intros n w6 Hcount.
    rewrite (reaches_scoring_world _ _ _ _ Hreach) in Hcount.
    vm_compute in Hcount. injection Hcount as <- _. reflexivity.
Defined.

(** C5 as stated fails on a security alert: with the model switched off the
    rule settles the decision, [fallback_mode] is false and the reason is the
    rule's. *)
Lemma fallback_rule_counterexample :
  w_AI_AVAILABLE offline = false
  /\ fst (PrioritizationEngine.evaluate
            (plain_event "u1" "security_alert" "push" (Some "critical") (Some "New login"))
            offline)
     = Ok (mk_decision "evt-0001" "u1" "NOW" 1.0 "Security alerts always sent immediately"
             (Some "always_send_security_alerts") false false demo_start None).
Proof. split; vm_compute; reflexivity. Qed.

End OfflineExamples.

(** ** store.py: set_nx and the exact-duplicate layer *)

Section SetNx.

Variables (key value : string) (ttl : Z) (w : World).

Lemma set_nx_absent :
  w_store w !! key = None ->
  InMemoryStore.set_nx key value ttl w =
    (Ok true, set_store <[key := (value, now w + seconds ttl)]> (set_ticks S w)).
Proof.
  intros Hk. unfold InMemoryStore.set_nx, bind, get_world. simpl.
  rewrite Hk. reflexivity.
Qed.

Lemma set_nx_live (old : string) (expire_at : Z) :
  w_store w !! key = Some (old, expire_at) ->
  now w <= expire_at ->
  InMemoryStore.set_nx key value ttl w = (Ok false, set_ticks S w).
Proof.
  intros Hk Hlive. unfold InMemoryStore.set_nx, bind, get_world. simpl.
  rewrite Hk. simpl. fold (now w).
  destruct (Z.ltb_spec expire_at (now w)); [lia | reflexivity].
Qed.

Lemma set_nx_expired (old : string) (expire_at : Z) :
  w_store w !! key = Some (old, expire_at) ->
  expire_at < now w ->
  InMemoryStore.set_nx key value ttl w =
    (Ok true, set_store <[key := (value, now_after 1 w + seconds ttl)]>
                (set_ticks S (set_ticks S w))).
Proof.
  intros Hk Hexp. unfold InMemoryStore.set_nx, bind, get_world. simpl.
  rewrite Hk. simpl. fold (now w).
  destruct (Z.ltb_spec expire_at (now w)); [reflexivity | lia].
Qed.

End SetNx.

(** Two keys built on different prefixes are different. *)
Ltac keys_differ :=
  let Hbad := fresh "Hbad" in
  intros Hbad; injection Hbad as Hbad; unfold dedup_key_of in Hbad;
  cbn in Hbad; discriminate Hbad.

Section ExactDuplicate.

Context `{Platform}.

Lemma truthy_key (event : NotificationEvent) (k : string) :
  dedupe_key event = Some k -> k <> "" ->
  truthy_str (dedupe_key event) = true /\ or_empty (dedupe_key event) = k.
Proof.
  intros -> Hk. simpl. destruct (String.eqb_spec k ""); [contradiction | auto].
Qed.

(** What [set_nx] does to a key that is absent or whose entry has expired. *)
Lemma set_nx_registers (key value : string) (ttl : Z) (w : World) :
  (forall v exp, w_store w !! key = Some (v, exp) -> exp < now w) ->
  exists w',
    InMemoryStore.set_nx key value ttl w = (Ok true, w')
    /\ w_store w' = <[key := (value, registration_reading key w + seconds ttl)]> (w_store w)
    /\ keeps the_clock w w'.
Proof.
  intros Hstale. unfold registration_reading.
  destruct (w_store w !! key) as [[old exp] |] eqn:Hk.
  - rewrite (set_nx_expired key value ttl w old exp Hk (Hstale _ _ eq_refl)).
    eexists. split; [reflexivity |]. split; [reflexivity |]. cbn. split; [reflexivity | lia].
  - rewrite (set_nx_absent key value ttl w Hk).
    eexists. split; [reflexivity |]. split; [reflexivity |]. cbn. split; [reflexivity | lia].
Qed.

(** The first sighting of a key, or the first after its registration has
    expired, registers it for 24 hours. *)
Lemma check_registers (event : NotificationEvent) (k : string) (w : World)
      (r : Result (option string)) (w' : World) :
  dedupe_key event = Some k -> k <> "" ->
  (forall v exp, w_store w !! dedup_key_of event = Some (v, exp) -> exp < now w) ->
  DedupChecker.check event w = (r, w') ->
  w_store w' !! dedup_key_of event
  = Some (id event, registration_reading (dedup_key_of event) w + seconds 86400).
Proof.
  intros Hkey Hk Hstale. destruct (truthy_key event k Hkey Hk) as [Htruthy Hor].
  unfold DedupChecker.check. rewrite Htruthy. unfold bind at 1.
  fold (dedup_key_of event).
  destruct (set_nx_registers (dedup_key_of event) (id event) DedupChecker.EXACT_TTL w Hstale)
    as (w1 & -> & Hstore & _).
  change (negb true) with false. cbv beta iota.
  intros Hlayer2.
  assert (Hkept : keeps (store_at (dedup_key_of event)) w1 w').
  { revert Hlayer2. unfold bind.
    match goal with
    | |- context [InMemoryStore.set_nx ?fk ?v ?t ?w0] =>
        destruct (InMemoryStore.set_nx fk v t w0) as [[ok | ex] w2] eqn:Hnx
    end.
    - apply (set_nx_keeps (store_at (dedup_key_of event))) in Hnx; [| keys_differ].
      destruct (negb ok); intros [= _ <-]; exact Hnx.
    - apply (set_nx_keeps (store_at (dedup_key_of event))) in Hnx; [| keys_differ].
      intros [= _ <-]. exact Hnx. }
  cbn in Hkept. rewrite Hkept, Hstore. apply lookup_insert_eq.
Qed.

(** A second sighting while the registration is live: an exact duplicate. *)
Lemma check_exact_duplicate (event : NotificationEvent) (k old : string) (expire_at : Z)
      (w : World) :
  dedupe_key event = Some k -> k <> "" ->
  w_store w !! dedup_key_of event = Some (old, expire_at) ->
  now w <= expire_at ->
  DedupChecker.check event w = (Ok (Some (exact_duplicate_reason k)), set_ticks S w).
Proof.
  intros Hkey Hk Hstored Hlive. destruct (truthy_key event k Hkey Hk) as [Htruthy Hor].
  unfold DedupChecker.check. rewrite Htruthy. unfold bind at 1.
  fold (dedup_key_of event).
  rewrite (set_nx_live _ _ _ _ old expire_at) by assumption. rewrite Hor. reflexivity.
Qed.

Lemma after_rules_keeps (a : aspect) (event : NotificationEvent)
      (rr : option (string * string * string)) :
  a <> the_breaker -> a <> the_log -> (forall k, a <> counter_at k) ->
  respects (keeps a) (PrioritizationEngine.after_rules event rr).
Proof.
  intros Hb Hl Hc. unfold PrioritizationEngine.after_rules.
  pose proof (check_frequency_keeps a event (Hc _)).
  pose proof (check_daily_cap_keeps a event (fun s => Hc _)).
  pose proof (score_and_merge_keeps a event rr Hb Hl).
  pose proof (fun x s r rm ai fb => _decide_keeps a event x s r rm ai fb Hl).
  frame.
Qed.

(** After the duplicate check, nothing in [evaluate] writes to the store. *)
Lemma evaluate_keeps_store (event : NotificationEvent) (k : string) (w w1 w2 : World)
      (dup : option string) (r : Result Decision) (w' : World) :
  is_expired event w = (Ok false, w1) ->
  DedupChecker.check event w1 = (Ok dup, w2) ->
  PrioritizationEngine.evaluate event w = (r, w') ->
  keeps (store_at k) w2 w'.
Proof.
  intros Hexp Hdup. unfold PrioritizationEngine.evaluate, bind at 1. rewrite Hexp.
  unfold bind at 1. rewrite Hdup.
  pose proof (fun x s rs rm ai fb =>
                _decide_keeps (store_at k) event x s rs rm ai fb ltac:(discriminate)) as Hd.
  pose proof (fun rr => after_rules_keeps (store_at k) event rr
                          ltac:(discriminate) ltac:(discriminate)
                          ltac:(intros; discriminate)) as Ha.
  destruct (truthy_str dup); [apply Hd |].
  intros Hrun. revert Hrun. apply respects_bind; [apply rules_evaluate_keeps |].
  intros rr. destruct rr as [[[act rs] name] |]; [| apply Ha].
  destruct (String.eqb act "NOW"); [apply Hd |].
  destruct (String.eqb act "NEVER"); [apply Hd | apply Ha].
Qed.

End ExactDuplicate.

(** ** The clock under the engine *)

Section ClockFrames.

Context `{Platform}.

Lemma now_le_later (w w' : World) :
  clock_monotone w -> keeps the_clock w w' -> now w <= now w'.
Proof.
  intros Hmono [Hclock Hticks]. unfold now. rewrite Hclock. apply Hmono. exact Hticks.
Qed.

Lemma clock_monotone_kept (w w' : World) :
  keeps the_clock w w' -> clock_monotone w -> clock_monotone w'.
Proof. intros [Hclock _]. unfold clock_monotone. rewrite Hclock. auto. Qed.

Lemma evaluate_keeps (a : aspect) (event : NotificationEvent) :
  a <> the_breaker -> a <> the_log ->
  (forall k, a <> store_at k) -> (forall k, a <> counter_at k) ->
  respects (keeps a) (PrioritizationEngine.evaluate event).
Proof.
  intros Hb Hl Hs Hc. unfold PrioritizationEngine.evaluate.
  pose proof (is_expired_keeps a event).
  pose proof (check_keeps a event Hs).
  pose proof (rules_evaluate_keeps a event).
  pose proof (fun rr => after_rules_keeps a event rr Hb Hl Hc).
  pose proof (fun x s r rm ai fb => _decide_keeps a event x s r rm ai fb Hl).
  frame.
Qed.

Lemma evaluate_all_keeps_clock (events : list NotificationEvent) :
  forall w, keeps the_clock w (evaluate_all events w).
Proof.
  induction events as [| e rest IH]; intros w; [apply (keeps_refl the_clock) |].
  cbn [evaluate_all]. eapply (keeps_trans the_clock); [| apply IH].
  apply (evaluate_keeps the_clock e ltac:(discriminate) ltac:(discriminate)
           ltac:(intros; discriminate) ltac:(intros; discriminate)
           w (fst (PrioritizationEngine.evaluate e w))).
  apply surjective_pairing.
Qed.

End ClockFrames.

Lemma frozen_clock_monotone (t : Z) : clock_monotone (frozen_world t).
Proof. intros n m _. simpl. unfold frozen_clock. lia. Qed.

(** ** store.py: a registration lasts *)

Section Lasting.

Context `{Platform}.

Variable key : string.

Lemma stays_registered_trans (w1 w2 w3 : World) :
  stays_registered key w1 w2 -> stays_registered key w2 w3 -> stays_registered key w1 w3.
Proof.
  intros (Hclock12 & Hstay12) (Hclock23 & Hstay23).
  split; [exact (keeps_trans the_clock _ _ _ Hclock12 Hclock23) |].
  intros Hmono v exp Hstored.
  destruct (Hstay12 Hmono v exp Hstored) as (v2 & exp2 & Hstored2 & Hle2).
  destruct (Hstay23 (clock_monotone_kept _ _ Hclock12 Hmono) v2 exp2 Hstored2)
    as (v3 & exp3 & Hstored3 & Hle3).
  exists v3, exp3. split; [exact Hstored3 | lia].
Qed.

Lemma stays_registered_bind {A B : Type} (c : M A) (k : A -> M B) :
  respects (stays_registered key) c -> (forall x, respects (stays_registered key) (k x)) ->
  respects (stays_registered key) (bind c k).
Proof.
  intros Hc Hk w r w' Hrun. unfold bind in Hrun.
  destruct (c w) as [[x | ex] w1] eqn:Hcw.
  - eapply stays_registered_trans; [exact (Hc w _ w1 Hcw) | exact (Hk x w1 r w' Hrun)].
  - injection Hrun as <- <-. exact (Hc w _ w1 Hcw).
Qed.

(** What leaves the clock and the entry alone leaves the registration. *)
Lemma stays_registered_of_keeps {A : Type} (c : M A) :
  respects (keeps the_clock) c -> respects (keeps (store_at key)) c ->
  respects (stays_registered key) c.
Proof.
  intros Hclock Hstore w r w' Hrun.
  split; [exact (Hclock w r w' Hrun) |].
  intros _ v exp Hstored. exists v, exp.
  pose proof (Hstore w r w' Hrun) as Hkept. cbn in Hkept.
  split; [congruence | lia].
Qed.

Lemma set_nx_stays (other value : string) (ttl : Z) :
  0 <= ttl -> respects (stays_registered key) (InMemoryStore.set_nx other value ttl).
Proof.
  intros Httl. destruct (decide (other = key)) as [-> | Hne].
  - intros w r w' Hrun.
    split; [exact (set_nx_keeps the_clock key value ttl ltac:(discriminate) w r w' Hrun) |].
    intros Hmono v exp Hstored.
    destruct (Z.ltb_spec exp (now w)) as [Hexpired | Hlive].
    + rewrite (set_nx_expired key value ttl w v exp Hstored Hexpired) in Hrun.
      injection Hrun as _ <-. cbn. rewrite lookup_insert_eq.
      do 2 eexists. split; [reflexivity |].
      assert (now w <= now_after 1 w) as Hlater
          by (unfold now, now_after; apply Hmono; lia).
      unfold seconds. lia.
    + rewrite (set_nx_live key value ttl w v exp Hstored Hlive) in Hrun.
      injection Hrun as _ <-. exists v, exp. split; [exact Hstored | lia].
  - apply stays_registered_of_keeps; apply set_nx_keeps; congruence.
Qed.

Lemma check_stays (event : NotificationEvent) :
  respects (stays_registered key) (DedupChecker.check event).
Proof.
  assert (forall k v, respects (stays_registered key)
                               (InMemoryStore.set_nx k v DedupChecker.NEAR_TTL)) as Hnear
      by (intros; apply set_nx_stays; unfold DedupChecker.NEAR_TTL; lia).
  assert (forall k v, respects (stays_registered key)
                               (InMemoryStore.set_nx k v DedupChecker.EXACT_TTL)) as Hexact
      by (intros; apply set_nx_stays; unfold DedupChecker.EXACT_TTL; lia).
  assert (forall x : option string, respects (stays_registered key) (ret x)) as Hret.
  { intros x. apply stays_registered_of_keeps; apply respects_ret. }
  unfold DedupChecker.check.
  destruct (truthy_str (dedupe_key event)).
  - apply stays_registered_bind; [apply Hexact | intros ok].
    destruct (negb ok); [apply Hret |].
    apply stays_registered_bind; [apply Hnear | intros ok2].
    destruct (negb ok2); apply Hret.
  - apply stays_registered_bind; [apply Hnear | intros ok2].
    destruct (negb ok2); apply Hret.
Qed.

Lemma evaluate_stays (event : NotificationEvent) :
  respects (stays_registered key) (PrioritizationEngine.evaluate event).
Proof.
  assert (forall x s r rm ai fb,
             respects (stays_registered key)
                      (PrioritizationEngine._decide event x s r rm ai fb)) as Hdecide.
  { intros. apply stays_registered_of_keeps; apply _decide_keeps; discriminate. }
  assert (forall rr, respects (stays_registered key)
                              (PrioritizationEngine.after_rules event rr)) as Hafter.
  { intros rr. apply stays_registered_of_keeps; apply after_rules_keeps;
      try discriminate; intros; discriminate. }
  unfold PrioritizationEngine.evaluate.
  apply stays_registered_bind;
    [apply stays_registered_of_keeps; apply is_expired_keeps | intros expired].
  destruct expired; [apply Hdecide |].
  apply stays_registered_bind; [apply check_stays | intros dup].
  destruct (truthy_str dup); [apply Hdecide |].
  apply stays_registered_bind;
    [apply stays_registered_of_keeps; apply rules_evaluate_keeps | intros rr].
  destruct rr as [[[ract rreason] rname] |]; [| apply Hafter].
  destruct (String.eqb ract "NOW"); [apply Hdecide |].
  destruct (String.eqb ract "NEVER"); [apply Hdecide | apply Hafter].
Qed.

Lemma evaluate_all_stays (events : list NotificationEvent) :
  forall w, stays_registered key w (evaluate_all events w).
Proof.
  induction events as [| e events IH]; intros w; cbn [evaluate_all].
  - split; [apply (keeps_refl the_clock) |].
    intros _ v exp Hstored. exists v, exp. split; [exact Hstored | lia].
  - eapply stays_registered_trans; [| apply IH].
    destruct (PrioritizationEngine.evaluate e w) as [r w1] eqn:Hrun.
    exact (evaluate_stays e w r w1 Hrun).
Qed.

(** From the registration by a first call to the duplicate check of a later
    one: the entry is there, and expires no earlier. *)
Lemma registered_until_check (first second : NotificationEvent)
      (between : list NotificationEvent) (w wa : World) (dup : option string) (wd : World)
      (v : string) (exp : Z) (r2 : Result bool) (wc : World) :
  clock_monotone w ->
  is_expired first w = (Ok false, wa) ->
  DedupChecker.check first wa = (Ok dup, wd) ->
  w_store wd !! key = Some (v, exp) ->
  is_expired second (evaluate_all between (snd (PrioritizationEngine.evaluate first w)))
  = (r2, wc) ->
  exists v' exp', w_store wc !! key = Some (v', exp') /\ exp <= exp'.
Proof.
  intros Hmono Hexp1 Hcheck Hstored Hexp2.
  destruct (PrioritizationEngine.evaluate first w) as [r wb] eqn:Hfirst. cbn [snd] in Hexp2.
  pose proof (evaluate_keeps_store first key _ _ _ _ _ _ Hexp1 Hcheck Hfirst) as Hkept.
  cbn in Hkept.
  assert (keeps the_clock w wb) as Hclock.
  { apply (evaluate_keeps the_clock first) in Hfirst;
      [exact Hfirst | discriminate | discriminate | discriminate | discriminate]. }
  destruct (evaluate_all_stays between wb) as (_ & Hstay).
  destruct (Hstay (clock_monotone_kept _ _ Hclock Hmono) v exp ltac:(congruence))
    as (v' & exp' & Hstored' & Hle).
  exists v', exp'. split; [| exact Hle].
  pose proof (is_expired_keeps (store_at key) _ _ _ _ Hexp2) as Hkept2. cbn in Hkept2.
  congruence.
Qed.

End Lasting.

(** C3, as the code has it.  A call of [evaluate] whose event carries a
    non-empty [dedupe_key], is not expired, and whose key is not registered
    for its user or registered with an expiry that has passed; then any
    calls of [evaluate], for any events; then a call for the same user with
    the same key, whose event is not expired and whose duplicate check
    reads a clock at most 24 hours past the reading at which the first call
    registered the key, on a clock that never runs backwards.  The last call
    returns with [rule_matched = "dedup_check"] and the reason "Exact
    duplicate — dedupe_key '<key>' already seen in last 24h": as NEVER with
    score 0 when [priority_hint] is neither "critical" nor "high", and,
    through the safety net, as NOW with score 0.9 when it is. *)
Theorem exact_duplicate_suppressed `{Platform}
        (first second : NotificationEvent) (k : string)
        (between : list NotificationEvent) (w : World) :
  clock_monotone w ->
  dedupe_key first = Some k -> dedupe_key second = Some k -> k <> "" ->
  user_id first = user_id second ->
  fst (is_expired first w) = Ok false ->
  (forall v exp, w_store w !! dedup_key_of first = Some (v, exp) ->
     exp < now (snd (is_expired first w))) ->
  fst (is_expired second
         (evaluate_all between (snd (PrioritizationEngine.evaluate first w)))) = Ok false ->
  now (snd (is_expired second
              (evaluate_all between (snd (PrioritizationEngine.evaluate first w)))))
  <= registration_reading (dedup_key_of first) (snd (is_expired first w)) + seconds 86400 ->
  exists d w',
    PrioritizationEngine.evaluate second
      (evaluate_all between (snd (PrioritizationEngine.evaluate first w)))
    = (Ok d, w')
    /\ rule_matched d = Some "dedup_check"
    /\ ai_used d = false /\ fallback_mode d = false
    /\ (is_urgent (priority_hint second) = false ->
        action d = "NEVER" /\ score d = 0.0%float /\ reason d = exact_duplicate_reason k)
    /\ (is_urgent (priority_hint second) = true ->
        action d = "NOW" /\ score d = 0.9%float
        /\ reason d = safety_net_reason (exact_duplicate_reason k)).
Proof.
  intros Hmono Hk1 Hk2 Hk Huser Hexp1 Hstale Hexp2 Htime.
  destruct (is_expired first w) as [r1 wa] eqn:Hrun1. cbn [fst snd] in Hexp1, Hstale, Htime.
  subst r1.
  destruct (is_expired second
              (evaluate_all between (snd (PrioritizationEngine.evaluate first w))))
    as [r2 wc] eqn:Hrun2.
  cbn [fst snd] in Hexp2, Htime. subst r2.
  (* the first call registers the key *)
  assert (forall key, w_store wa !! key = w_store w !! key) as Hsame_a.
  { intros key. exact (is_expired_keeps (store_at key) _ _ _ _ Hrun1). }
  assert (forall v exp, w_store wa !! dedup_key_of first = Some (v, exp) -> exp < now wa)
    as Hstale_a by (intros v exp; rewrite Hsame_a; apply Hstale).
  destruct (check_returns first wa) as (dup & wd & Hcheck).
  pose proof (check_registers first k wa _ _ Hk1 Hk Hstale_a Hcheck) as Hreg.
  (* it is still registered when the last call checks *)
  destruct (registered_until_check (dedup_key_of first) first second between
              w wa dup wd _ _ _ wc Hmono Hrun1 Hcheck Hreg Hrun2)
    as (v' & exp' & Hstored & Hle).
  assert (Hsame : dedup_key_of second = dedup_key_of first).
  { unfold dedup_key_of. rewrite Huser, Hk1, Hk2. reflexivity. }
  rewrite <- Hsame in Hstored.
  (* the last call finds it *)
  pose proof (check_exact_duplicate second k v' exp' wc Hk2 Hk Hstored ltac:(lia)) as Hdup.
  destruct (_decide_returns second "NEVER" 0.0%float (exact_duplicate_reason k)
              (Some "dedup_check") false false (set_ticks S wc)) as (d & w' & Hdecide).
  exists d, w'. split.
  - unfold PrioritizationEngine.evaluate at 1. unfold bind. rewrite Hrun2, Hdup.
    replace (truthy_str (Some (exact_duplicate_reason k))) with true by reflexivity.
    exact Hdecide.
  - apply _decide_fields in Hdecide as (Hrm & Hai & Hfb & _ & _ & Hnet).
    split; [exact Hrm |]. split; [exact Hai |]. split; [exact Hfb |].
    split; intros Hurgent; rewrite Hurgent in Hnet; simpl in Hnet; tauto.
Qed.

Section DuplicateExamples.

#[local] Existing Instance UtcHost.platform.

(** C3 on the message sent to a fresh engine, then an update and the
    message once more, then the message again. *)
Lemma exact_duplicate_suppressed_witness :
  exists d w',
    PrioritizationEngine.evaluate sarah
      (evaluate_all [numbered "update" 1; sarah]
         (snd (PrioritizationEngine.evaluate sarah (frozen_world demo_start)))) = (Ok d, w')
    /\ rule_matched d = Some "dedup_check"
    /\ action d = "NEVER" /\ score d = 0.0%float
    /\ reason d = exact_duplicate_reason "msg_sarah_001".
Proof.
  destruct (exact_duplicate_suppressed sarah sarah "msg_sarah_001"
              [numbered "update" 1; sarah] (frozen_world demo_start))
    as (d & w' & Hrun & Hrule & _ & _ & Hplain & _).
  - apply frozen_clock_monotone.
  - reflexivity.
  - reflexivity.
  - discriminate.
  - reflexivity.
  - reflexivity.
  - intros v exp Hstored. discriminate Hstored.
  - vm_compute. reflexivity.
  - apply Z.leb_le. vm_compute. reflexivity.
  - exists d, w'. split; [exact Hrun |]. split; [exact Hrule |]. apply Hplain. reflexivity.
Defined.

(** C3 as stated fails in three ways.  A critical event sent twice with the
    same key: the second decision is NOW, by the safety net.  Two messages
    whose key is the empty string: the second is scored like any other
    event.  A second event that has expired: it is settled by the expiry
    check, before the duplicate check. *)
Lemma exact_duplicate_counterexample :
  fst (PrioritizationEngine.evaluate
         (with_dedupe_key (plain_event "u1" "alert" "push" (Some "critical") (Some "Disk full")) "k1")
         (snd (PrioritizationEngine.evaluate
                 (with_dedupe_key (plain_event "u1" "alert" "push" (Some "critical")
                                               (Some "Disk full")) "k1")
                 (frozen_world demo_start))))
  = Ok (mk_decision "evt-0001" "u1" "NOW" 0.9
          "[SAFETY NET] High-priority event cannot be suppressed. Original: Exact duplicate — dedupe_key 'k1' already seen in last 24h"
          (Some "dedup_check") false false demo_start None)
  /\ fst (PrioritizationEngine.evaluate
            (with_dedupe_key (plain_event "u1" "message" "push" (Some "medium") (Some "Lunch?")) "")
            (snd (PrioritizationEngine.evaluate
                    (with_dedupe_key (plain_event "u1" "message" "push" (Some "medium")
                                                  (Some "Hello")) "")
                    (frozen_world demo_start))))
     = Ok (mk_decision "evt-0001" "u1" "LATER" 0.7 "[AI] Score 0.70: event_type='message'"
             None true false demo_start None)
  /\ fst (PrioritizationEngine.evaluate
            (with_expires_at
               (with_dedupe_key (plain_event "u1" "message" "push" (Some "low") (Some "Hello")) "k2")
               "2020-01-01T00:00:00Z")
            (snd (PrioritizationEngine.evaluate
                    (with_dedupe_key (plain_event "u1" "message" "push" (Some "low")
                                                  (Some "Hello")) "k2")
                    (frozen_world demo_start))))
     = Ok (mk_decision "evt-0001" "u1" "NEVER" 0 "Event expired before processing"
             None false false demo_start None).
Proof. split; [| split]; vm_compute; reflexivity. Qed.

End DuplicateExamples.

(** ** store.py: FrequencyChecker.check_frequency *)

Section Frequency.

Context `{Platform}.

Lemma cap_window_hour (type : string) :
  cap_window (dict_get FrequencyChecker.CAPS type FrequencyChecker.default_cap) = 3600.
Proof.
  unfold FrequencyChecker.CAPS. simpl.
  repeat match goal with |- context [if ?b then _ else _] => destruct b end; reflexivity.
Qed.

Lemma hourly_cap_positive (type : string) : 0 < hourly_cap type.
Proof.
  unfold hourly_cap, FrequencyChecker.CAPS. simpl.
  repeat match goal with |- context [if ?b then _ else _] => destruct b end; simpl; lia.
Qed.

(** The frequency check at a live counter: one more event in the window. *)
Lemma check_frequency_live (event : NotificationEvent) (w : World) (c exp : Z) :
  w_counters w !! freq_key_of event = Some (c, exp) ->
  now w <= exp ->
  FrequencyChecker.check_frequency event w =
    (Ok (if hourly_cap (event_type event) <? c + 1
         then Some (frequency_reason (event_type event) (c + 1)) else None),
     set_counters <[freq_key_of event := (c + 1, exp)]> (set_ticks S w)).
Proof.
  intros Hk Hlive. unfold FrequencyChecker.check_frequency, bind.
  fold (freq_key_of event).
  rewrite (incr_live _ _ _ c exp Hk Hlive).
  fold (hourly_cap (event_type event)).
  destruct (hourly_cap (event_type event) <? c + 1); reflexivity.
Qed.

(** The frequency check without a live counter: a new window of one hour. *)
Lemma check_frequency_fresh (event : NotificationEvent) (w : World)
      (r : Result (option string)) (w' : World) :
  (forall c exp, w_counters w !! freq_key_of event = Some (c, exp) -> exp < now w) ->
  clock_monotone w ->
  FrequencyChecker.check_frequency event w = (r, w') ->
  exists exp, w_counters w' !! freq_key_of event = Some (1, exp)
              /\ now w + seconds 3600 <= exp.
Proof.
  intros Hfresh Hmono. unfold FrequencyChecker.check_frequency, bind.
  fold (freq_key_of event). rewrite cap_window_hour.
  destruct (w_counters w !! freq_key_of event) as [[c exp] |] eqn:Hk.
  - rewrite (incr_expired _ _ _ c exp Hk (Hfresh c exp eq_refl)).
    destruct (_ <? 1); intros [= _ <-]; simpl;
      (eexists; split; [apply lookup_insert_eq |]);
      unfold now_after, now; pose proof (Hmono (w_ticks w) (1 + w_ticks w)%nat ltac:(lia));
      lia.
  - rewrite (incr_absent _ _ _ Hk).
    destruct (_ <? 1); intros [= _ <-]; simpl;
      (eexists; split; [apply lookup_insert_eq | lia]).
Qed.

(** After the frequency check, [after_rules] leaves the frequency counter
    alone. *)
Lemma after_rules_tail (event : NotificationEvent) (rr : option (string * string * string))
      (w : World) (freq : option string) (w4 : World) (r : Result Decision) (w' : World) :
  FrequencyChecker.check_frequency event w = (Ok freq, w4) ->
  PrioritizationEngine.after_rules event rr w = (r, w') ->
  keeps (counter_at (freq_key_of event)) w4 w' /\ keeps the_clock w4 w'.
Proof.
  intros Hfreq. unfold PrioritizationEngine.after_rules, bind at 1. rewrite Hfreq.
  intros Hrun. split; revert Hrun.
  - pose proof (check_daily_cap_keeps (counter_at (freq_key_of event)) event
                  ltac:(intros s; unfold freq_key_of; keys_differ)).
    pose proof (score_and_merge_keeps (counter_at (freq_key_of event)) event rr
                  ltac:(discriminate) ltac:(discriminate)).
    pose proof (fun x s r rm ai fb =>
                  _decide_keeps (counter_at (freq_key_of event)) event x s r rm ai fb
                                ltac:(discriminate)).
    generalize w4 r w'. change (respects (keeps (counter_at (freq_key_of event)))
      (bind (FrequencyChecker.check_daily_cap event) (fun daily_reason =>
         let is_high_priority := is_urgent (priority_hint event) in
         if truthy_str freq && negb is_high_priority then
           if String.eqb (event_type event) "promotion"
              || String.eqb (event_type event) "system_event"
           then PrioritizationEngine._decide event "NEVER" 0.1 (or_empty freq)
                  (Some "frequency_cap") false false
           else PrioritizationEngine._decide event "LATER" 0.3
                  (or_empty freq ++ " — batched to digest")
                  (Some "frequency_cap") false false
         else if truthy_str daily_reason && negb is_high_priority then
           PrioritizationEngine._decide event "LATER" 0.3
             (or_empty daily_reason ++ " — batched to digest")
             (Some "daily_cap") false false
         else PrioritizationEngine.score_and_merge event rr))).
    frame.
  - pose proof (check_daily_cap_keeps the_clock event ltac:(intros; discriminate)).
    pose proof (score_and_merge_keeps the_clock event rr
                  ltac:(discriminate) ltac:(discriminate)).
    pose proof (fun x s r rm ai fb =>
                  _decide_keeps the_clock event x s r rm ai fb ltac:(discriminate)).
    generalize w4 r w'. change (respects (keeps the_clock)
      (bind (FrequencyChecker.check_daily_cap event) (fun daily_reason =>
         let is_high_priority := is_urgent (priority_hint event) in
         if truthy_str freq && negb is_high_priority then
           if String.eqb (event_type event) "promotion"
              || String.eqb (event_type event) "system_event"
           then PrioritizationEngine._decide event "NEVER" 0.1 (or_empty freq)
                  (Some "frequency_cap") false false
           else PrioritizationEngine._decide event "LATER" 0.3
                  (or_empty freq ++ " — batched to digest")
                  (Some "frequency_cap") false false
         else if truthy_str daily_reason && negb is_high_priority then
           PrioritizationEngine._decide event "LATER" 0.3
             (or_empty daily_reason ++ " — batched to digest")
             (Some "daily_cap") false false
         else PrioritizationEngine.score_and_merge event rr))).
    frame.
Qed.

End Frequency.

Section Window.

Context `{Platform}.

(** One more event reaches the frequency check: the window counts it. *)
Lemma evaluate_counts (event : NotificationEvent) (w : World) (t : Z) (n : nat) :
  clock_monotone w ->
  (exists rr w3, reaches_fatigue_gate event w rr w3) ->
  window_state (freq_key_of event) t n w ->
  now (snd (PrioritizationEngine.evaluate event w)) <= t ->
  window_state (freq_key_of event) t (S n) (snd (PrioritizationEngine.evaluate event w)).
Proof.
  intros Hmono (rr & w3 & Hgate) Hstate.
  rewrite (reaches_fatigue_gate_run event w rr w3 Hgate).
  destruct (PrioritizationEngine.after_rules event rr w3) as [r w'] eqn:Hafter.
  simpl. intros Hend.
  pose proof (reaches_fatigue_gate_keeps event (counter_at (freq_key_of event)) w rr w3
                ltac:(intros; discriminate) Hgate) as Hcount3.
  pose proof (reaches_fatigue_gate_keeps event the_clock w rr w3
                ltac:(intros; discriminate) Hgate) as Hclock3.
  simpl in Hcount3.
  pose proof (clock_monotone_kept _ _ Hclock3 Hmono) as Hmono3.
  destruct (check_frequency_returns event w3) as (freq & w4 & Hfreq).
  destruct (after_rules_tail event rr w3 freq w4 r w' Hfreq Hafter) as [Hcount4 Hclock4].
  simpl in Hcount4.
  pose proof (check_frequency_keeps the_clock event ltac:(discriminate) _ _ _ Hfreq)
    as Hclock34.
  assert (Hnow3 : now w3 <= t).
  { etransitivity; [| exact Hend].
    apply now_le_later; [exact Hmono3 |].
    eapply keeps_trans; eassumption. }
  destruct n as [| m].
  - destruct Hstate as [Hfresh Hwindow].
    pose proof (now_le_later _ _ Hmono Hclock3) as Hnow.
    assert (Hfresh3 : forall c exp,
               w_counters w3 !! freq_key_of event = Some (c, exp) -> exp < now w3).
    { intros c exp Hk. rewrite Hcount3 in Hk. specialize (Hfresh c exp Hk). lia. }
    destruct (check_frequency_fresh event w3 _ _ Hfresh3 Hmono3 Hfreq)
      as (exp & Hexp & Hlast).
    exists exp. split; [rewrite Hcount4; exact Hexp | lia].
  - destruct Hstate as (exp & Hk & Hlast).
    rewrite <- Hcount3 in Hk.
    rewrite (check_frequency_live event w3 _ exp Hk ltac:(lia)) in Hfreq.
    injection Hfreq as _ <-. simpl in Hcount4.
    rewrite lookup_insert_eq in Hcount4.
    exists exp. split; [| exact Hlast].
    rewrite Hcount4. do 2 f_equal. lia.
Qed.

(** An event that does not pass steps 1 to 3 touches no counter. *)
Lemma uncounted_keeps (event : NotificationEvent) (key : string) (w : World)
      (r : Result Decision) (w' : World) :
  passes_early_gates event w = false ->
  PrioritizationEngine.evaluate event w = (r, w') ->
  keeps (counter_at key) w w'.
Proof.
  intros Hfails. unfold passes_early_gates in Hfails.
  pose proof (fun x s rs rm ai fb =>
                _decide_keeps (counter_at key) event x s rs rm ai fb ltac:(discriminate))
    as Hdecide.
  unfold PrioritizationEngine.evaluate, bind at 1.
  destruct (is_expired event w) as [[expired | ex] w1] eqn:Hexp; cbn [fst snd] in Hfails.
  - pose proof (is_expired_keeps (counter_at key) _ _ _ _ Hexp) as Hkept1.
    destruct expired.
    + intros Hrun. eapply keeps_trans; [exact Hkept1 | exact (Hdecide _ _ _ _ _ _ _ _ _ Hrun)].
    + unfold bind at 1.
      destruct (DedupChecker.check event w1) as [[dup | ex] w2] eqn:Hdup;
        cbn [fst snd] in Hfails.
      * pose proof (check_keeps (counter_at key) event ltac:(discriminate) _ _ _ Hdup)
          as Hkept2.
        pose proof (keeps_trans _ _ _ _ Hkept1 Hkept2) as Hkept.
        destruct (truthy_str dup).
        { intros Hrun. eapply keeps_trans; [exact Hkept | exact (Hdecide _ _ _ _ _ _ _ _ _ Hrun)]. }
        unfold bind at 1, RulesEngine.evaluate, bind, get_world.
        destruct (RulesEngine.evaluate_rules (w_rules w2) event) as [rr | ex].
        -- cbn [negb andb] in Hfails. apply negb_false_iff in Hfails.
           destruct rr as [[[ract rreason] rname] |]; [| discriminate Hfails].
           cbn [rule_settles] in Hfails. cbn [ret].
           destruct (String.eqb ract "NOW").
           { intros Hrun. eapply keeps_trans; [exact Hkept | exact (Hdecide _ _ _ _ _ _ _ _ _ Hrun)]. }
           cbn [orb] in Hfails. rewrite Hfails.
           intros Hrun. eapply keeps_trans; [exact Hkept | exact (Hdecide _ _ _ _ _ _ _ _ _ Hrun)].
        -- intros [= _ <-]. exact Hkept.
      * intros [= _ <-].
        eapply keeps_trans; [exact Hkept1 |].
        exact (check_keeps (counter_at key) event ltac:(discriminate) _ _ _ Hdup).
  - intros [= _ <-]. exact (is_expired_keeps (counter_at key) _ _ _ _ Hexp).
Qed.

(** An event counted under another key leaves the counter alone. *)
Lemma other_key_keeps (event : NotificationEvent) (other : NotificationEvent) :
  freq_key_of other <> freq_key_of event ->
  respects (keeps (counter_at (freq_key_of event))) (PrioritizationEngine.evaluate other).
Proof.
  intros Hne.
  assert (counter_at (freq_key_of event) <> the_breaker) as Hb by discriminate.
  assert (counter_at (freq_key_of event) <> the_log) as Hl by discriminate.
  pose proof (fun x s rs rm ai fb =>
                _decide_keeps (counter_at (freq_key_of event)) other x s rs rm ai fb Hl).
  pose proof (fun rr => score_and_merge_keeps (counter_at (freq_key_of event)) other rr Hb Hl).
  pose proof (is_expired_keeps (counter_at (freq_key_of event)) other).
  pose proof (check_keeps (counter_at (freq_key_of event)) other ltac:(discriminate)).
  pose proof (rules_evaluate_keeps (counter_at (freq_key_of event)) other).
  assert (respects (keeps (counter_at (freq_key_of event)))
                   (FrequencyChecker.check_frequency other)).
  { apply check_frequency_keeps. fold (freq_key_of other). congruence. }
  assert (respects (keeps (counter_at (freq_key_of event)))
                   (FrequencyChecker.check_daily_cap other)).
  { apply check_daily_cap_keeps. intros s Hbad. injection Hbad as Hbad.
    unfold freq_key_of in Hbad.
    revert Hbad. generalize (user_id event ++ ":" ++ event_type event). intros rest Hbad.
    cbv in Hbad. discriminate Hbad. }
  unfold PrioritizationEngine.evaluate, PrioritizationEngine.after_rules. frame.
Qed.

(** The window is as it was after an event it does not count. *)
Lemma window_state_kept (key : string) (t : Z) (n : nat) (w w' : World) :
  clock_monotone w -> keeps the_clock w w' -> keeps (counter_at key) w w' ->
  window_state key t n w -> window_state key t n w'.
Proof.
  intros Hmono Hclock Hcount Hstate. cbn in Hcount.
  pose proof (now_le_later _ _ Hmono Hclock) as Hnow.
  destruct n as [| m]; cbn [window_state] in *.
  - destruct Hstate as [Hfresh Hwindow]. split; [| lia].
    intros c exp Hk. rewrite Hcount in Hk. specialize (Hfresh c exp Hk). lia.
  - destruct Hstate as (exp & Hk & Hlast). exists exp. split; [congruence | exact Hlast].
Qed.

(** Whatever is evaluated, the window holds the events counted under its
    key. *)
Lemma evaluate_all_counts (event : NotificationEvent) (t : Z)
      (events : list NotificationEvent) :
  forall (w : World) (n : nat),
    clock_monotone w ->
    window_state (freq_key_of event) t n w ->
    now (evaluate_all events w) <= t ->
    window_state (freq_key_of event) t
                 (counted_under (freq_key_of event) events w + n) (evaluate_all events w).
Proof.
  induction events as [| e rest IH]; intros w n Hmono Hstate Hend.
  - exact Hstate.
  - cbn [evaluate_all counted_under] in *.
    assert (Hclock : keeps the_clock w (snd (PrioritizationEngine.evaluate e w))).
    { apply (evaluate_keeps the_clock e ltac:(discriminate) ltac:(discriminate)
               ltac:(intros; discriminate) ltac:(intros; discriminate)
               w (fst (PrioritizationEngine.evaluate e w))).
      apply surjective_pairing. }
    pose proof (clock_monotone_kept _ _ Hclock Hmono) as Hmono1.
    assert (now (snd (PrioritizationEngine.evaluate e w)) <= t) as Hend1.
    { etransitivity; [| exact Hend].
      apply now_le_later; [exact Hmono1 | apply evaluate_all_keeps_clock]. }
    destruct (String.eqb_spec (freq_key_of e) (freq_key_of event)) as [Hkey | Hkey].
    + destruct (passes_early_gates e w) eqn:Hpasses; cbn [andb].
      * replace (1 + counted_under (freq_key_of event) rest
                       (snd (PrioritizationEngine.evaluate e w)) + n)%nat
          with (counted_under (freq_key_of event) rest
                  (snd (PrioritizationEngine.evaluate e w)) + S n)%nat by lia.
        apply IH; try assumption.
        rewrite <- Hkey in *. apply evaluate_counts; try assumption.
        apply passes_early_gates_sound. exact Hpasses.
      * apply IH; try assumption.
        apply (window_state_kept _ _ _ w); try assumption.
        apply (uncounted_keeps e _ w (fst (PrioritizationEngine.evaluate e w)));
          [exact Hpasses | apply surjective_pairing].
    + cbn [andb]. apply IH; try assumption.
      apply (window_state_kept _ _ _ w); try assumption.
      apply (other_key_keeps event e Hkey w (fst (PrioritizationEngine.evaluate e w))).
      apply surjective_pairing.
Qed.

End Window.

(** C4, as the code has it.  Let an event type have the hourly cap M.  From
    a world in which the counter of a user and that type is absent or has
    expired, on a clock that never runs backwards, any events are evaluated,
    for any users and of any types; among them at least M are counted by the
    frequency check under that counter: they are for that user and of that
    type, and each was not expired, not a duplicate, and matched no NOW or
    NEVER rule.  A further event of that type and user that reaches the
    frequency check, with a [priority_hint] that is neither "critical" nor
    "high", and whose evaluation ends within 3600 seconds of the start, is
    settled by the cap: LATER with score 0.3 and the reason batched to the
    digest, or NEVER with score 0.1 for the types "promotion" and
    "system_event"; [rule_matched] is "frequency_cap", and the count in the
    reason is the number counted before plus one. *)
Theorem frequency_cap_defers `{Platform}
        (traffic : list NotificationEvent) (event : NotificationEvent) (w : World) :
  clock_monotone w ->
  (forall c exp, w_counters w !! freq_key_of event = Some (c, exp) -> exp < now w) ->
  hourly_cap (event_type event)
  <= Z.of_nat (counted_under (freq_key_of event) traffic w) ->
  (exists rr w3, reaches_fatigue_gate event (evaluate_all traffic w) rr w3) ->
  is_urgent (priority_hint event) = false ->
  now (snd (PrioritizationEngine.evaluate event (evaluate_all traffic w)))
  <= now w + seconds 3600 ->
  exists d w',
    PrioritizationEngine.evaluate event (evaluate_all traffic w) = (Ok d, w')
    /\ rule_matched d = Some "frequency_cap"
    /\ ai_used d = false /\ fallback_mode d = false
    /\ if String.eqb (event_type event) "promotion"
          || String.eqb (event_type event) "system_event"
       then action d = "NEVER" /\ score d = 0.1%float
            /\ reason d
               = frequency_reason (event_type event)
                   (Z.of_nat (counted_under (freq_key_of event) traffic w) + 1)
       else action d = "LATER" /\ score d = 0.3%float
            /\ reason d
               = frequency_reason (event_type event)
                   (Z.of_nat (counted_under (freq_key_of event) traffic w) + 1)
                 ++ " — batched to digest".
Proof.
  intros Hmono Hfresh Hcap (rr & w3 & Hgate) Hcalm Hend.
  set (wM := evaluate_all traffic w) in *.
  set (t := now w + seconds 3600) in *.
  pose proof (evaluate_all_keeps_clock traffic w) as HclockM. fold wM in HclockM.
  pose proof (clock_monotone_kept _ _ HclockM Hmono) as HmonoM.
  assert (HclockE : keeps the_clock wM (snd (PrioritizationEngine.evaluate event wM))).
  { apply (evaluate_keeps the_clock event ltac:(discriminate) ltac:(discriminate)
             ltac:(intros; discriminate) ltac:(intros; discriminate)
             wM (fst (PrioritizationEngine.evaluate event wM))).
    apply surjective_pairing. }
  (* the traffic fills the window *)
  assert (Hstate : window_state (freq_key_of event) t
                     (counted_under (freq_key_of event) traffic w + 0) wM).
  { apply evaluate_all_counts; try assumption.
    - split; [exact Hfresh | unfold t; lia].
    - etransitivity; [| exact Hend]. apply now_le_later; assumption. }
  pose proof (hourly_cap_positive (event_type event)) as Hpos.
  destruct (counted_under (freq_key_of event) traffic w) as [| m] eqn:Hlen;
    [simpl in Hcap; lia |].
  rewrite Nat.add_0_r in Hstate. destruct Hstate as (exp & Hk & Hlast).
  (* the event meets a full window *)
  rewrite (reaches_fatigue_gate_run event wM rr w3 Hgate) in *.
  pose proof (reaches_fatigue_gate_keeps event (counter_at (freq_key_of event)) wM rr w3
                ltac:(intros; discriminate) Hgate) as Hcount3.
  pose proof (reaches_fatigue_gate_keeps event the_clock wM rr w3
                ltac:(intros; discriminate) Hgate) as Hclock3.
  simpl in Hcount3. rewrite <- Hcount3 in Hk.
  pose proof (clock_monotone_kept _ _ Hclock3 HmonoM) as Hmono3.
  destruct (PrioritizationEngine.after_rules event rr w3) as [r w'] eqn:Hafter.
  simpl in Hend.
  destruct (check_frequency_returns event w3) as (freq & w4 & Hfreq).
  destruct (after_rules_tail event rr w3 freq w4 r w' Hfreq Hafter) as [_ Hclock4].
  pose proof (check_frequency_keeps the_clock event ltac:(discriminate) _ _ _ Hfreq)
    as Hclock34.
  assert (Hnow3 : now w3 <= exp).
  { etransitivity; [| exact Hlast]. etransitivity; [| exact Hend].
    apply now_le_later; [exact Hmono3 |]. eapply keeps_trans; eassumption. }
  rewrite (check_frequency_live event w3 _ exp Hk Hnow3) in Hfreq.
  destruct (Z.ltb_spec (hourly_cap (event_type event)) (Z.of_nat (S m) + 1)); [| lia].
  injection Hfreq as <- <-.
  revert Hafter. unfold PrioritizationEngine.after_rules, bind at 1.
  rewrite (check_frequency_live event w3 _ exp Hk Hnow3).
  destruct (Z.ltb_spec (hourly_cap (event_type event)) (Z.of_nat (S m) + 1)); [| lia].
  unfold bind at 1.
  match goal with
  | |- context [FrequencyChecker.check_daily_cap event ?w0] =>
      destruct (check_daily_cap_returns event w0) as (daily & w5 & ->)
  end.
  rewrite Hcalm.
  replace (truthy_str (Some (frequency_reason (event_type event) (Z.of_nat (S m) + 1))))
    with true by reflexivity.
  replace (or_empty (Some (frequency_reason (event_type event) (Z.of_nat (S m) + 1))))
    with (frequency_reason (event_type event) (Z.of_nat (S m) + 1)) by reflexivity.
  change (true && negb false) with true. cbv iota.
  destruct (String.eqb (event_type event) "promotion"
            || String.eqb (event_type event) "system_event");
    intros Hdecide;
    match type of Hdecide with
    | PrioritizationEngine._decide ?e ?a ?s ?rs ?rm ?ai ?fb ?w0 = _ =>
        destruct (_decide_returns e a s rs rm ai fb w0) as (d & w'' & Hrun)
    end;
    rewrite Hrun in Hdecide; injection Hdecide as <- <-;
    exists d, w''; (split; [reflexivity |]);
    apply _decide_fields in Hrun as (Hrm & Hai & Hfb & _ & _ & Hnet);
    rewrite Hcalm, andb_false_r in Hnet;
    (split; [exact Hrm |]); (split; [exact Hai |]); (split; [exact Hfb | exact Hnet]).
Qed.

Section FrequencyExamples.

#[local] Existing Instance UtcHost.platform.

(** C4 on the updates of the demonstration, sent among other events: five
    fill the cap of 5 per hour, the sixth is batched to the digest. *)
Lemma frequency_cap_defers_witness :
  exists d w',
    PrioritizationEngine.evaluate (numbered "update" 6)
      (evaluate_all [numbered "update" 1; sarah; numbered "update" 2; numbered "update" 3;
                     login_alert; numbered "update" 4; numbered "promotion" 1;
                     numbered "update" 5]
                    (frozen_world demo_start)) = (Ok d, w')
    /\ rule_matched d = Some "frequency_cap"
    /\ action d = "LATER" /\ score d = 0.3%float
    /\ reason d
       = "Frequency cap exceeded (6/5 'update' events in last hour) — batched to digest".
Proof.
  destruct (frequency_cap_defers
              [numbered "update" 1; sarah; numbered "update" 2; numbered "update" 3;
               login_alert; numbered "update" 4; numbered "promotion" 1;
               numbered "update" 5]
              (numbered "update" 6) (frozen_world demo_start))
    as (d & w' & Hrun & Hrule & _ & _ & Hcap).
  - apply frozen_clock_monotone.
  - intros c exp Hk. discriminate Hk.
  - apply Z.leb_le. vm_compute. reflexivity.
  - apply passes_early_gates_sound. vm_compute. reflexivity.
  - reflexivity.
  - apply Z.leb_le. vm_compute. reflexivity.
  - exists d, w'. split; [exact Hrun |]. split; [exact Hrule |].
    vm_compute in Hcap. exact Hcap.
Defined.

(** C4 as stated fails on event types that a rule settles and on duplicates.
    The type "security_alert" has the cap 8 per hour, and the ninth
    low-priority security alert is sent NOW by the rule that precedes the
    frequency check.  The type "update" has the cap 5, and the sixth copy of
    one update is suppressed as a near-duplicate, not deferred. *)
Lemma frequency_cap_counterexample :
  hourly_cap "security_alert" = 8
  /\ fst (PrioritizationEngine.evaluate (numbered "security_alert" 9)
            (evaluate_all (map (numbered "security_alert") [1; 2; 3; 4; 5; 6; 7; 8])
                          (frozen_world demo_start)))
     = Ok (mk_decision "evt-0001" "user_003" "NOW" 1 "Security alerts always sent immediately"
             (Some "always_send_security_alerts") false false demo_start None)
  /\ hourly_cap "update" = 5
  /\ fst (PrioritizationEngine.evaluate (numbered "update" 1)
            (evaluate_all (map (numbered "update") [1; 1; 1; 1; 1]) (frozen_world demo_start)))
     = Ok (mk_decision "evt-0001" "user_003" "NEVER" 0
             "Near-duplicate detected — very similar content sent in last 1h"
             (Some "dedup_check") false false demo_start None).
Proof. split; [| split; [| split]]; vm_compute; reflexivity. Qed.

End FrequencyExamples.

(** * Further properties of the code *)

(** ** store.py: what is written can be read back *)

Section StoreReads.

Variables (key : string) (w : World).

Lemma get_absent :
  w_store w !! key = None -> InMemoryStore.get key w = (Ok None, w).
Proof.
  intros Hk. unfold InMemoryStore.get, bind, get_world. rewrite Hk. reflexivity.
Qed.

Lemma get_present (v : string) (exp : Z) :
  w_store w !! key = Some (v, exp) ->
  InMemoryStore.get key w = (Ok (until exp (now w) (Some v) None), set_ticks S w).
Proof.
  intros Hk. unfold InMemoryStore.get, bind, get_world. rewrite Hk.
  unfold InMemoryStore._is_expired, bind, time_time, ret, until, now. simpl.
  destruct (exp <? w_clock w (w_ticks w)); reflexivity.
Qed.

Lemma get_count_absent :
  w_counters w !! key = None -> InMemoryStore.get_count key w = (Ok 0, w).
Proof.
  intros Hk. unfold InMemoryStore.get_count, bind, get_world. rewrite Hk. reflexivity.
Qed.

Lemma get_count_present (n exp : Z) :
  w_counters w !! key = Some (n, exp) ->
  InMemoryStore.get_count key w = (Ok (until exp (now w) n 0), set_ticks S w).
Proof.
  intros Hk. unfold InMemoryStore.get_count, bind, get_world. rewrite Hk.
  unfold InMemoryStore._is_expired, bind, time_time, ret, until, now. simpl.
  destruct (exp <? w_clock w (w_ticks w)); reflexivity.
Qed.

End StoreReads.

(** What [set_nx] leaves under the key, by its answer. *)
Lemma set_nx_entry (key value : string) (ttl : Z) (w : World) (b : bool) (w' : World) :
  InMemoryStore.set_nx key value ttl w = (Ok b, w') ->
  if b
  then exists t, (t = now w \/ t = now_after 1 w)
                 /\ w_store w' !! key = Some (value, t + seconds ttl)
  else exists old exp, w_store w !! key = Some (old, exp) /\ now w <= exp
                       /\ w_store w' = w_store w.
Proof.
  intros Hrun. destruct (w_store w !! key) as [[old exp] |] eqn:Hk.
  - destruct (Z.ltb_spec exp (now w)) as [Hlt | Hge].
    + rewrite (set_nx_expired key value ttl w old exp Hk Hlt) in Hrun.
      injection Hrun as <- <-. exists (now_after 1 w). split; [now right |].
      simpl. apply lookup_insert_eq.
    + rewrite (set_nx_live key value ttl w old exp Hk Hge) in Hrun.
      injection Hrun as <- <-. exists old, exp. repeat split; assumption.
  - rewrite (set_nx_absent key value ttl w Hk) in Hrun.
    injection Hrun as <- <-. exists (now w). split; [now left |].
    simpl. apply lookup_insert_eq.
Qed.

(** X1.  [set_nx] answers False only over a live entry, which it leaves as
    it is, and otherwise stores the value with an expiry [ttl] seconds after
    a reading of the clock; whichever entry is under the key afterwards,
    [get] returns its value until the clock has passed its expiry and None
    from then on. *)
Theorem set_nx_then_get (key value : string) (ttl : Z) (w : World) (b : bool) (w' : World) :
  InMemoryStore.set_nx key value ttl w = (Ok b, w') ->
  exists v exp,
    w_store w' !! key = Some (v, exp)
    /\ (if b
        then v = value /\ (exp = now w + seconds ttl \/ exp = now_after 1 w + seconds ttl)
        else w_store w !! key = Some (v, exp) /\ now w <= exp /\ w_store w' = w_store w)
    /\ forall w2, w_store w2 !! key = Some (v, exp) ->
         InMemoryStore.get key w2
         = (Ok (if exp <? now w2 then None else Some v), set_ticks S w2).
Proof.
  intros Hrun. apply set_nx_entry in Hrun. destruct b.
  - destruct Hrun as (t & Ht & Hk). exists value, (t + seconds ttl).
    split; [exact Hk |]. split.
    + split; [reflexivity |]. destruct Ht as [-> | ->]; [now left | now right].
    + intros w2 Hk2. exact (get_present key w2 value _ Hk2).
  - destruct Hrun as (old & exp & Hk & Hlive & Hsame). exists old, exp.
    split; [rewrite Hsame; exact Hk |]. split.
    + repeat split; assumption.
    + intros w2 Hk2. exact (get_present key w2 old exp Hk2).
Qed.

Lemma set_nx_then_get_witness :
  exists v exp,
    w_store (snd (InMemoryStore.set_nx "dedup:u1:k" "evt-1" 60 (frozen_world demo_start)))
      !! "dedup:u1:k" = Some (v, exp)
    /\ (v = "evt-1"
        /\ (exp = now (frozen_world demo_start) + seconds 60
            \/ exp = now_after 1 (frozen_world demo_start) + seconds 60))
    /\ forall w2, w_store w2 !! "dedup:u1:k" = Some (v, exp) ->
         InMemoryStore.get "dedup:u1:k" w2
         = (Ok (if exp <? now w2 then None else Some v), set_ticks S w2).
Proof.
  apply (set_nx_then_get "dedup:u1:k" "evt-1" 60 (frozen_world demo_start) true).
  vm_compute. reflexivity.
Defined.

(** X2.  The count [incr] returns is the one stored under the key, and
    [get_count] reads it back until the clock has passed the expiry of the
    window, and 0 from then on; for a key that has no counter [get_count]
    is 0 and does not read the clock. *)
Theorem incr_then_get_count (key : string) (ttl : Z) (w : World) :
  (forall n w', InMemoryStore.incr key ttl w = (Ok n, w') ->
     exists exp,
       w_counters w' !! key = Some (n, exp)
       /\ forall w2, w_counters w2 !! key = Some (n, exp) ->
            InMemoryStore.get_count key w2
            = (Ok (if exp <? now w2 then 0 else n), set_ticks S w2))
  /\ (w_counters w !! key = None -> InMemoryStore.get_count key w = (Ok 0, w)).
Proof.
  split; [| apply get_count_absent].
  intros n w' Hrun.
  assert (exists exp, w_counters w' !! key = Some (n, exp)) as (exp & Hk').
  { destruct (w_counters w !! key) as [[old exp] |] eqn:Hk.
    - destruct (Z.ltb_spec exp (now w)) as [Hlt | Hge].
      + rewrite (incr_expired key ttl w old exp Hk Hlt) in Hrun.
        injection Hrun as <- <-. eexists. simpl. apply lookup_insert_eq.
      + rewrite (incr_live key ttl w old exp Hk Hge) in Hrun.
        injection Hrun as <- <-. eexists. simpl. apply lookup_insert_eq.
    - rewrite (incr_absent key ttl w Hk) in Hrun.
      injection Hrun as <- <-. eexists. simpl. apply lookup_insert_eq. }
  exists exp. split; [exact Hk' |].
  intros w2 Hk2. exact (get_count_present key w2 n exp Hk2).
Qed.

(** X3.  [push_list] appends to the list of its key only, [get_list]
    returns the values pushed in their order, and the empty list for a key
    nothing was pushed to, without creating it. *)
Theorem push_list_then_get_list (key value : string) (lists : gmap string (list string)) :
  InMemoryStore.get_list key (InMemoryStore.push_list key value lists)
  = (InMemoryStore.get_list key lists ++ [value])%list
  /\ (forall other, other <> key ->
        InMemoryStore.get_list other (InMemoryStore.push_list key value lists)
        = InMemoryStore.get_list other lists)
  /\ (forall values,
        InMemoryStore.get_list key
          (fold_left (fun l v => InMemoryStore.push_list key v l) values ∅)
        = values)
  /\ (lists !! key = None -> InMemoryStore.get_list key lists = []).
Proof.
  unfold InMemoryStore.get_list, InMemoryStore.push_list.
  split; [| split; [| split]].
  - rewrite lookup_insert_eq. reflexivity.
  - intros other Hne. rewrite lookup_insert_ne by congruence. reflexivity.
  - intros values.
    assert (forall (l : gmap string (list string)),
               default [] (fold_left (fun l v =>
                  <[key := (default [] (l !! key) ++ [v])%list]> l) values l !! key)
               = (default [] (l !! key) ++ values)%list) as Hgen.
    { induction values as [| v values IH]; intros l; simpl.
      - symmetry. apply app_nil_r.
      - rewrite IH, lookup_insert_eq. simpl. rewrite <- app_assoc. reflexivity. }
    rewrite Hgen, lookup_empty. reflexivity.
  - intros ->. reflexivity.
Qed.

(** ** rules.py: the order of the rules *)

Section RuleOrder.

Lemma insert_by_priority_perm (rule : Rule) (l : list Rule) :
  Permutation (rule :: l) (RulesEngine.insert_by_priority rule l).
Proof.
  induction l as [| r l IH]; simpl.
  - apply Permutation_refl.
  - destruct (r_priority r <=? r_priority rule).
    + apply Permutation_refl.
    + eapply perm_trans; [apply perm_swap |]. apply perm_skip. exact IH.
Qed.

Lemma sort_by_priority_perm (l : list Rule) :
  Permutation l (RulesEngine.sort_by_priority l).
Proof.
  induction l as [| r l IH]; simpl.
  - apply perm_nil.
  - eapply perm_trans; [apply perm_skip; exact IH |].
    apply insert_by_priority_perm.
Qed.

Lemma insert_by_priority_sorted (rule : Rule) (l : list Rule) :
  StronglySorted by_priority l ->
  StronglySorted by_priority (RulesEngine.insert_by_priority rule l).
Proof.
  induction 1 as [| r l Hsorted IH Hall]; simpl.
  - constructor; constructor.
  - destruct (Z.leb_spec (r_priority r) (r_priority rule)) as [Hle | Hgt].
    + constructor.
      * constructor; assumption.
      * constructor; [exact Hle |].
        eapply List.Forall_impl; [| exact Hall].
        unfold by_priority. intros; lia.
    + constructor; [exact IH |].
      apply (Permutation_Forall (insert_by_priority_perm rule l)).
      constructor; [unfold by_priority; lia | exact Hall].
Qed.

Lemma sort_by_priority_sorted (l : list Rule) :
  StronglySorted by_priority (RulesEngine.sort_by_priority l).
Proof.
  induction l as [| r l IH]; simpl.
  - constructor.
  - apply insert_by_priority_sorted. exact IH.
Qed.

(** A rule is put in front of the rules of its own priority. *)
Lemma insert_by_priority_stable (p : Z) (rule : Rule) (l : list Rule) :
  of_priority p (RulesEngine.insert_by_priority rule l) = of_priority p (rule :: l).
Proof.
  unfold of_priority. induction l as [| r l IH]; [reflexivity |].
  cbn [RulesEngine.insert_by_priority].
  destruct (Z.leb_spec (r_priority r) (r_priority rule)) as [Hle | Hgt]; [reflexivity |].
  cbn [List.filter] in *. rewrite IH.
  destruct (Z.eqb_spec (r_priority rule) p) as [Hrule | Hrule];
    destruct (Z.eqb_spec (r_priority r) p) as [Hr | Hr]; try reflexivity.
  lia.
Qed.

Lemma sort_by_priority_stable (p : Z) (l : list Rule) :
  of_priority p (RulesEngine.sort_by_priority l) = of_priority p l.
Proof.
  induction l as [| r l IH]; [reflexivity |].
  cbn [RulesEngine.sort_by_priority fold_right].
  rewrite insert_by_priority_stable.
  unfold of_priority in *. cbn [List.filter].
  change (fold_right RulesEngine.insert_by_priority [] l)
    with (RulesEngine.sort_by_priority l).
  rewrite IH. reflexivity.
Qed.

(** A rule above all the others comes first. *)
Lemma sort_by_priority_top (rule : Rule) (l : list Rule) :
  Forall (fun r => r_priority r < r_priority rule) l ->
  RulesEngine.sort_by_priority (l ++ [rule]) = rule :: RulesEngine.sort_by_priority l.
Proof.
  induction 1 as [| r l Hr Hall IH]; [reflexivity |].
  cbn [app RulesEngine.sort_by_priority fold_right].
  change (fold_right RulesEngine.insert_by_priority [] (l ++ [rule]))
    with (RulesEngine.sort_by_priority (l ++ [rule])).
  rewrite IH. cbn [RulesEngine.insert_by_priority].
  destruct (Z.leb_spec (r_priority rule) (r_priority r)); [lia | reflexivity].
Qed.

End RuleOrder.

(** X4.  The constructor and [add_rule] leave the rules sorted by priority,
    largest first: the list holds the rules there were and the new ones,
    each once, and the rules of one priority stand in the order they were
    given; [add_rule] returns its rule and changes nothing but the list of
    rules. *)
Theorem rules_stay_sorted :
  (forall loaded,
      StronglySorted by_priority (RulesEngine.init loaded)
      /\ Permutation (DEFAULT_RULES ++ loaded) (RulesEngine.init loaded)
      /\ forall p, of_priority p (RulesEngine.init loaded)
                   = of_priority p (DEFAULT_RULES ++ loaded))
  /\ (forall rule w, exists rules',
        RulesEngine.add_rule rule w = (Ok rule, set_rules (fun _ => rules') w)
        /\ StronglySorted by_priority rules'
        /\ Permutation (w_rules w ++ [rule]) rules'
        /\ forall p, of_priority p rules' = of_priority p (w_rules w ++ [rule])).
Proof.
  split.
  - intros loaded. unfold RulesEngine.init.
    split; [apply sort_by_priority_sorted |].
    split; [apply sort_by_priority_perm |].
    intros p. apply sort_by_priority_stable.
  - intros rule w. exists (RulesEngine.sort_by_priority (w_rules w ++ [rule])).
    split; [reflexivity |].
    split; [apply sort_by_priority_sorted |].
    split; [apply sort_by_priority_perm |].
    intros p. apply sort_by_priority_stable.
Qed.

(** ** rules.py: which rule decides *)

Section RuleMatching.

Context `{Platform}.

Variable event : NotificationEvent.

Lemma _matches_defined (conds : list Condition) :
  forallb (cond_defined event) conds = true ->
  RulesEngine._matches conds event = Ok (forallb (cond_holds event) conds).
Proof.
  induction conds as [| c conds IH]; [reflexivity |].
  cbn [forallb RulesEngine._matches]. intros Hdef.
  apply andb_prop in Hdef as [Hc Hrest]. specialize (IH Hrest).
  unfold cond_defined in Hc. unfold cond_holds.
  destruct (String.eqb_spec (c_op c) "eq") as [Hop | Hop].
  - rewrite Hop in *. cbn in Hc |- *.
    destruct (py_eq _ _); cbn; [exact IH | reflexivity].
  - cbn [andb]. destruct (String.eqb_spec (c_op c) "in") as [Hin | Hin].
    + destruct (RulesEngine.py_in _ _) as [[|] | ex]; cbn;
        [exact IH | reflexivity | discriminate Hc].
    + destruct (String.eqb_spec (c_op c) "neq") as [Hneq | Hneq]; cbn.
      * destruct (py_eq _ _); cbn; [reflexivity | exact IH].
      * exact IH.
Qed.

Lemma evaluate_rules_defined (rules : list Rule) :
  forallb (rule_defined event) rules = true ->
  RulesEngine.evaluate_rules rules event
  = Ok (option_map rule_outcome (List.find (rule_applies event) rules)).
Proof.
  induction rules as [| r rules IH]; [reflexivity |].
  cbn [forallb RulesEngine.evaluate_rules List.find]. intros Hdef.
  apply andb_prop in Hdef as [Hr Hrest].
  rewrite (_matches_defined _ Hr). fold (rule_applies event r).
  destruct (rule_applies event r); [reflexivity | exact (IH Hrest)].
Qed.

Lemma default_rules_defined : forallb (rule_defined event) DEFAULT_RULES = true.
Proof. reflexivity. Qed.

Lemma default_rules_run :
  RulesEngine.evaluate_rules DEFAULT_RULES event = Ok (default_outcome event).
Proof.
  rewrite (evaluate_rules_defined _ default_rules_defined).
  unfold default_outcome, AIScorer.hint_is, DEFAULT_RULES.
  cbn [List.find rule_applies r_conditions forallb].
  unfold cond_holds. cbn.
  destruct (String.eqb (event_type event) "security_alert"); [reflexivity |].
  cbn. destruct (priority_hint event) as [h |]; cbn.
  - destruct (String.eqb h "critical"); [reflexivity |]. cbn.
    destruct (String.eqb (event_type event) "promotion"); cbn.
    + rewrite orb_false_r. destruct (String.eqb h "low"); cbn; [reflexivity |].
      destruct (String.eqb (event_type event) "update"); reflexivity.
    + destruct (String.eqb (event_type event) "update"); reflexivity.
  - destruct (String.eqb (event_type event) "promotion"); cbn; [reflexivity |].
    destruct (String.eqb (event_type event) "update"); reflexivity.
Qed.

End RuleMatching.

(** X5.  Where every membership test of the rules is defined for the event
    (an [in] condition compares with a list, or a string with a string), the
    rules engine returns the action, reason and name of the first rule of
    the list all of whose conditions hold, a condition with an operator
    other than eq, in and neq holding always, and None when there is no such
    rule. *)
Theorem first_matching_rule_decides `{Platform} (event : NotificationEvent) (w : World) :
  forallb (rule_defined event) (w_rules w) = true ->
  RulesEngine.evaluate event w
  = (Ok (option_map rule_outcome (List.find (rule_applies event) (w_rules w))), w).
Proof.
  intros Hdef. unfold RulesEngine.evaluate, bind, get_world.
  rewrite (evaluate_rules_defined event _ Hdef). reflexivity.
Qed.

(** X6.  The default rules never raise, and they decide as follows: a
    security alert is sent NOW; failing that, an event of critical priority
    is sent NOW; failing that, a promotion of low or no priority is NEVER
    sent; failing that, an update is for LATER; no rule matches any other
    event. *)
Theorem default_rules_decide `{Platform} (event : NotificationEvent) (w : World) :
  w_rules w = DEFAULT_RULES ->
  RulesEngine.evaluate event w = (Ok (default_outcome event), w).
Proof.
  intros Hrules. unfold RulesEngine.evaluate, bind, get_world.
  rewrite Hrules, default_rules_run. reflexivity.
Qed.

(** X7.  A rule added with a priority above that of every rule there is
    decides every event its conditions hold of: after [add_rule], the rules
    engine returns that rule's action, reason and name. *)
Theorem added_top_rule_decides `{Platform}
        (rule : Rule) (event : NotificationEvent) (w : World) :
  Forall (fun r => r_priority r < r_priority rule) (w_rules w) ->
  RulesEngine._matches (r_conditions rule) event = Ok true ->
  exists w',
    RulesEngine.add_rule rule w = (Ok rule, w')
    /\ RulesEngine.evaluate event w' = (Ok (Some (rule_outcome rule)), w').
Proof.
  intros Hbelow Hmatch. eexists. split; [reflexivity |].
  unfold RulesEngine.evaluate, bind, get_world. cbn [w_rules set_rules].
  rewrite (sort_by_priority_top rule _ Hbelow).
  cbn [RulesEngine.evaluate_rules]. rewrite Hmatch. reflexivity.
Qed.

Section RuleExamples.

#[local] Existing Instance UtcHost.platform.

Lemma first_matching_rule_decides_witness :
  RulesEngine.evaluate (plain_event "u1" "promotion" "email" None (Some "Sale"))
                       (frozen_world demo_start)
  = (Ok (option_map rule_outcome
           (List.find (rule_applies (plain_event "u1" "promotion" "email" None (Some "Sale")))
                      (w_rules (frozen_world demo_start)))),
     frozen_world demo_start).
Proof.
  apply (first_matching_rule_decides
           (plain_event "u1" "promotion" "email" None (Some "Sale"))
           (frozen_world demo_start)).
  reflexivity.
Defined.

Lemma default_rules_decide_witness :
  RulesEngine.evaluate (plain_event "u1" "update" "email" (Some "low") (Some "Version 2"))
                       (frozen_world demo_start)
  = (Ok (default_outcome (plain_event "u1" "update" "email" (Some "low") (Some "Version 2"))),
     frozen_world demo_start).
Proof.
  apply (default_rules_decide
           (plain_event "u1" "update" "email" (Some "low") (Some "Version 2"))
           (frozen_world demo_start)).
  reflexivity.
Defined.

Lemma added_top_rule_decides_witness :
  exists w',
    RulesEngine.add_rule (mute_user "u7") (frozen_world demo_start)
    = (Ok (mute_user "u7"), w')
    /\ RulesEngine.evaluate
         (plain_event "u7" "security_alert" "push" (Some "low") (Some "New login")) w'
       = (Ok (Some (rule_outcome (mute_user "u7"))), w').
Proof.
  apply (added_top_rule_decides (mute_user "u7")
           (plain_event "u7" "security_alert" "push" (Some "low") (Some "New login"))
           (frozen_world demo_start)).
  - repeat constructor.
  - reflexivity.
Defined.

End RuleExamples.

(** ** audit.py: stats *)

Section Stats.

Lemma dict_get_set {V : Type} (d : list (string * V)) (k k' : string) (v dflt : V) :
  dict_get (AuditLog.dict_set d k v) k' dflt
  = if String.eqb k k' then v else dict_get d k' dflt.
Proof.
  induction d as [| [k0 x] d IH]; cbn [AuditLog.dict_set dict_get].
  - reflexivity.
  - destruct (String.eqb_spec k0 k) as [-> | Hne]; cbn [dict_get].
    + destruct (String.eqb k k'); reflexivity.
    + rewrite IH. destruct (String.eqb_spec k0 k') as [-> | Hne'].
      * destruct (String.eqb_spec k k'); [congruence | reflexivity].
      * reflexivity.
Qed.

Lemma count_action_cons (a : string) (d : Decision) (log : list Decision) :
  count_action a (d :: log)
  = (if String.eqb (action d) a then 1 else 0) + count_action a log.
Proof.
  unfold count_action. cbn [List.filter].
  destruct (String.eqb (action d) a); cbn [List.length]; lia.
Qed.

Lemma tally_counts (a : string) (log : list Decision) :
  forall acc : list (string * Z),
    dict_get (fold_left (fun by_action d =>
                AuditLog.dict_set by_action (action d)
                                  (dict_get by_action (action d) 0 + 1)) log acc) a 0
    = dict_get acc a 0 + count_action a log.
Proof.
  induction log as [| d log IH]; intros acc; cbn [fold_left].
  - unfold count_action. cbn. lia.
  - rewrite IH, dict_get_set, count_action_cons.
    destruct (String.eqb_spec (action d) a) as [-> | Hne]; lia.
Qed.

Lemma count_known (log : list Decision) :
  Forall (fun d => known_action (action d)) log ->
  count_action "NOW" log + count_action "LATER" log + count_action "NEVER" log
  = Z.of_nat (List.length log).
Proof.
  induction 1 as [| d log Hd Hall IH].
  - reflexivity.
  - rewrite !count_action_cons. cbn [List.length].
    destruct Hd as [-> | [-> | ->]]; cbn; lia.
Qed.

End Stats.

(** X8.  [stats] never fails, reads the log without changing anything, and
    counts every decision once: the total is the length of the log, the
    entry of each action (also of one that is not NOW, LATER or NEVER) is the
    number of decisions with that action, and the two rates are the shares of NEVER and LATER in per cent, rounded to
    one place, over a total taken as 1 when the log is empty.  When every
    action in the log is NOW, LATER or NEVER, the three counts add up to the
    total. *)
Theorem stats_counts (w : World) :
  exists s,
    AuditLog.stats w = (Ok s, w)
    /\ AuditLog.total_evaluated s = Z.of_nat (List.length (w_log w))
    /\ (forall a, dict_get (AuditLog.by_action s) a 0 = count_action a (w_log w))
    /\ AuditLog.suppression_rate s
       = round1 (PrimFloat.mul
                   (PrimFloat.div (float_of_int (count_action "NEVER" (w_log w)))
                      (float_of_int (Z.max (Z.of_nat (List.length (w_log w))) 1)))
                   100)
    /\ AuditLog.deferred_rate s
       = round1 (PrimFloat.mul
                   (PrimFloat.div (float_of_int (count_action "LATER" (w_log w)))
                      (float_of_int (Z.max (Z.of_nat (List.length (w_log w))) 1)))
                   100)
    /\ (Forall (fun d => known_action (action d)) (w_log w) ->
        dict_get (AuditLog.by_action s) "NOW" 0
        + dict_get (AuditLog.by_action s) "LATER" 0
        + dict_get (AuditLog.by_action s) "NEVER" 0
        = AuditLog.total_evaluated s).
Proof.
  eexists. split; [reflexivity |]. cbn [AuditLog.total_evaluated AuditLog.by_action
    AuditLog.suppression_rate AuditLog.deferred_rate].
  assert (forall a, dict_get (AuditLog.tally (w_log w)) a 0 = count_action a (w_log w))
    as Htally.
  { intros a. unfold AuditLog.tally. rewrite tally_counts. cbn [dict_get].
    destruct (String.eqb "NOW" a), (String.eqb "LATER" a), (String.eqb "NEVER" a);
      reflexivity. }
  split; [reflexivity |]. split; [exact Htally |].
  unfold AuditLog.rate. rewrite !Htally.
  split; [reflexivity |]. split; [reflexivity |].
  apply count_known.
Qed.

(** ** prioritizer.py: every decision is logged *)

Section Yields.

Context {A B : Type}.

Lemma yields_ret (P : A -> Prop) (x : A) : P x -> yields P (ret x).
Proof. intros HP w y w' Hrun. injection Hrun as <- _. exact HP. Qed.

Lemma yields_bind (P : B -> Prop) (c : M A) (k : A -> M B) :
  (forall x, yields P (k x)) -> yields P (bind c k).
Proof.
  intros Hk w y w' Hrun. unfold bind in Hrun.
  destruct (c w) as [[x | ex] w1]; [| discriminate Hrun].
  exact (Hk x w1 y w' Hrun).
Qed.

Lemma yields_bind_with (Q : A -> Prop) (P : B -> Prop) (c : M A) (k : A -> M B) :
  yields Q c -> (forall x, Q x -> yields P (k x)) -> yields P (bind c k).
Proof.
  intros Hc Hk w y w' Hrun. unfold bind in Hrun.
  destruct (c w) as [[x | ex] w1] eqn:Hcw; [| discriminate Hrun].
  exact (Hk x (Hc w x w1 Hcw) w1 y w' Hrun).
Qed.

Lemma logs_bind (c : M A) (k : A -> M Decision) :
  respects (keeps the_log) c -> (forall x, logs_its_result (k x)) ->
  logs_its_result (bind c k).
Proof.
  intros Hc Hk w r w' Hrun. unfold bind in Hrun.
  destruct (c w) as [[x | ex] w1] eqn:Hcw.
  - rewrite (Hk x w1 r w' Hrun). f_equal. exact (Hc w _ w1 Hcw).
  - injection Hrun as <- <-. rewrite app_nil_r. exact (Hc w _ w1 Hcw).
Qed.

End Yields.

Section Logged.

Context `{Platform}.

Variable event : NotificationEvent.

Lemma _decide_logs (act : string) (s : float) (r : string) (rm : option string)
      (ai fb : bool) :
  logs_its_result (PrioritizationEngine._decide event act s r rm ai fb).
Proof.
  intros w res w' Hrun. unfold PrioritizationEngine._decide in Hrun.
  destruct (String.eqb act "NEVER" && is_urgent (priority_hint event));
    unfold bind, datetime_now, time_time, AuditLog.record, modify, ret in Hrun;
    cbn in Hrun; injection Hrun as <- <-; reflexivity.
Qed.

Lemma score_and_merge_logs (rr : option (string * string * string)) :
  logs_its_result (PrioritizationEngine.score_and_merge event rr).
Proof.
  unfold PrioritizationEngine.score_and_merge.
  apply logs_bind; [apply get_count_keeps | intros n].
  apply logs_bind; [apply ai_score_keeps; discriminate | intros sr].
  match goal with |- logs_its_result (match ?p with _ => _ end) => destruct p end.
  apply _decide_logs.
Qed.

Lemma after_rules_logs (rr : option (string * string * string)) :
  logs_its_result (PrioritizationEngine.after_rules event rr).
Proof.
  unfold PrioritizationEngine.after_rules.
  apply logs_bind; [apply check_frequency_keeps; discriminate | intros freq].
  apply logs_bind; [apply check_daily_cap_keeps; discriminate | intros daily].
  repeat match goal with
         | |- logs_its_result (if ?b then _ else _) => destruct b
         end;
    first [apply _decide_logs | apply score_and_merge_logs].
Qed.

Lemma evaluate_logs : logs_its_result (PrioritizationEngine.evaluate event).
Proof.
  unfold PrioritizationEngine.evaluate.
  apply logs_bind; [apply is_expired_keeps | intros expired].
  destruct expired; [apply _decide_logs |].
  apply logs_bind; [apply check_keeps; discriminate | intros dup].
  destruct (truthy_str dup); [apply _decide_logs |].
  apply logs_bind; [apply rules_evaluate_keeps | intros rr].
  destruct rr as [[[ract rreason] rname] |]; [| apply after_rules_logs].
  destruct (String.eqb ract "NOW"); [apply _decide_logs |].
  destruct (String.eqb ract "NEVER"); [apply _decide_logs | apply after_rules_logs].
Qed.

(** *** The action of a decision *)

Lemma _decide_known (act : string) (s : float) (r : string) (rm : option string)
      (ai fb : bool) :
  known_action act ->
  yields (fun d => known_action (action d))
         (PrioritizationEngine._decide event act s r rm ai fb).
Proof.
  intros Hact w d w' Hrun.
  destruct (_decide_fields event act s r rm ai fb w d w' Hrun) as (_ & _ & _ & _ & _ & Hd).
  destruct (String.eqb act "NEVER" && is_urgent (priority_hint event)).
  - destruct Hd as (-> & _). now left.
  - destruct Hd as (-> & _). exact Hact.
Qed.

Lemma deterministic_score_known (n : Z) (q : pyval) :
  yields (fun sr => known_action (sr_action sr)) (DeterministicScorer.score event n q).
Proof.
  unfold DeterministicScorer.score. apply yields_bind. intros base.
  match goal with |- yields _ (match ?p with _ => _ end) => destruct p as [act rs] eqn:Hp end.
  apply yields_ret. cbn [sr_action]. unfold known_action.
  repeat match type of Hp with
         | (if ?b then _ else _) = _ => destruct b
         end; injection Hp as <- _; auto.
Qed.

Lemma _call_ai_known (n : Z) (q : pyval) :
  yields (fun sr => known_action (sr_action sr) /\ sr_ai_used sr = true
                    /\ sr_fallback_mode sr = false)
         (AIScorer._call_ai event n q).
Proof.
  unfold AIScorer._call_ai.
  repeat match goal with |- yields _ (match ?p with _ => _ end) => destruct p end.
  apply yields_ret. cbn [sr_action sr_ai_used sr_fallback_mode]. unfold known_action.
  split; [| split; reflexivity].
  repeat match goal with |- context [if ?b then _ else _] => destruct b end; auto.
Qed.

Lemma _fallback_known (n : Z) (q : pyval) (r : string) :
  yields (fun sr => known_action (sr_action sr)) (AIScorer._fallback event n q r).
Proof.
  unfold AIScorer._fallback.
  apply (yields_bind_with _ _ _ _ (deterministic_score_known n q)).
  intros sr Hsr. apply yields_ret. exact Hsr.
Qed.

Lemma ai_score_known (n : Z) (q : pyval) :
  yields (fun sr => known_action (sr_action sr)) (AIScorer.score event n q).
Proof.
  unfold AIScorer.score. apply yields_bind. intros can. apply yields_bind. intros w0.
  destruct (negb can || negb (w_AI_AVAILABLE w0)); [apply _fallback_known |].
  assert (yields (fun sr => known_action (sr_action sr))
                 (do result <- AIScorer._call_ai event n q;
                  CircuitBreaker.record_success ;; ret result)) as Hbody.
  { apply (yields_bind_with _ _ _ _ (_call_ai_known n q)).
    intros res (Hknown & _). apply yields_bind. intros _. apply yields_ret. exact Hknown. }
  assert (forall ex, yields (fun sr => known_action (sr_action sr))
                            (CircuitBreaker.record_failure ;;
                             AIScorer._fallback event n q (exn_str ex))) as Hhandler.
  { intros ex. apply yields_bind. intros _. apply _fallback_known. }
  intros w sr w' Hrun. unfold try_except in Hrun.
  match type of Hrun with
  | match ?body w with _ => _ end = _ => destruct (body w) as [[res | ex] w1] eqn:Hrun1
  end.
  - injection Hrun as <- <-. exact (Hbody w res w1 Hrun1).
  - exact (Hhandler ex w1 sr w' Hrun).
Qed.

Lemma score_and_merge_known (rr : option (string * string * string)) :
  yields (fun d => known_action (action d)) (PrioritizationEngine.score_and_merge event rr).
Proof.
  unfold PrioritizationEngine.score_and_merge.
  apply yields_bind. intros n.
  apply (yields_bind_with _ _ _ _ (ai_score_known n _)). intros sr Hsr.
  match goal with |- yields _ (match ?p with _ => _ end) => destruct p as [act rs] eqn:Hp end.
  apply _decide_known.
  destruct rr as [[[ract rreason] rname] |].
  - destruct (_ && _ && _) in Hp; injection Hp as <- _; [right; now left | exact Hsr].
  - injection Hp as <- _. exact Hsr.
Qed.

Lemma after_rules_known (rr : option (string * string * string)) :
  yields (fun d => known_action (action d)) (PrioritizationEngine.after_rules event rr).
Proof.
  unfold PrioritizationEngine.after_rules.
  apply yields_bind. intros freq. apply yields_bind. intros daily.
  repeat match goal with
         | |- yields _ (if ?b then _ else _) => destruct b
         end;
    first [apply score_and_merge_known
          | apply _decide_known; unfold known_action; auto].
Qed.

Lemma evaluate_known :
  yields (fun d => known_action (action d)) (PrioritizationEngine.evaluate event).
Proof.
  unfold PrioritizationEngine.evaluate.
  apply yields_bind. intros expired.
  destruct expired; [apply _decide_known; unfold known_action; auto |].
  apply yields_bind. intros dup.
  destruct (truthy_str dup); [apply _decide_known; unfold known_action; auto |].
  apply yields_bind. intros rr.
  destruct rr as [[[ract rreason] rname] |]; [| apply after_rules_known].
  destruct (String.eqb ract "NOW"); [apply _decide_known; unfold known_action; auto |].
  destruct (String.eqb ract "NEVER"); [apply _decide_known; unfold known_action; auto |].
  apply after_rules_known.
Qed.

End Logged.

(** X9.  [evaluate] appends the decision it returns to the audit log, as
    its last entry and once, on every path; when it raises, the log is as it
    was. *)
Theorem evaluate_appends_decision `{Platform} (event : NotificationEvent) (w : World) :
  (forall d w', PrioritizationEngine.evaluate event w = (Ok d, w') ->
     w_log w' = (w_log w ++ [d])%list)
  /\ (forall ex w', PrioritizationEngine.evaluate event w = (Raise ex, w') ->
        w_log w' = w_log w).
Proof.
  split.
  - intros d w' Hrun. exact (evaluate_logs event w _ w' Hrun).
  - intros ex w' Hrun. rewrite (evaluate_logs event w _ w' Hrun). apply app_nil_r.
Qed.

(** X10.  The decision [evaluate] has just returned is the last entry of the
    history of the event's user, for every positive limit, with no filter
    or with the filter on the decision's own action; with limit 1 the
    history is that decision alone. *)
Theorem history_ends_with_decision `{Platform}
        (event : NotificationEvent) (w : World) (d : Decision) (w' : World)
        (act : option string) (limit : Z) :
  PrioritizationEngine.evaluate event w = (Ok d, w') ->
  0 < limit ->
  act = None \/ act = Some (action d) ->
  exists earlier,
    AuditLog.get_user_history (user_id event) act limit w' = (Ok (earlier ++ [d])%list, w')
    /\ (limit = 1 -> earlier = []).
Proof.
  intros Hrun Hlimit Hact.
  pose proof (evaluate_logs event w _ w' Hrun) as Hlog. cbn in Hlog.
  assert (d_user_id d = user_id event) as Huser.
  { destruct (evaluate_decided event w d w' Hrun) as (a & s & r & rm & ai & fb & w0 & Hd).
    apply _decide_fields in Hd. tauto. }
  assert (known_action (action d)) as Hknown by exact (evaluate_known event w d w' Hrun).
  assert (selected (user_id event) act d = true) as Hsel.
  { unfold selected. rewrite Huser, String.eqb_refl. cbn.
    destruct Hact as [-> | ->]; [reflexivity |].
    destruct Hknown as [Ha | [Ha | Ha]]; rewrite Ha; reflexivity. }
  unfold AuditLog.get_user_history, bind, get_world, ret.
  rewrite history_selection, Hlog, List.filter_app. cbn [List.filter]. rewrite Hsel.
  set (before := List.filter (selected (user_id event) act) (w_log w)).
  unfold py_slice_from. rewrite List.length_app. cbn [List.length].
  destruct (Z.ltb_spec (- limit) 0) as [_ | Hbad]; [| lia].
  set (i := Z.to_nat (Z.max (Z.of_nat (List.length before + 1) + - limit) 0)).
  assert (i <= List.length before)%nat as Hi by (unfold i; lia).
  exists (skipn i before). split.
  - rewrite List.skipn_app.
    replace (i - List.length before)%nat with 0%nat by lia. reflexivity.
  - intros ->. apply List.skipn_all2. unfold i. lia.
Qed.

(** X11.  Whatever the rules say, the action of a decision [evaluate]
    returns is NOW, LATER or NEVER: the action of a rule is used only where
    it is one of these three.  So a log that holds nothing else holds
    nothing else afterwards. *)
Theorem decision_action_known `{Platform}
        (event : NotificationEvent) (w : World) (d : Decision) (w' : World) :
  PrioritizationEngine.evaluate event w = (Ok d, w') ->
  known_action (action d)
  /\ (Forall (fun x => known_action (action x)) (w_log w) ->
      Forall (fun x => known_action (action x)) (w_log w')).
Proof.
  intros Hrun.
  assert (known_action (action d)) as Hknown by exact (evaluate_known event w d w' Hrun).
  split; [exact Hknown |].
  intros Hall. rewrite (evaluate_logs event w _ w' Hrun).
  apply Forall_app. split; [exact Hall |]. constructor; [exact Hknown | constructor].
Qed.

Section LoggedExamples.

#[local] Existing Instance UtcHost.platform.

Lemma login_alert_run :
  PrioritizationEngine.evaluate login_alert (frozen_world demo_start)
  = (Ok login_alert_decision,
     snd (PrioritizationEngine.evaluate login_alert (frozen_world demo_start))).
Proof. vm_compute. reflexivity. Qed.

Lemma history_ends_with_decision_witness :
  exists earlier,
    AuditLog.get_user_history (user_id login_alert) None 1
      (snd (PrioritizationEngine.evaluate login_alert (frozen_world demo_start)))
    = (Ok (earlier ++ [login_alert_decision])%list,
       snd (PrioritizationEngine.evaluate login_alert (frozen_world demo_start)))
    /\ (1 = 1 -> earlier = []).
Proof.
  apply (history_ends_with_decision login_alert (frozen_world demo_start)
           login_alert_decision _ None 1).
  - exact login_alert_run.
  - lia.
  - now left.
Defined.

Lemma decision_action_known_witness :
  known_action (action login_alert_decision)
  /\ (Forall (fun x => known_action (action x)) (w_log (frozen_world demo_start)) ->
      Forall (fun x => known_action (action x))
             (w_log (snd (PrioritizationEngine.evaluate login_alert
                            (frozen_world demo_start))))).
Proof.
  apply (decision_action_known login_alert (frozen_world demo_start)).
  exact login_alert_run.
Defined.

End LoggedExamples.

(** ** scorer.py and prioritizer.py: the breaker under the engine *)

Section Calm.

Lemma breaker_calms_refl (w : World) : breaker_calms w w.
Proof. unfold breaker_calms. cbv zeta. repeat split. now left. Qed.

Lemma breaker_calms_trans (w1 w2 w3 : World) :
  breaker_calms w1 w2 -> breaker_calms w2 w3 -> breaker_calms w1 w3.
Proof.
  unfold breaker_calms. cbv zeta.
  intros (Hl1 & Ht1 & Hr1 & H1) (Hl2 & Ht2 & Hr2 & H2).
  split; [congruence |]. split; [congruence |]. split; [congruence |].
  destruct H2 as [H2 | (Hopen2 & Hclosed2 & Hf2)].
  - rewrite H2. exact H1.
  - right. split; [exact Hopen2 |].
    destruct H1 as [H1 | (Hopen1 & Hclosed1 & Hf1)].
    + rewrite H1 in *. split; assumption.
    + split; [tauto |]. destruct Hf2 as [Hf2 | Hf2]; [| now right].
      rewrite Hf2. exact Hf1.
Qed.

Lemma keeps_breaker_calms (w w' : World) : keeps the_breaker w w' -> breaker_calms w w'.
Proof.
  cbn. intros Hsame. unfold breaker_calms. cbv zeta. rewrite Hsame.
  repeat split. now left.
Qed.

Lemma respects_calms_of_keeps {A : Type} (c : M A) :
  respects (keeps the_breaker) c -> respects breaker_calms c.
Proof. intros Hc w r w' Hrun. apply keeps_breaker_calms. exact (Hc w r w' Hrun). Qed.

Lemma respects_calms_bind {A B : Type} (c : M A) (k : A -> M B) :
  respects breaker_calms c -> (forall x, respects breaker_calms (k x)) ->
  respects breaker_calms (bind c k).
Proof.
  intros Hc Hk w r w' Hrun. unfold bind in Hrun.
  destruct (c w) as [[x | ex] w1] eqn:Hcw.
  - eapply breaker_calms_trans; [exact (Hc w _ w1 Hcw) | exact (Hk x w1 r w' Hrun)].
  - injection Hrun as <- <-. exact (Hc w _ w1 Hcw).
Qed.

Lemma can_attempt_calms : respects breaker_calms CircuitBreaker.can_attempt.
Proof.
  intros w r w' Hrun.
  destruct (can_attempt_breaker w w' r Hrun) as [Hsame | (Hopen & Hhalf)].
  - apply keeps_breaker_calms. exact Hsame.
  - unfold breaker_calms. cbv zeta. rewrite Hhalf. cbn.
    repeat split. right. split; [discriminate |]. split; [congruence | now left].
Qed.

Lemma record_success_calms : respects breaker_calms CircuitBreaker.record_success.
Proof.
  intros w r w' Hrun. rewrite record_success_run in Hrun. injection Hrun as _ <-.
  unfold breaker_calms. cbn. repeat split. right.
  split; [discriminate |]. split; [reflexivity | now right].
Qed.

End Calm.

Section CalmEngine.

Context `{Platform}.

Variable event : NotificationEvent.

(** The simulated model call returns, whatever the world. *)
Lemma _call_ai_run (n : Z) (q : pyval) :
  exists sr, forall w, AIScorer._call_ai event n q w = (Ok sr, w).
Proof.
  unfold AIScorer._call_ai.
  repeat match goal with
         | |- context [match ?p with (_, _) => _ end] => destruct p
         end.
  eexists. intros w. reflexivity.
Qed.

Lemma _fallback_calms (n : Z) (q : pyval) (r : string) :
  respects breaker_calms (AIScorer._fallback event n q r).
Proof.
  apply respects_calms_of_keeps. unfold AIScorer._fallback.
  pose proof (deterministic_score_keeps the_breaker). frame.
Qed.

Lemma ai_score_calms (n : Z) (q : pyval) :
  respects breaker_calms (AIScorer.score event n q).
Proof.
  unfold AIScorer.score.
  apply respects_calms_bind; [apply can_attempt_calms | intros can].
  apply respects_calms_bind;
    [apply respects_calms_of_keeps; apply respects_get_world | intros w0].
  destruct (negb can || negb (w_AI_AVAILABLE w0)); [apply _fallback_calms |].
  intros w r w' Hrun. unfold try_except, bind in Hrun.
  destruct (_call_ai_run n q) as (sr & Hsr). rewrite Hsr in Hrun.
  rewrite record_success_run in Hrun. cbn in Hrun. injection Hrun as _ <-.
  eapply (record_success_calms w); apply record_success_run.
Qed.

Lemma _decide_calms (act : string) (s : float) (r : string) (rm : option string)
      (ai fb : bool) :
  respects breaker_calms (PrioritizationEngine._decide event act s r rm ai fb).
Proof. apply respects_calms_of_keeps. apply _decide_keeps. discriminate. Qed.

Lemma score_and_merge_calms (rr : option (string * string * string)) :
  respects breaker_calms (PrioritizationEngine.score_and_merge event rr).
Proof.
  unfold PrioritizationEngine.score_and_merge.
  apply respects_calms_bind;
    [apply respects_calms_of_keeps; apply get_count_keeps | intros n].
  apply respects_calms_bind; [apply ai_score_calms | intros sr].
  match goal with |- respects _ (match ?p with _ => _ end) => destruct p end.
  apply _decide_calms.
Qed.

Lemma after_rules_calms (rr : option (string * string * string)) :
  respects breaker_calms (PrioritizationEngine.after_rules event rr).
Proof.
  unfold PrioritizationEngine.after_rules.
  apply respects_calms_bind;
    [apply respects_calms_of_keeps; apply check_frequency_keeps; discriminate
    | intros freq].
  apply respects_calms_bind;
    [apply respects_calms_of_keeps; apply check_daily_cap_keeps; discriminate
    | intros daily].
  repeat match goal with
         | |- respects _ (if ?b then _ else _) => destruct b
         end;
    first [apply _decide_calms | apply score_and_merge_calms].
Qed.

Lemma evaluate_calms : respects breaker_calms (PrioritizationEngine.evaluate event).
Proof.
  unfold PrioritizationEngine.evaluate.
  apply respects_calms_bind;
    [apply respects_calms_of_keeps; apply is_expired_keeps | intros expired].
  destruct expired; [apply _decide_calms |].
  apply respects_calms_bind;
    [apply respects_calms_of_keeps; apply check_keeps; discriminate | intros dup].
  destruct (truthy_str dup); [apply _decide_calms |].
  apply respects_calms_bind;
    [apply respects_calms_of_keeps; apply rules_evaluate_keeps | intros rr].
  destruct rr as [[[ract rreason] rname] |]; [| apply after_rules_calms].
  destruct (String.eqb ract "NOW"); [apply _decide_calms |].
  destruct (String.eqb ract "NEVER"); [apply _decide_calms | apply after_rules_calms].
Qed.

Lemma breaker_ok_calms (w w' : World) :
  breaker_calms w w' -> breaker_ok w -> breaker_ok w'.
Proof.
  unfold breaker_calms, breaker_ok. cbv zeta.
  intros (Hlast & _ & _ & [Hsame | (Hopen & _)]) Hok Hstate.
  - rewrite Hsame in *. exact (Hok Hstate).
  - contradiction.
Qed.

Lemma in_order_kept (w : World) :
  in_order w -> in_order (snd (PrioritizationEngine.evaluate event w)).
Proof.
  intros (Hrules & Hbreaker).
  destruct (PrioritizationEngine.evaluate event w) as [r w'] eqn:Hrun. cbn [snd].
  split.
  - rewrite <- Hrules.
    apply (evaluate_keeps the_rules event) in Hrun;
      [exact Hrun | discriminate | discriminate | discriminate | discriminate].
  - eapply breaker_ok_calms; [exact (evaluate_calms w r w' Hrun) | exact Hbreaker].
Qed.

Lemma in_order_returns (w : World) :
  in_order w -> exists d w', PrioritizationEngine.evaluate event w = (Ok d, w').
Proof.
  intros (Hrules & Hbreaker). apply evaluate_returns; [| exact Hbreaker].
  exists (default_outcome event). rewrite Hrules. apply default_rules_run.
Qed.

End CalmEngine.

Lemma in_order_evaluate_all `{Platform} (events : list NotificationEvent) :
  forall w, in_order w -> in_order (evaluate_all events w).
Proof.
  induction events as [| e events IH]; intros w Hw; cbn [evaluate_all].
  - exact Hw.
  - apply IH. apply in_order_kept. exact Hw.
Qed.

(** X12.  [evaluate] never records a failure of the model: whether it
    returns or raises, it leaves the time of the last failure, the threshold
    and the time-out as they were, the failure count is the one before or 0,
    a breaker that is open afterwards was open before and is unchanged, and
    a closed breaker stays closed. *)
Theorem evaluate_never_trips_breaker `{Platform}
        (event : NotificationEvent) (w : World) (r : Result Decision) (w' : World) :
  PrioritizationEngine.evaluate event w = (r, w') ->
  last_failure_time (w_breaker w') = last_failure_time (w_breaker w)
  /\ failure_threshold (w_breaker w') = failure_threshold (w_breaker w)
  /\ reset_timeout (w_breaker w') = reset_timeout (w_breaker w)
  /\ (failures (w_breaker w') = failures (w_breaker w) \/ failures (w_breaker w') = 0)
  /\ (state (w_breaker w') = OPEN -> w_breaker w' = w_breaker w)
  /\ (state (w_breaker w) = CLOSED -> state (w_breaker w') = CLOSED).
Proof.
  intros Hrun. pose proof (evaluate_calms event w r w' Hrun) as Hcalm.
  unfold breaker_calms in Hcalm. cbv zeta in Hcalm.
  destruct Hcalm as (Hlast & Hthr & Hto & [Hsame | (Hopen & Hclosed & Hf)]).
  - rewrite Hsame. repeat split; auto.
  - repeat split; auto. intros Hbad. contradiction.
Qed.

(** X13.  An engine as the constructor builds it (the default rules, a
    closed breaker, an empty store and log), with the model switched on or
    off, never raises: whatever events it has evaluated, on whatever clock,
    the evaluation of one more event returns a decision. *)
Theorem fresh_engine_never_raises `{Platform}
        (clock : nat -> Z) (ai : bool) (events : list NotificationEvent)
        (event : NotificationEvent) :
  exists d w',
    PrioritizationEngine.evaluate event
      (evaluate_all events (set_AI_AVAILABLE ai (PrioritizationEngine.init clock)))
    = (Ok d, w').
Proof.
  apply in_order_returns. apply in_order_evaluate_all.
  split; [reflexivity |]. intros Hopen. discriminate Hopen.
Qed.

(** ** store.py: near duplicates *)

Section NearDuplicate.

Context `{Platform}.

Lemma str_lower_app (a b : string) : str_lower (a ++ b) = str_lower a ++ str_lower b.
Proof.
  induction a as [| c a IH]; [reflexivity |].
  change (String (lower_char c) (str_lower (a ++ b))
          = String (lower_char c) (str_lower a ++ str_lower b)).
  f_equal. exact IH.
Qed.

Lemma fingerprint_key_differs (event other : NotificationEvent) :
  fingerprint_key_of event <> dedup_key_of other.
Proof.
  unfold fingerprint_key_of, dedup_key_of.
  generalize (user_id event ++ ":" ++ DedupChecker._fingerprint event).
  generalize (user_id other ++ ":" ++ or_empty (dedupe_key other)).
  intros a b Hbad. cbv in Hbad. discriminate Hbad.
Qed.

(** The first sighting of a content, or the first after its registration
    has expired, registers its fingerprint for an hour. *)
Lemma check_registers_fingerprint (event : NotificationEvent) (w : World) :
  truthy_str (dedupe_key event) = false ->
  (forall v exp, w_store w !! fingerprint_key_of event = Some (v, exp) -> exp < now w) ->
  exists w',
    DedupChecker.check event w = (Ok None, w')
    /\ w_store w' !! fingerprint_key_of event
       = Some (id event, registration_reading (fingerprint_key_of event) w + seconds 3600).
Proof.
  intros Hkey Hstale. unfold DedupChecker.check. rewrite Hkey.
  fold (fingerprint_key_of event). unfold bind.
  destruct (set_nx_registers (fingerprint_key_of event) (id event) DedupChecker.NEAR_TTL
              w Hstale) as (w1 & -> & Hstore & _).
  exists w1. split; [reflexivity |]. rewrite Hstore. apply lookup_insert_eq.
Qed.

(** A sighting while the fingerprint is registered, by an event with no key
    or with a key not seen so far. *)
Lemma check_near_duplicate (event : NotificationEvent) (old : string) (exp : Z) (w : World) :
  truthy_str (dedupe_key event) = false \/ w_store w !! dedup_key_of event = None ->
  w_store w !! fingerprint_key_of event = Some (old, exp) ->
  now_after (if truthy_str (dedupe_key event) then 1 else 0) w <= exp ->
  exists w', DedupChecker.check event w = (Ok (Some near_duplicate_reason), w').
Proof.
  intros Hkey Hstored Hlive. unfold DedupChecker.check.
  fold (fingerprint_key_of event). fold (dedup_key_of event).
  destruct (truthy_str (dedupe_key event)) eqn:Htruthy.
  - destruct Hkey as [Hkey | Habsent]; [discriminate Hkey |].
    unfold bind at 1. rewrite set_nx_absent by exact Habsent.
    change (negb true) with false. cbv beta iota.
    unfold bind.
    rewrite (set_nx_live _ _ _ _ old exp).
    + eexists. reflexivity.
    + cbn. rewrite lookup_insert_ne; [exact Hstored |].
      intros Hbad. symmetry in Hbad. exact (fingerprint_key_differs _ _ Hbad).
    + exact Hlive.
  - unfold bind. rewrite (set_nx_live _ _ _ _ old exp Hstored Hlive).
    eexists. reflexivity.
Qed.

End NearDuplicate.

(** X14.  The fingerprint of an event depends on its type, title and
    message only, and not on their letter case, nor on whether a missing
    title or message is None or empty: two events equal in these three up to
    case have the same fingerprint, whatever their channel, priority, key
    and metadata. *)
Theorem fingerprint_ignores_case (e1 e2 : NotificationEvent) :
  str_lower (event_type e1) = str_lower (event_type e2) ->
  str_lower (or_empty (title e1)) = str_lower (or_empty (title e2)) ->
  str_lower (or_empty (message e1)) = str_lower (or_empty (message e2)) ->
  DedupChecker._fingerprint e1 = DedupChecker._fingerprint e2.
Proof.
  intros Htype Htitle Hmessage.
  unfold DedupChecker._fingerprint, DedupChecker.fingerprint_text. cbv zeta.
  rewrite !str_lower_app, Htype, Htitle, Hmessage. reflexivity.
Qed.

Lemma fingerprint_ignores_case_witness :
  DedupChecker._fingerprint sale = DedupChecker._fingerprint sale_again.
Proof.
  apply (fingerprint_ignores_case sale sale_again); reflexivity.
Defined.

(** X15.  The same content twice within the hour, on ASCII text and a
    clock that never runs backwards.  A call of [evaluate] whose event has
    no [dedupe_key], is not expired, and whose fingerprint is not registered
    for its user or registered with an expiry that has passed; then any
    calls of [evaluate], for any events; then a call for the same user and
    an event with the same fingerprint that is not expired, has no
    [dedupe_key] or one that is not registered, and whose duplicate check
    tests the fingerprint on a clock at most 3600 seconds past the reading
    at which the first call registered it.  The last call returns with rule
    "dedup_check" and the reason of a near duplicate: as NEVER with score 0,
    or, for an event of critical or high priority, as NOW with score 0.9
    through the safety net. *)
Theorem near_duplicate_suppressed `{Platform}
        (first second : NotificationEvent) (between : list NotificationEvent) (w : World) :
  clock_monotone w ->
  ascii_only (DedupChecker.fingerprint_text first) = true ->
  ascii_only (DedupChecker.fingerprint_text second) = true ->
  user_id first = user_id second ->
  DedupChecker._fingerprint first = DedupChecker._fingerprint second ->
  truthy_str (dedupe_key first) = false ->
  fst (is_expired first w) = Ok false ->
  (forall v exp, w_store w !! fingerprint_key_of first = Some (v, exp) ->
     exp < now (snd (is_expired first w))) ->
  fst (is_expired second
         (evaluate_all between (snd (PrioritizationEngine.evaluate first w)))) = Ok false ->
  truthy_str (dedupe_key second) = false
  \/ w_store (snd (is_expired second
                     (evaluate_all between (snd (PrioritizationEngine.evaluate first w)))))
       !! dedup_key_of second = None ->
  now_after (if truthy_str (dedupe_key second) then 1 else 0)
            (snd (is_expired second
                    (evaluate_all between (snd (PrioritizationEngine.evaluate first w)))))
  <= registration_reading (fingerprint_key_of first) (snd (is_expired first w))
     + seconds 3600 ->
  exists d w',
    PrioritizationEngine.evaluate second
      (evaluate_all between (snd (PrioritizationEngine.evaluate first w)))
    = (Ok d, w')
    /\ rule_matched d = Some "dedup_check"
    /\ ai_used d = false /\ fallback_mode d = false
    /\ (is_urgent (priority_hint second) = false ->
        action d = "NEVER" /\ score d = 0.0%float /\ reason d = near_duplicate_reason)
    /\ (is_urgent (priority_hint second) = true ->
        action d = "NOW" /\ score d = 0.9%float
        /\ reason d = safety_net_reason near_duplicate_reason).
Proof.
  intros Hmono _ _ Huser Hfp Hk1 Hexp1 Hstale Hexp2 Hk2 Htime.
  destruct (is_expired first w) as [r1 wa] eqn:Hrun1. cbn [fst snd] in Hexp1, Hstale, Htime.
  subst r1.
  destruct (is_expired second
              (evaluate_all between (snd (PrioritizationEngine.evaluate first w))))
    as [r2 wc] eqn:Hrun2.
  cbn [fst snd] in Hexp2, Hk2, Htime. subst r2.
  assert (forall v exp, w_store wa !! fingerprint_key_of first = Some (v, exp) -> exp < now wa)
    as Hstale_a.
  { intros v exp.
    rewrite (is_expired_keeps (store_at (fingerprint_key_of first)) _ _ _ _ Hrun1 : _ = _).
    apply Hstale. }
  destruct (check_registers_fingerprint first wa Hk1 Hstale_a) as (wd & Hcheck & Hreg).
  destruct (registered_until_check (fingerprint_key_of first) first second between
              w wa None wd _ _ _ wc Hmono Hrun1 Hcheck Hreg Hrun2)
    as (v' & exp' & Hstored & Hle).
  assert (fingerprint_key_of second = fingerprint_key_of first) as Hsame_key.
  { unfold fingerprint_key_of. rewrite Huser, Hfp. reflexivity. }
  rewrite <- Hsame_key in Hstored.
  destruct (check_near_duplicate second v' exp' wc Hk2 Hstored ltac:(lia)) as (we & Hdup).
  destruct (_decide_returns second "NEVER" 0.0%float near_duplicate_reason
              (Some "dedup_check") false false we) as (d & w' & Hdecide).
  exists d, w'. split.
  - unfold PrioritizationEngine.evaluate at 1. unfold bind. rewrite Hrun2, Hdup.
    replace (truthy_str (Some near_duplicate_reason)) with true by reflexivity.
    exact Hdecide.
  - apply _decide_fields in Hdecide as (Hrm & Hai & Hfb & _ & _ & Hnet).
    split; [exact Hrm |]. split; [exact Hai |]. split; [exact Hfb |].
    split; intros Hurgent; rewrite Hurgent in Hnet; cbn in Hnet; tauto.
Qed.

Section NearDuplicateExamples.

#[local] Existing Instance UtcHost.platform.

Lemma near_duplicate_suppressed_witness :
  exists d w',
    PrioritizationEngine.evaluate sale_again
      (evaluate_all [sarah; login_alert]
         (snd (PrioritizationEngine.evaluate sale (frozen_world demo_start)))) = (Ok d, w')
    /\ rule_matched d = Some "dedup_check"
    /\ action d = "NOW" /\ score d = 0.9%float
    /\ reason d = safety_net_reason near_duplicate_reason.
Proof.
  destruct (near_duplicate_suppressed sale sale_again [sarah; login_alert]
              (frozen_world demo_start))
    as (d & w' & Hrun & Hrule & _ & _ & _ & Hnet).
  - apply frozen_clock_monotone.
  - reflexivity.
  - reflexivity.
  - reflexivity.
  - vm_compute. reflexivity.
  - reflexivity.
  - reflexivity.
  - intros v exp Hstored. discriminate Hstored.
  - vm_compute. reflexivity.
  - right. vm_compute. reflexivity.
  - apply Z.leb_le. vm_compute. reflexivity.
  - exists d, w'. split; [exact Hrun |]. split; [exact Hrule |]. apply Hnet. reflexivity.
Defined.

End NearDuplicateExamples.

(** ** store.py and prioritizer.py: the daily cap *)

Section DailyCap.

Context `{Platform}.

Variable event : NotificationEvent.

(** One more event on a day whose counter is live. *)
Lemma check_daily_cap_live (w : World) (c exp : Z) :
  w_counters w !! daily_key_of event (now w) = Some (c, exp) ->
  now_after 1 w <= exp ->
  FrequencyChecker.check_daily_cap event w
  = (Ok (if daily_cap (channel event) <? c + 1
         then Some (daily_reason (channel event) (c + 1)) else None),
     set_counters <[daily_key_of event (now w) := (c + 1, exp)]>
                  (set_ticks S (set_ticks S w))).
Proof.
  intros Hstored Hlive. unfold FrequencyChecker.check_daily_cap.
  unfold bind at 1, time_time. fold (now w). fold (daily_key_of event (now w)).
  fold (daily_cap (channel event)). unfold bind.
  rewrite (incr_live _ _ (set_ticks S w) c exp Hstored Hlive).
  unfold daily_reason. destruct (daily_cap (channel event) <? c + 1); reflexivity.
Qed.

Lemma daily_reason_truthy (chan : string) (n : Z) :
  truthy_str (Some (daily_reason chan n)) = true
  /\ or_empty (Some (daily_reason chan n)) = daily_reason chan n.
Proof.
  unfold daily_reason.
  generalize (chan ++ " cap reached (" ++ str_of_int n ++ "/"
                ++ str_of_int (daily_cap chan) ++ ")").
  intros rest. split; reflexivity.
Qed.

Lemma ai_score_scored (n : Z) (q : pyval) :
  yields (fun sr => scored (sr_ai_used sr) (sr_fallback_mode sr)) (AIScorer.score event n q).
Proof.
  assert (forall r, yields (fun sr => scored (sr_ai_used sr) (sr_fallback_mode sr))
                           (AIScorer._fallback event n q r)) as Hfallback.
  { intros r. unfold AIScorer._fallback. intros w sr w' Hrun. unfold bind in Hrun.
    destruct (DeterministicScorer.score event n q w) as [[res | ex] w1] eqn:Hdet;
      [| discriminate Hrun].
    injection Hrun as <- _. cbn.
    destruct (deterministic_score_flags event n q w res w1 Hdet) as [-> ->].
    reflexivity. }
  unfold AIScorer.score. apply yields_bind. intros can. apply yields_bind. intros w0.
  destruct (negb can || negb (w_AI_AVAILABLE w0)); [apply Hfallback |].
  intros w sr w' Hrun. unfold try_except, bind in Hrun.
  destruct (_call_ai_run event n q) as (res & Hres). rewrite Hres in Hrun.
  rewrite record_success_run in Hrun. cbn in Hrun. injection Hrun as <- _.
  destruct (_call_ai_known event n q w res w (Hres w)) as (_ & -> & ->). reflexivity.
Qed.

Lemma score_and_merge_scored (rr : option (string * string * string)) :
  yields (fun d => scored (ai_used d) (fallback_mode d)
                   /\ rule_matched d = option_map snd rr)
         (PrioritizationEngine.score_and_merge event rr).
Proof.
  unfold PrioritizationEngine.score_and_merge.
  apply yields_bind. intros n.
  apply (yields_bind_with _ _ _ _ (ai_score_scored n _)). intros sr Hsr.
  match goal with |- yields _ (match ?p with _ => _ end) => destruct p as [act rs] end.
  intros w d w' Hrun.
  apply _decide_fields in Hrun as (Hrm & -> & -> & _).
  split; [exact Hsr |]. rewrite Hrm. destruct rr as [[[ract rreason] rname] |]; reflexivity.
Qed.

End DailyCap.

(** X16.  An event that is neither critical nor high, passes steps 1 to 3
    and stays under its hourly cap, while the counter of its user, channel
    and day is live and has reached the cap of the channel (20 for push, 5
    for sms, 10 for email, 50 for in_app, 20 for any other): the decision is
    LATER with score 0.3, rule "daily_cap" and the reason "Daily <channel>
    cap reached (<count>/<cap>) — batched to digest", made without a
    scorer. *)
Theorem daily_cap_defers `{Platform}
        (event : NotificationEvent) (w : World) (rr : option (string * string * string))
        (w3 w4 : World) (c exp : Z) :
  reaches_fatigue_gate event w rr w3 ->
  FrequencyChecker.check_frequency event w3 = (Ok None, w4) ->
  is_urgent (priority_hint event) = false ->
  w_counters w4 !! daily_key_of event (now w4) = Some (c, exp) ->
  now_after 1 w4 <= exp ->
  daily_cap (channel event) <= c ->
  exists d w',
    PrioritizationEngine.evaluate event w = (Ok d, w')
    /\ action d = "LATER" /\ score d = 0.3%float
    /\ reason d = daily_reason (channel event) (c + 1) ++ " — batched to digest"
    /\ rule_matched d = Some "daily_cap"
    /\ ai_used d = false /\ fallback_mode d = false.
Proof.
  intros Hgate Hfreq Hurgent Hstored Hlive Hcap.
  rewrite (reaches_fatigue_gate_run event w rr w3 Hgate).
  unfold PrioritizationEngine.after_rules, bind at 1. rewrite Hfreq.
  unfold bind at 1. rewrite (check_daily_cap_live event w4 c exp Hstored Hlive).
  destruct (Z.ltb_spec (daily_cap (channel event)) (c + 1)) as [_ | Hbad]; [| lia].
  destruct (daily_reason_truthy (channel event) (c + 1)) as [Htruthy Hor].
  rewrite Htruthy, Hor, Hurgent. cbn [truthy_str andb negb].
  match goal with
  | |- exists d w', PrioritizationEngine._decide ?e ?a ?s ?r ?rm ?ai ?fb ?w0 = _ /\ _ =>
      destruct (_decide_returns e a s r rm ai fb w0) as (d & w' & Hdecide)
  end.
  exists d, w'. split; [exact Hdecide |].
  apply _decide_fields in Hdecide as (Hrm & Hai & Hfb & _ & _ & Hplain).
  cbn in Hplain. tauto.
Qed.

(** X17.  Neither cap holds back an event of critical or high priority:
    once it has passed steps 1 to 3, both counters are incremented and the
    event goes on to the scorer, so that its decision is made by exactly one
    of the model and the fallback, under the name of the rule that matched,
    if any. *)
Theorem urgent_passes_caps `{Platform}
        (event : NotificationEvent) (w : World) (rr : option (string * string * string))
        (w3 : World) :
  is_urgent (priority_hint event) = true ->
  reaches_fatigue_gate event w rr w3 ->
  (exists w5, reaches_scoring event w rr w5)
  /\ forall d w', PrioritizationEngine.evaluate event w = (Ok d, w') ->
       ai_used d = negb (fallback_mode d) /\ rule_matched d = option_map snd rr.
Proof.
  intros Hurgent Hgate.
  destruct (check_frequency_returns event w3) as (freq & w4 & Hfreq).
  destruct (check_daily_cap_returns event w4) as (daily & w5 & Hdaily).
  assert (reaches_scoring event w rr w5) as Hscoring.
  { exists w3, freq, w4, daily. rewrite Hurgent.
    split; [exact Hgate |]. split; [exact Hfreq |]. split; [exact Hdaily |].
    split; apply andb_false_r. }
  split; [exists w5; exact Hscoring |].
  intros d w' Hrun. rewrite (reaches_scoring_run event w rr w5 Hscoring) in Hrun.
  exact (score_and_merge_scored event rr w5 d w' Hrun).
Qed.

(** X18.  Under the default rules an event of critical priority is sent NOW
    on every path, without a scorer, and its evaluation cannot raise.  When
    it has expired, the score is 0.9, no rule is named and the reason is the
    safety net's around "Event expired before processing"; when it has not
    expired and the duplicate check gives a reason, the score is 0.9, the
    rule is "dedup_check" and the reason is the safety net's around that
    reason; otherwise the score is 1.0, by the rule for security alerts when
    it is one and by the rule for critical events when it is not, with that
    rule's name and reason. *)
Theorem critical_always_now `{Platform} (event : NotificationEvent) (w : World) :
  w_rules w = DEFAULT_RULES ->
  priority_hint event = Some "critical" ->
  exists expired w1 d w',
    is_expired event w = (Ok expired, w1)
    /\ PrioritizationEngine.evaluate event w = (Ok d, w')
    /\ action d = "NOW" /\ ai_used d = false /\ fallback_mode d = false
    /\ (expired = true ->
        score d = 0.9%float /\ rule_matched d = None
        /\ reason d = safety_net_reason "Event expired before processing")
    /\ (expired = false ->
        exists dup w2,
          DedupChecker.check event w1 = (Ok dup, w2)
          /\ (truthy_str dup = true ->
              score d = 0.9%float /\ rule_matched d = Some "dedup_check"
              /\ reason d = safety_net_reason (or_empty dup))
          /\ (truthy_str dup = false ->
              score d = 1.0%float
              /\ if String.eqb (event_type event) "security_alert"
                 then rule_matched d = Some "always_send_security_alerts"
                      /\ reason d = "Security alerts always sent immediately"
                 else rule_matched d = Some "always_send_critical"
                      /\ reason d = "Critical priority always sent immediately")).
Proof.
  intros Hrules Hhint.
  assert (is_urgent (priority_hint event) = true) as Hurgent by (rewrite Hhint; reflexivity).
  unfold PrioritizationEngine.evaluate, bind at 1.
  destruct (is_expired_returns event w) as (expired & w1 & Hexp). rewrite Hexp.
  exists expired, w1.
  destruct expired.
  { rewrite _decide_safety_net by exact Hurgent. do 2 eexists.
    split; [reflexivity |]. split; [reflexivity |]. cbn.
    do 3 (split; [reflexivity |]).
    split; [intros _; repeat split | intros Hbad; discriminate Hbad]. }
  unfold bind at 1.
  destruct (check_returns event w1) as (dup & w2 & Hdup). rewrite Hdup.
  destruct (truthy_str dup) eqn:Hdup_truthy.
  { rewrite _decide_safety_net by exact Hurgent. do 2 eexists.
    split; [reflexivity |]. split; [reflexivity |]. cbn.
    do 3 (split; [reflexivity |]). split; [intros Hbad; discriminate Hbad |].
    intros _. exists dup, w2. split; [reflexivity |].
    split; [intros _; repeat split | intros Hbad; congruence]. }
  assert (w_rules w2 = DEFAULT_RULES) as Hrules2.
  { rewrite <- Hrules.
    pose proof (is_expired_keeps the_rules _ _ _ _ Hexp) as H1.
    pose proof (check_keeps the_rules event ltac:(discriminate) _ _ _ Hdup) as H2.
    cbn in H1, H2. congruence. }
  unfold bind at 1, RulesEngine.evaluate, bind, get_world.
  rewrite Hrules2, default_rules_run. unfold default_outcome, AIScorer.hint_is.
  rewrite Hhint. cbn [ret].
  destruct (String.eqb (event_type event) "security_alert");
    change (String.eqb "critical" "critical") with true; cbv iota;
    change (String.eqb "NOW" "NOW") with true; cbv iota;
    rewrite _decide_plain by reflexivity; do 2 eexists;
    (split; [reflexivity |]); (split; [reflexivity |]); cbn;
    do 3 (split; [reflexivity |]); (split; [intros Hbad; discriminate Hbad |]);
    intros _; exists dup, w2; (split; [reflexivity |]);
    (split; [intros Hbad; congruence |]); intros _; repeat split.
Qed.

Section CapExamples.

#[local] Existing Instance UtcHost.platform.

Lemma daily_cap_defers_witness :
  exists d w',
    PrioritizationEngine.evaluate (texted 6) texted_five = (Ok d, w')
    /\ action d = "LATER" /\ score d = 0.3%float
    /\ reason d = daily_reason (channel (texted 6)) (5 + 1) ++ " — batched to digest"
    /\ rule_matched d = Some "daily_cap"
    /\ ai_used d = false /\ fallback_mode d = false.
Proof.
  apply (daily_cap_defers (texted 6) texted_five None
           (snd (DedupChecker.check (texted 6) (snd (is_expired (texted 6) texted_five))))
           (snd (FrequencyChecker.check_frequency (texted 6)
                   (snd (DedupChecker.check (texted 6)
                           (snd (is_expired (texted 6) texted_five))))))
           5 (demo_start + seconds 86400)).
  - exists (snd (is_expired (texted 6) texted_five)), None.
    split; [vm_compute; reflexivity |].
    split; [vm_compute; reflexivity |].
    split; [reflexivity |].
    split; [vm_compute; reflexivity | reflexivity].
  - vm_compute. reflexivity.
  - reflexivity.
  - vm_compute. reflexivity.
  - apply Z.leb_le. vm_compute. reflexivity.
  - apply Z.leb_le. vm_compute. reflexivity.
Defined.

Lemma urgent_passes_caps_witness :
  (exists w5, reaches_scoring
                (plain_event "u5" "alert" "email" (Some "high") (Some "Payment failed"))
                (frozen_world demo_start) None w5)
  /\ forall d w',
       PrioritizationEngine.evaluate
         (plain_event "u5" "alert" "email" (Some "high") (Some "Payment failed"))
         (frozen_world demo_start) = (Ok d, w') ->
       ai_used d = negb (fallback_mode d) /\ rule_matched d = None.
Proof.
  apply (urgent_passes_caps
           (plain_event "u5" "alert" "email" (Some "high") (Some "Payment failed"))
           (frozen_world demo_start) None
           (snd (DedupChecker.check
                   (plain_event "u5" "alert" "email" (Some "high") (Some "Payment failed"))
                   (snd (is_expired
                           (plain_event "u5" "alert" "email" (Some "high")
                                        (Some "Payment failed"))
                           (frozen_world demo_start)))))).
  - reflexivity.
  - exists (snd (is_expired
                   (plain_event "u5" "alert" "email" (Some "high") (Some "Payment failed"))
                   (frozen_world demo_start))), None.
    split; [vm_compute; reflexivity |].
    split; [vm_compute; reflexivity |].
    split; [reflexivity |].
    split; [vm_compute; reflexivity | reflexivity].
Defined.

Lemma critical_always_now_witness :
  exists expired w1 d w',
    is_expired (stale "critical") (frozen_world demo_start) = (Ok expired, w1)
    /\ PrioritizationEngine.evaluate (stale "critical") (frozen_world demo_start) = (Ok d, w')
    /\ action d = "NOW" /\ ai_used d = false /\ fallback_mode d = false
    /\ (expired = true ->
        score d = 0.9%float /\ rule_matched d = None
        /\ reason d = safety_net_reason "Event expired before processing").
Proof.
  destruct (critical_always_now (stale "critical") (frozen_world demo_start))
    as (expired & w1 & d & w' & Hexp & Hrun & Hact & Hai & Hfb & Hexpired & _).
  - reflexivity.
  - reflexivity.
  - exists expired, w1, d, w'. repeat (split; [assumption |]). exact Hexpired.
Defined.

End CapExamples.

(** ** scorer.py: AIScorer.score by the state of the breaker *)

Section ScoreByBreaker.

Context `{Platform}.

Variables (event : NotificationEvent) (n : Z) (q : pyval).

(** The model is called, succeeds, and the breaker is closed. *)
Lemma ai_score_attempt (w w1 : World) :
  CircuitBreaker.can_attempt w = (Ok true, w1) ->
  w_AI_AVAILABLE w1 = true ->
  exists sr,
    AIScorer.score event n q w
    = (Ok sr, set_breaker (fun cb =>
                 mk_breaker 0 CLOSED (last_failure_time cb) (failure_threshold cb)
                            (reset_timeout cb)) w1)
    /\ (forall w0, AIScorer._call_ai event n q w0 = (Ok sr, w0))
    /\ sr_ai_used sr = true /\ sr_fallback_mode sr = false.
Proof.
  intros Hcan Hflag. destruct (_call_ai_run event n q) as (sr & Hsr).
  exists sr. split; [| split; [exact Hsr |]].
  - unfold AIScorer.score, bind at 1. rewrite Hcan.
    unfold bind at 1, get_world. rewrite Hflag. cbn [negb orb].
    unfold try_except, bind. rewrite Hsr, record_success_run. reflexivity.
  - destruct (_call_ai_known event n q w sr w (Hsr w)) as (_ & Hai & Hfb).
    split; assumption.
Qed.

(** The model is not called: the fallback scores, the breaker is left. *)
Lemma ai_score_refused (w w1 : World) :
  CircuitBreaker.can_attempt w = (Ok false, w1) ->
  exists sr w',
    AIScorer.score event n q w = (Ok sr, w')
    /\ sr_ai_used sr = false /\ sr_fallback_mode sr = true
    /\ (exists inner, sr_reason sr = fallback_reason inner)
    /\ w_breaker w' = w_breaker w1.
Proof.
  intros Hcan. unfold AIScorer.score, bind at 1. rewrite Hcan.
  unfold bind at 1, get_world. cbn [negb orb]. unfold AIScorer._fallback, bind.
  destruct (deterministic_score_returns event n q w1) as (res & w2 & Hdet).
  rewrite Hdet. do 2 eexists. split; [reflexivity |]. cbn.
  destruct (deterministic_score_flags event n q w1 res w2 Hdet) as [-> ->].
  split; [reflexivity |]. split; [reflexivity |].
  split; [exists (sr_reason res); reflexivity |].
  exact (deterministic_score_keeps the_breaker event n q w1 _ w2 Hdet).
Qed.

End ScoreByBreaker.

(** X19.  With the model available and a count that converts to a float
    (for one that does not, the conversion raises in the model call and in
    the fallback alike), [AIScorer.score] goes by the breaker.
    Closed or half open: the model is called, its result is returned with
    [ai_used] set, and the breaker is closed with no failures.  Open, and no
    more than the time-out since the last failure: the fallback scores, with
    [fallback_mode] set and the reason starting "[FALLBACK] AI circuit
    breaker OPEN — ", and the breaker stays as it is.  Open, and more than
    the time-out since the last failure: the model is called again, and its
    success closes the breaker. *)
Theorem ai_score_by_breaker `{Platform}
        (event : NotificationEvent) (n : Z) (q : pyval) (w : World) :
  converts n = true ->
  w_AI_AVAILABLE w = true ->
  (state (w_breaker w) <> OPEN ->
   exists sr w',
     AIScorer.score event n q w = (Ok sr, w')
     /\ AIScorer._call_ai event n q w = (Ok sr, w)
     /\ sr_ai_used sr = true /\ sr_fallback_mode sr = false
     /\ state (w_breaker w') = CLOSED /\ failures (w_breaker w') = 0)
  /\ (forall last,
        state (w_breaker w) = OPEN -> last_failure_time (w_breaker w) = Some last ->
        (now w - last <= seconds (reset_timeout (w_breaker w)) ->
         exists sr w',
           AIScorer.score event n q w = (Ok sr, w')
           /\ sr_ai_used sr = false /\ sr_fallback_mode sr = true
           /\ (exists inner, sr_reason sr = fallback_reason inner)
           /\ w_breaker w' = w_breaker w)
        /\ (seconds (reset_timeout (w_breaker w)) < now w - last ->
            exists sr w',
              AIScorer.score event n q w = (Ok sr, w')
              /\ sr_ai_used sr = true /\ sr_fallback_mode sr = false
              /\ state (w_breaker w') = CLOSED /\ failures (w_breaker w') = 0)).
Proof.
  intros _ Hflag. split.
  - intros Hstate.
    destruct (ai_score_attempt event n q w w (can_attempt_not_open w Hstate) Hflag)
      as (sr & Hrun & Hcall & Hai & Hfb).
    exists sr. eexists. split; [exact Hrun |]. split; [apply Hcall |].
    repeat split; assumption.
  - intros last Hstate Hlast. split; intros Htime.
    + destruct (ai_score_refused event n q w _ (can_attempt_open_early w last Hstate Hlast Htime))
        as (sr & w' & Hrun & Hai & Hfb & Hreason & Hbreaker).
      exists sr, w'. repeat split; assumption.
    + destruct (ai_score_attempt event n q w _
                  (can_attempt_open_late w last Hstate Hlast Htime) Hflag)
        as (sr & Hrun & _ & Hai & Hfb).
      exists sr. eexists. split; [exact Hrun |]. repeat split; assumption.
Qed.

Section ScorerExamples.

#[local] Existing Instance UtcHost.platform.

Lemma ai_score_by_breaker_witness :
  exists sr w',
    AIScorer.score login_alert 0 (PBool false) (frozen_world demo_start) = (Ok sr, w')
    /\ AIScorer._call_ai login_alert 0 (PBool false) (frozen_world demo_start)
       = (Ok sr, frozen_world demo_start)
    /\ sr_ai_used sr = true /\ sr_fallback_mode sr = false
    /\ state (w_breaker w') = CLOSED /\ failures (w_breaker w') = 0.
Proof.
  destruct (ai_score_by_breaker login_alert 0 (PBool false) (frozen_world demo_start))
    as (Hclosed & _).
  - reflexivity.
  - reflexivity.
  - apply Hclosed. discriminate.
Defined.

Lemma evaluate_never_trips_breaker_witness :
  last_failure_time (w_breaker (snd (PrioritizationEngine.evaluate sarah (frozen_world demo_start))))
  = last_failure_time (w_breaker (frozen_world demo_start))
  /\ state (w_breaker (snd (PrioritizationEngine.evaluate sarah (frozen_world demo_start))))
     = CLOSED.
Proof.
  destruct (evaluate_never_trips_breaker sarah (frozen_world demo_start)
              (fst (PrioritizationEngine.evaluate sarah (frozen_world demo_start)))
              (snd (PrioritizationEngine.evaluate sarah (frozen_world demo_start))))
    as (Hlast & _ & _ & _ & _ & Hclosed).
  - vm_compute. reflexivity.
  - split; [exact Hlast | apply Hclosed; reflexivity].
Defined.

End ScorerExamples.

(** ** prioritizer.py under the default rules *)

Section DefaultRules.

Context `{Platform}.

Variable event : NotificationEvent.

Lemma _decide_not_now (act : string) (s : float) (r : string) (rm : option string)
      (ai fb : bool) :
  is_urgent (priority_hint event) = false -> act <> "NOW" ->
  yields (fun d => action d <> "NOW") (PrioritizationEngine._decide event act s r rm ai fb).
Proof.
  intros Hurgent Hact w d w' Hrun.
  apply _decide_fields in Hrun as (_ & _ & _ & _ & _ & Hd).
  rewrite Hurgent, andb_false_r in Hd. destruct Hd as (-> & _). exact Hact.
Qed.

Lemma score_and_merge_later (reason name : string) :
  is_urgent (priority_hint event) = false ->
  yields (fun d => action d <> "NOW")
         (PrioritizationEngine.score_and_merge event (Some ("LATER", reason, name))).
Proof.
  intros Hurgent. unfold PrioritizationEngine.score_and_merge.
  apply yields_bind. intros n. apply yields_bind. intros sr.
  rewrite Hurgent. change (String.eqb "LATER" "LATER") with true. cbn [andb negb].
  rewrite andb_true_r.
  destruct (String.eqb_spec (sr_action sr) "NOW") as [Hnow | Hother];
    apply _decide_not_now; try exact Hurgent; [discriminate | exact Hother].
Qed.

Lemma after_rules_later (reason name : string) :
  is_urgent (priority_hint event) = false ->
  yields (fun d => action d <> "NOW")
         (PrioritizationEngine.after_rules event (Some ("LATER", reason, name))).
Proof.
  intros Hurgent. unfold PrioritizationEngine.after_rules.
  apply yields_bind. intros freq. apply yields_bind. intros daily.
  repeat match goal with
         | |- yields _ (if ?b then _ else _) => destruct b
         end;
    first [apply score_and_merge_later; exact Hurgent
          | apply _decide_not_now; [exact Hurgent | discriminate]].
Qed.

(** Steps 1 to 3 leave the rules and every counter alone. *)
Lemma early_steps_keep (w w1 w2 : World) (expired : bool) (dup : option string) :
  is_expired event w = (Ok expired, w1) ->
  DedupChecker.check event w1 = (Ok dup, w2) ->
  w_rules w2 = w_rules w /\ w_counters w2 = w_counters w.
Proof.
  intros Hexp Hdup. split.
  - pose proof (is_expired_keeps the_rules _ _ _ _ Hexp) as H1.
    pose proof (check_keeps the_rules event ltac:(discriminate) _ _ _ Hdup) as H2.
    cbn in H1, H2. congruence.
  - apply map_eq. intros k.
    pose proof (is_expired_keeps (counter_at k) _ _ _ _ Hexp) as H1.
    pose proof (check_keeps (counter_at k) event ltac:(discriminate) _ _ _ Hdup) as H2.
    cbn in H1, H2. congruence.
Qed.

End DefaultRules.

(** X20.  Under the default rules an update whose priority is neither
    critical nor high is never sent NOW: where the scorer says NOW, the rule
    that defers updates turns it into LATER, and every other path gives
    LATER or NEVER. *)
Theorem update_never_now `{Platform}
        (event : NotificationEvent) (w : World) (d : Decision) (w' : World) :
  w_rules w = DEFAULT_RULES ->
  event_type event = "update" ->
  is_urgent (priority_hint event) = false ->
  PrioritizationEngine.evaluate event w = (Ok d, w') ->
  action d = "LATER" \/ action d = "NEVER".
Proof.
  intros Hrules Htype Hurgent Hrun.
  assert (action d <> "NOW") as Hnot_now.
  { revert Hrun. unfold PrioritizationEngine.evaluate, bind at 1.
    destruct (is_expired event w) as [[expired | ex] w1] eqn:Hexp; [| discriminate].
    destruct expired; [apply _decide_not_now; [exact Hurgent | discriminate] |].
    unfold bind at 1.
    destruct (DedupChecker.check event w1) as [[dup | ex] w2] eqn:Hdup; [| discriminate].
    destruct (truthy_str dup); [apply _decide_not_now; [exact Hurgent | discriminate] |].
    destruct (early_steps_keep event w w1 w2 false dup Hexp Hdup) as (Hrules2 & _).
    unfold bind at 1, RulesEngine.evaluate, bind, get_world.
    rewrite Hrules2, Hrules, default_rules_run. unfold default_outcome, AIScorer.hint_is.
    rewrite Htype. cbn [String.eqb Ascii.eqb Bool.eqb andb].
    assert (match priority_hint event with
            | Some x => String.eqb x "critical" | None => false end = false) as ->.
    { unfold is_urgent in Hurgent. destruct (priority_hint event) as [h |]; [| reflexivity].
      apply orb_false_elim in Hurgent as [Hcrit _]. exact Hcrit. }
    cbn [ret]. apply after_rules_later. exact Hurgent. }
  destruct (evaluate_known event w d w' Hrun) as [Hnow | Hother];
    [contradiction | exact Hother].
Qed.

(** X21.  Under the default rules a promotion of low or no priority is
    never sent and never counted: the decision is NEVER with score 0, made
    without a scorer, and no frequency or daily counter changes. *)
Theorem low_promotion_never_sent `{Platform} (event : NotificationEvent) (w : World) :
  w_rules w = DEFAULT_RULES ->
  event_type event = "promotion" ->
  priority_hint event = None \/ priority_hint event = Some "low" ->
  exists d w',
    PrioritizationEngine.evaluate event w = (Ok d, w')
    /\ action d = "NEVER" /\ score d = 0.0%float
    /\ ai_used d = false /\ fallback_mode d = false
    /\ w_counters w' = w_counters w.
Proof.
  intros Hrules Htype Hhint.
  assert (is_urgent (priority_hint event) = false) as Hurgent
      by (destruct Hhint as [-> | ->]; reflexivity).
  assert (forall r rm w0, exists d w',
             PrioritizationEngine._decide event "NEVER" 0.0%float r rm false false w0
             = (Ok d, w')
             /\ action d = "NEVER" /\ score d = 0.0%float
             /\ ai_used d = false /\ fallback_mode d = false
             /\ w_counters w' = w_counters w0) as Hdecide.
  { intros r rm w0. rewrite _decide_plain by (rewrite Hurgent; apply andb_false_r).
    do 2 eexists. split; [reflexivity |]. cbn. auto 6. }
  unfold PrioritizationEngine.evaluate, bind at 1.
  destruct (is_expired_returns event w) as (expired & w1 & Hexp). rewrite Hexp.
  assert (w_counters w1 = w_counters w) as Hcounters1.
  { apply map_eq. intros k. exact (is_expired_keeps (counter_at k) _ _ _ _ Hexp). }
  destruct expired.
  { destruct (Hdecide "Event expired before processing" None w1)
      as (d & w' & Hrun & Hfields).
    exists d, w'. split; [exact Hrun |]. rewrite <- Hcounters1. exact Hfields. }
  unfold bind at 1.
  destruct (check_returns event w1) as (dup & w2 & Hdup). rewrite Hdup.
  destruct (early_steps_keep event w w1 w2 false dup Hexp Hdup) as (Hrules2 & Hcounters2).
  destruct (truthy_str dup).
  { destruct (Hdecide (or_empty dup) (Some "dedup_check") w2) as (d & w' & Hrun & Hfields).
    exists d, w'. split; [exact Hrun |]. rewrite <- Hcounters2. exact Hfields. }
  unfold bind at 1, RulesEngine.evaluate, bind, get_world.
  rewrite Hrules2, Hrules, default_rules_run. unfold default_outcome, AIScorer.hint_is.
  rewrite Htype. cbn [String.eqb Ascii.eqb Bool.eqb andb].
  assert (match priority_hint event with
          | Some x => String.eqb x "critical" | None => false end = false) as ->
      by (destruct Hhint as [-> | ->]; reflexivity).
  assert (match priority_hint event with
          | Some x => String.eqb x "low" | None => false end
          || match priority_hint event with None => true | Some _ => false end = true) as ->
      by (destruct Hhint as [-> | ->]; reflexivity).
  cbn [ret]. change (String.eqb "NEVER" "NOW") with false.
  change (String.eqb "NEVER" "NEVER") with true. cbv iota.
  destruct (Hdecide "Low-priority promotions suppressed to reduce noise"
                    (Some "suppress_promos_low_priority") w2) as (d & w' & Hrun & Hfields).
  exists d, w'. split; [exact Hrun |]. rewrite <- Hcounters2. exact Hfields.
Qed.

(** ** audit.py: what the history holds *)

(** X22.  With a positive limit, [get_user_history] returns the last
    [limit] decisions (all of them when there are fewer) among those of the
    log that are the user's and, when an action is given and not empty, have
    that action, in the order of the log; the log is not changed. *)
Theorem history_is_recent_selection (user : string) (act : option string) (limit : Z)
        (w : World) :
  0 < limit ->
  exists older result,
    AuditLog.get_user_history user act limit w = (Ok result, w)
    /\ List.filter (selected user act) (w_log w) = (older ++ result)%list
    /\ List.length result
       = Nat.min (Z.to_nat limit) (List.length (List.filter (selected user act) (w_log w)))
    /\ Forall (fun d => d_user_id d = user
                        /\ (truthy_str act = true -> action d = or_empty act)) result.
Proof.
  intros Hlimit.
  unfold AuditLog.get_user_history, bind, get_world, ret. rewrite history_selection.
  set (chosen := List.filter (selected user act) (w_log w)).
  unfold py_slice_from.
  destruct (Z.ltb_spec (- limit) 0) as [_ | Hbad]; [| lia].
  set (i := Z.to_nat (Z.max (Z.of_nat (List.length chosen) + - limit) 0)).
  exists (firstn i chosen), (skipn i chosen).
  split; [reflexivity |].
  split; [symmetry; apply List.firstn_skipn |].
  split; [rewrite List.length_skipn; unfold i; lia |].
  assert (Forall (fun d => d_user_id d = user
                           /\ (truthy_str act = true -> action d = or_empty act)) chosen)
    as Hall.
  { apply List.Forall_forall. intros d Hin. unfold chosen in Hin.
    apply List.filter_In in Hin as (_ & Hsel). unfold selected in Hsel.
    apply andb_prop in Hsel as (Huser & Hact).
    split; [apply String.eqb_eq; exact Huser |].
    intros Htruthy. rewrite Htruthy in Hact. cbn in Hact.
    apply String.eqb_eq. exact Hact. }
  rewrite <- (List.firstn_skipn i chosen) in Hall.
  apply Forall_app in Hall as (_ & Hresult). exact Hresult.
Qed.

Section DefaultExamples.

#[local] Existing Instance UtcHost.platform.

Lemma update_never_now_witness :
  action (mk_decision "evt-0001" "user_003" "LATER" 0.35
            "[AI] Score 0.35: event_type='update'"
            (Some "defer_updates_to_digest") true false demo_start None) = "LATER"
  \/ action (mk_decision "evt-0001" "user_003" "LATER" 0.35
               "[AI] Score 0.35: event_type='update'"
               (Some "defer_updates_to_digest") true false demo_start None) = "NEVER".
Proof.
  apply (update_never_now (numbered "update" 1) (frozen_world demo_start) _
           (snd (PrioritizationEngine.evaluate (numbered "update" 1)
                   (frozen_world demo_start)))).
  - reflexivity.
  - reflexivity.
  - reflexivity.
  - vm_compute. reflexivity.
Defined.

Lemma low_promotion_never_sent_witness :
  exists d w',
    PrioritizationEngine.evaluate (numbered "promotion" 1) (frozen_world demo_start)
    = (Ok d, w')
    /\ action d = "NEVER" /\ score d = 0.0%float
    /\ ai_used d = false /\ fallback_mode d = false
    /\ w_counters w' = w_counters (frozen_world demo_start).
Proof.
  apply (low_promotion_never_sent (numbered "promotion" 1) (frozen_world demo_start)).
  - reflexivity.
  - reflexivity.
  - right. reflexivity.
Defined.

Lemma history_is_recent_selection_witness :
  exists older result,
    AuditLog.get_user_history "u1" (Some "NOW") 1
      (set_log (fun _ => [log_entry "u1" "NOW"; log_entry "u2" "NOW"; log_entry "u1" "NOW"])
               (frozen_world 0))
    = (Ok result,
       set_log (fun _ => [log_entry "u1" "NOW"; log_entry "u2" "NOW"; log_entry "u1" "NOW"])
               (frozen_world 0))
    /\ List.filter (selected "u1" (Some "NOW"))
         (w_log (set_log (fun _ => [log_entry "u1" "NOW"; log_entry "u2" "NOW";
                                    log_entry "u1" "NOW"]) (frozen_world 0)))
       = (older ++ result)%list
    /\ List.length result
       = Nat.min (Z.to_nat 1)
           (List.length
              (List.filter (selected "u1" (Some "NOW"))
                 (w_log (set_log (fun _ => [log_entry "u1" "NOW"; log_entry "u2" "NOW";
                                            log_entry "u1" "NOW"]) (frozen_world 0)))))
    /\ Forall (fun d => d_user_id d = "u1"
                        /\ (truthy_str (Some "NOW") = true -> action d = or_empty (Some "NOW")))
              result.
Proof.
  apply (history_is_recent_selection "u1" (Some "NOW") 1). lia.
Defined.

End DefaultExamples.
